(** * Test-step timeline sections: a model of [useGetTestSections]

    The hook [useGetTestSections] of the test-steps panel merges the steps of
    one test case with the network requests and navigation annotations that
    happened while the steps ran, sorts them, and splits them into the three
    sections [beforeEach], [testBody] and [afterEach].

    Times are JavaScript numbers in the source; they are modelled as [Z]
    (millisecond time stamps), the initial [Infinity] of the window minimum
    by a constructor of its own.  The arithmetic of the step times is also
    given for binary64 numbers ([stepTimes]), where it differs from [Z] for
    times that are no integers.  [Array.prototype.sort] is modelled as V8
    computes it on short arrays.  The redux selectors are modelled by the
    lists they return, and [partialRequestsToCompleteSummaries] by the list of
    summaries it produces.

    The components [TestSteps] and [TestSection], which render the
    sections, are modelled by the rows they produce, and the [render] method
    of [DeclarationValue] by the values it returns, strings being sequences
    of UTF-16 code units there. *)

From Stdlib Require Import ZArith List String Bool Lia Permutation Sorted.
From Stdlib Require Floats.
Import ListNotations.
Open Scope string_scope.
Open Scope list_scope.
Open Scope Z_scope.

(** ** Input records *)

Module TestItemError.
Record t := { message : string }.
End TestItemError.

Module TestStep.
Record t := {
  id : string;
  name : string;
  duration : option Z;
  relativeStartTime : Z;
  error : option TestItemError.t;
  hook : option string;
  args : option (list string)
}.
End TestStep.

Module CypressAnnotationMessage.
Record t := { id : option string; url : option string }.
End CypressAnnotationMessage.

Module Annotation.
Record t := { message : CypressAnnotationMessage.t; time : Z }.
End Annotation.

Module RequestSummary.
Record t := { id : string; cause : option string; end_ : option Z }.
End RequestSummary.

(** ** Derived records *)

Module Annotations.
Record t := {
  end_ : option Annotation.t;
  enqueue : option Annotation.t;
  start : option Annotation.t
}.
End Annotations.

Module AnnotatedTestStep.
Record t := {
  id : string;
  name : string;
  relativeStartTime : Z;
  error : option TestItemError.t;
  hook : option string;
  args : option (list string);
  absoluteStartTime : Z;
  absoluteEndTime : Z;
  duration : Z;
  index : nat;
  annotations : Annotations.t
}.
End AnnotatedTestStep.

Module StepEvent.
Record t := { time : Z; event : AnnotatedTestStep.t }.
End StepEvent.

Module NetworkEvent.
Record t := { time : Z; event : RequestSummary.t }.
End NetworkEvent.

Module NavigationEvent.
Record t := { time : Z; event : CypressAnnotationMessage.t }.
End NavigationEvent.

(** The [type] tag of the source is the constructor. *)
Inductive CompositeTestEvent :=
| Step (e : StepEvent.t)
| Network (e : NetworkEvent.t)
| Navigation (e : NavigationEvent.t).

Definition time (e : CompositeTestEvent) : Z :=
  match e with
  | Step s => StepEvent.time s
  | Network n => NetworkEvent.time n
  | Navigation n => NavigationEvent.time n
  end.

Definition isStep (e : CompositeTestEvent) : bool :=
  match e with Step _ => true | _ => false end.

Definition nonStep (e : CompositeTestEvent) : bool := negb (isStep e).

(** What the selectors of the store return for the test title, and the
    summaries computed from the requests and events of the store. *)
Record Store := {
  navigationEvents : list Annotation.t;
  annotationsEnqueue : list Annotation.t;
  annotationsEnd : list Annotation.t;
  annotationsStart : list Annotation.t;
  summaries : list RequestSummary.t
}.

Record Sections := {
  beforeEach : list CompositeTestEvent;
  testBody : list CompositeTestEvent;
  afterEach : list CompositeTestEvent
}.

(** ** JavaScript helpers *)

(** [x === y] on [string | undefined]. *)
Definition strictEq (x y : option string) : bool :=
  match x, y with
  | Some a, Some b => String.eqb a b
  | None, None => true
  | _, _ => false
  end.

(** [x === "lit"]. *)
Definition isLit (lit : string) (x : option string) : bool := strictEq x (Some lit).

(** Truthiness of a [string | undefined]: the empty string is falsy. *)
Definition truthy (x : option string) : bool :=
  match x with
  | Some s => negb (String.eqb s "")
  | None => false
  end.

(** [Array.prototype.map] with the index. *)
Fixpoint mapiFrom {A B} (f : A -> nat -> B) (i : nat) (l : list A) : list B :=
  match l with
  | [] => []
  | x :: l' => f x i :: mapiFrom f (S i) l'
  end.

Definition mapi {A B} (f : A -> nat -> B) (l : list A) : list B := mapiFrom f 0 l.

(** [Array.prototype.sort].  [cmp a b] negative puts [a] first, positive
    puts [b] first.  ECMAScript fixes the result (sorted, equal elements in
    their old order) only for a consistent comparator and leaves it to the
    implementation otherwise.  The model is the procedure of V8 (Chrome,
    Node) for an array of fewer than 64 elements, which is one run of its
    TimSort: the leading run is found by comparing each element with the one
    before it, a strictly descending run being reversed
    ([CountRunAndMakeAscending]), and the other elements are put in by binary
    search ([BinaryInsertionSort]).  Every comparison is [cmp later earlier],
    the element further right in the array coming first.  For 64 elements
    and more V8 sorts runs this way and merges them; with a consistent
    comparator the result is the same. *)

(** The elements after [previous] that continue an ascending run, and the
    others. *)
Fixpoint ascendingRun {A} (cmp : A -> A -> Z) (previous : A) (l : list A)
  : list A * list A :=
  match l with
  | [] => ([], [])
  | current :: l' =>
      if cmp current previous <? 0 then ([], l)
      else let (run, rest) := ascendingRun cmp current l' in (current :: run, rest)
  end.

(** The same for a strictly descending run. *)
Fixpoint descendingRun {A} (cmp : A -> A -> Z) (previous : A) (l : list A)
  : list A * list A :=
  match l with
  | [] => ([], [])
  | current :: l' =>
      if cmp current previous <? 0
      then let (run, rest) := descendingRun cmp current l' in (current :: run, rest)
      else ([], l)
  end.

Definition countRunAndMakeAscending {A} (cmp : A -> A -> Z) (l : list A)
  : list A * list A :=
  match l with
  | first :: second :: l' =>
      if cmp second first <? 0
      then let (run, rest) := descendingRun cmp second l' in
           (rev (first :: second :: run), rest)
      else let (run, rest) := ascendingRun cmp second l' in
           (first :: second :: run, rest)
  | _ => (l, [])
  end.

(** The binary search for the place of [pivot]: [seg] holds the elements
    from [left] up to [right], [before] those below [left] and [after] those
    from [right] on; [mid = left + ((right - left) >> 1)].  The search ends
    when [seg] is empty, which [fuel] steps reach when [seg] has no more
    than [fuel] elements. *)
Fixpoint binaryInsert {A} (cmp : A -> A -> Z) (pivot : A) (fuel : nat)
         (before seg after : list A) : list A :=
  match fuel with
  | O => before ++ pivot :: seg ++ after
  | S fuel' =>
      match skipn (List.length seg / 2)%nat seg with
      | [] => before ++ pivot :: after
      | mid :: seg2 =>
          let seg1 := firstn (List.length seg / 2)%nat seg in
          if cmp pivot mid <? 0
          then binaryInsert cmp pivot fuel' before seg1 (mid :: seg2 ++ after)
          else binaryInsert cmp pivot fuel' (before ++ seg1 ++ [mid]) seg2 after
      end
  end.

Definition binaryInsertionSort {A} (cmp : A -> A -> Z) (run rest : list A) : list A :=
  fold_left (fun sorted pivot =>
               binaryInsert cmp pivot (List.length sorted) [] sorted [])
            rest run.

Definition sort {A} (cmp : A -> A -> Z) (l : list A) : list A :=
  let (run, rest) := countRunAndMakeAscending cmp l in
  binaryInsertionSort cmp run rest.

(** The accumulator of the window: [min] starts at [Infinity]. *)
Inductive Num := Fin (z : Z) | Infinity.

Definition Math_min (a : Num) (z : Z) : Num :=
  match a with
  | Infinity => Fin z
  | Fin m => Fin (Z.min m z)
  end.

(** [t >= a]. *)
Definition geNum (t : Z) (a : Num) : bool :=
  match a with
  | Infinity => false
  | Fin m => m <=? t
  end.

Module Times.
Record t := { min : Num; max : Z }.
End Times.

(** ** Step time resolution (the callback of [steps.map]) *)

Definition findAnnotation (l : list Annotation.t) (sid : string) : option Annotation.t :=
  find (fun a => strictEq (CypressAnnotationMessage.id (Annotation.message a)) (Some sid)) l.

(** The three [let]s and the special case of asserts: the start time, the end
    time before one is subtracted from it, the start and end annotations and
    the duration, as they stand when the event object is built. *)
Definition resolveStep (store : Store) (startTime : Z) (s : TestStep.t)
  : Z * Z * option Annotation.t * option Annotation.t * Z :=
  let a_end := findAnnotation (annotationsEnd store) (TestStep.id s) in
  let a_start := findAnnotation (annotationsStart store) (TestStep.id s) in
  let duration :=
    match TestStep.duration s with
    | Some d => if d =? 0 then 1 else d
    | None => 1
    end in
  let absoluteStartTime :=
    match a_start with
    | Some a => Annotation.time a
    | None => startTime + TestStep.relativeStartTime s
    end in
  let absoluteEndTime :=
    match a_end with
    | Some a => Annotation.time a
    | None => absoluteStartTime + duration
    end in
  if String.eqb (TestStep.name s) "assert" then
    match TestStep.error s with
    | Some _ => (absoluteEndTime - 1, absoluteEndTime, a_end, a_end, 1)
    | None => (absoluteStartTime, absoluteStartTime + 1, a_start, a_start, 1)
    end
  else (absoluteStartTime, absoluteEndTime, a_start, a_end, duration).

Definition annotateStep (store : Store) (startTime : Z) (s : TestStep.t) (i : nat)
  : StepEvent.t :=
  let a_enqueue := findAnnotation (annotationsEnqueue store) (TestStep.id s) in
  let '(absoluteStartTime, absoluteEndTime, a_start, a_end, duration) :=
    resolveStep store startTime s in
  {| StepEvent.time := absoluteStartTime;
     StepEvent.event :=
       {| AnnotatedTestStep.id := TestStep.id s;
          AnnotatedTestStep.name := TestStep.name s;
          AnnotatedTestStep.relativeStartTime := TestStep.relativeStartTime s;
          AnnotatedTestStep.error := TestStep.error s;
          AnnotatedTestStep.hook := TestStep.hook s;
          AnnotatedTestStep.args := TestStep.args s;
          AnnotatedTestStep.absoluteStartTime := absoluteStartTime;
          AnnotatedTestStep.absoluteEndTime := absoluteEndTime - 1;
          AnnotatedTestStep.duration := duration;
          AnnotatedTestStep.index := i;
          AnnotatedTestStep.annotations :=
            {| Annotations.end_ := a_end;
               Annotations.enqueue := a_enqueue;
               Annotations.start := a_start |} |} |}.

(** The values of lines 155 to 157, before the special case of asserts. *)
Definition declaredDuration (s : TestStep.t) : Z :=
  match TestStep.duration s with
  | Some d => if d =? 0 then 1 else d
  | None => 1
  end.

Definition resolvedStart (store : Store) (startTime : Z) (s : TestStep.t) : Z :=
  match findAnnotation (annotationsStart store) (TestStep.id s) with
  | Some a => Annotation.time a
  | None => startTime + TestStep.relativeStartTime s
  end.

Definition provisionalEnd (store : Store) (startTime : Z) (s : TestStep.t) : Z :=
  match findAnnotation (annotationsEnd store) (TestStep.id s) with
  | Some a => Annotation.time a
  | None => resolvedStart store startTime s + declaredDuration s
  end.

(** The end time of a step just before one is subtracted from it. *)
Definition endBeforeNormalization (store : Store) (startTime : Z) (s : TestStep.t) : Z :=
  let '(_, absoluteEndTime, _, _, _) := resolveStep store startTime s in absoluteEndTime.

Definition stepsByTime (store : Store) (startTime : Z) (steps : list TestStep.t)
  : list StepEvent.t :=
  mapi (annotateStep store startTime) steps.

(** ** The arithmetic of the step times *)

(** JavaScript numbers are binary64 floating-point numbers.  On [Z] the
    model computes what the code computes as long as the times are integers
    (below 2^53 in size), for which binary64 addition and subtraction are
    exact.  The computation of lines 155 to 178 is written out here for any
    arithmetic, to be read on [Z], where it is the one of [annotateStep],
    and on binary64. *)
Module Arith.
Record t (num : Type) := {
  add : num -> num -> num;
  sub : num -> num -> num;
  one : num;
  falsy : num -> bool
}.
Arguments add {num}.
Arguments sub {num}.
Arguments one {num}.
Arguments falsy {num}.
End Arith.

(** The stored [absoluteStartTime], [absoluteEndTime] and [duration] of a
    step, from the times of its start and end annotations, the start time of
    the test case, and the [relativeStartTime] and [duration] of the step;
    [isAssert] is [s.name === "assert"] and [hasError] the truthiness of
    [s.error]. *)
Definition stepTimes {num : Type} (A : Arith.t num)
           (startAnnotation endAnnotation : option num)
           (startTime relativeStartTime : num) (declared : option num)
           (isAssert hasError : bool) : num * num * num :=
  let duration :=
    match declared with
    | Some d => if Arith.falsy A d then Arith.one A else d
    | None => Arith.one A
    end in
  let absoluteStartTime :=
    match startAnnotation with
    | Some t => t
    | None => Arith.add A startTime relativeStartTime
    end in
  let absoluteEndTime :=
    match endAnnotation with
    | Some t => t
    | None => Arith.add A absoluteStartTime duration
    end in
  let '(absoluteStartTime, absoluteEndTime, duration) :=
    if isAssert then
      if hasError
      then (Arith.sub A absoluteEndTime (Arith.one A), absoluteEndTime, Arith.one A)
      else (absoluteStartTime, Arith.add A absoluteStartTime (Arith.one A), Arith.one A)
    else (absoluteStartTime, absoluteEndTime, duration) in
  (absoluteStartTime, Arith.sub A absoluteEndTime (Arith.one A), duration).

Definition integers : Arith.t Z :=
  {| Arith.add := Z.add; Arith.sub := Z.sub; Arith.one := 1;
     Arith.falsy := fun d => d =? 0 |}.

Module Binary64.
Import Floats.

(** [0], [-0] and [NaN] are falsy. *)
Definition arith : Arith.t float :=
  {| Arith.add := PrimFloat.add; Arith.sub := PrimFloat.sub; Arith.one := 1%float;
     Arith.falsy := fun d => PrimFloat.eqb d 0%float || PrimFloat.is_nan d |}.

Definition zero : float := 0%float.

(** The binary64 numbers written 2047.3 and 2047.3000000000002. *)
Definition t2047_3 : float := 0x1.ffd3333333333p+10%float.
Definition t2047_3000000000002 : float := 0x1.ffd3333333334p+10%float.
End Binary64.

(** ** The window *)

Definition times (sbt : list StepEvent.t) : Times.t :=
  fold_left
    (fun acc s =>
       {| Times.min :=
            Math_min (Times.min acc) (AnnotatedTestStep.absoluteStartTime (StepEvent.event s));
          Times.max :=
            Z.max (Times.max acc) (AnnotatedTestStep.absoluteEndTime (StepEvent.event s)) |})
    sbt {| Times.min := Infinity; Times.max := 0 |}.

Definition isDuringSteps (tm : Times.t) (t : Z) : bool :=
  geNum t (Times.min tm) && (t <? Times.max tm).

(** ** Filtering of network and navigation events *)

Definition keepSummary (tm : Times.t) (n : RequestSummary.t) : bool :=
  (isLit "xhr" (RequestSummary.cause n) || isLit "fetch" (RequestSummary.cause n))
  && match RequestSummary.end_ n with
     | Some e => isDuringSteps tm e
     | None => false
     end.

(** [n.end!] is read only on summaries that passed the filter. *)
Definition toNetworkEvent (n : RequestSummary.t) : option NetworkEvent.t :=
  match RequestSummary.end_ n with
  | Some e => Some {| NetworkEvent.time := e; NetworkEvent.event := n |}
  | None => None
  end.

Fixpoint filterMap {A B} (f : A -> option B) (l : list A) : list B :=
  match l with
  | [] => []
  | x :: l' => match f x with Some y => y :: filterMap f l' | None => filterMap f l' end
  end.

Definition networkDataByTime (tm : Times.t) (ns : list RequestSummary.t)
  : list NetworkEvent.t :=
  filterMap toNetworkEvent (filter (keepSummary tm) ns).

Definition navigationEventsByTime (tm : Times.t) (navs : list Annotation.t)
  : list NavigationEvent.t :=
  map (fun n => {| NavigationEvent.time := Annotation.time n;
                   NavigationEvent.event := Annotation.message n |})
      (filter (fun e => isDuringSteps tm (Annotation.time e)) navs).

(** ** The comparator of the global sort *)

Definition compare (a b : CompositeTestEvent) : Z :=
  match a, b with
  | Step sa, Step sb =>
      let ha := AnnotatedTestStep.hook (StepEvent.event sa) in
      let hb := AnnotatedTestStep.hook (StepEvent.event sb) in
      if negb (strictEq ha hb) then
        if isLit "beforeEach" ha && negb (isLit "beforeEach" hb) then -1
        else if isLit "afterEach" ha && negb (isLit "afterEach" hb) then 1
        else time a - time b
      else time a - time b
  | _, _ => time a - time b
  end.

(** The list handed to [sort], in the order of the spread. *)
Definition retained (store : Store) (startTime : Z) (steps : list TestStep.t)
  : list CompositeTestEvent :=
  let sbt := stepsByTime store startTime steps in
  let tm := times sbt in
  map Network (networkDataByTime tm (summaries store))
  ++ map Step sbt
  ++ map Navigation (navigationEventsByTime tm (navigationEvents store)).

Definition allEvents (store : Store) (startTime : Z) (steps : list TestStep.t)
  : list CompositeTestEvent :=
  sort compare (retained store startTime steps).

(** ** Partitioning *)

(** [currentStack] aliases one of the three arrays: it is modelled by the
    name of the array it points to. *)
Inductive Stack := BeforeEach | TestBody | AfterEach.

Definition sameStack (a b : Stack) : bool :=
  match a, b with
  | BeforeEach, BeforeEach | TestBody, TestBody | AfterEach, AfterEach => true
  | _, _ => false
  end.

Record State := {
  st_beforeEach : list CompositeTestEvent;
  st_testBody : list CompositeTestEvent;
  st_afterEach : list CompositeTestEvent;
  currentStack : Stack;
  nonStepStack : list CompositeTestEvent
}.

Definition initial : State :=
  {| st_beforeEach := []; st_testBody := []; st_afterEach := [];
     currentStack := BeforeEach; nonStepStack := [] |}.

Definition stackOf (st : State) (k : Stack) : list CompositeTestEvent :=
  match k with
  | BeforeEach => st_beforeEach st
  | TestBody => st_testBody st
  | AfterEach => st_afterEach st
  end.

(** [currentStack.push(...l)]. *)
Definition push (st : State) (l : list CompositeTestEvent) : State :=
  match currentStack st with
  | BeforeEach =>
      {| st_beforeEach := st_beforeEach st ++ l; st_testBody := st_testBody st;
         st_afterEach := st_afterEach st; currentStack := currentStack st;
         nonStepStack := nonStepStack st |}
  | TestBody =>
      {| st_beforeEach := st_beforeEach st; st_testBody := st_testBody st ++ l;
         st_afterEach := st_afterEach st; currentStack := currentStack st;
         nonStepStack := nonStepStack st |}
  | AfterEach =>
      {| st_beforeEach := st_beforeEach st; st_testBody := st_testBody st;
         st_afterEach := st_afterEach st ++ l; currentStack := currentStack st;
         nonStepStack := nonStepStack st |}
  end.

Definition setCurrent (st : State) (k : Stack) : State :=
  {| st_beforeEach := st_beforeEach st; st_testBody := st_testBody st;
     st_afterEach := st_afterEach st; currentStack := k;
     nonStepStack := nonStepStack st |}.

Definition setNonStep (st : State) (l : list CompositeTestEvent) : State :=
  {| st_beforeEach := st_beforeEach st; st_testBody := st_testBody st;
     st_afterEach := st_afterEach st; currentStack := currentStack st;
     nonStepStack := l |}.

(** [currentStack.push(...nonStepStack.splice(0, nonStepStack.length))]. *)
Definition flush (st : State) : State :=
  setNonStep (push st (nonStepStack st)) [].

(** The stack a step switches to, and whether that changed the stack. *)
Definition target (cur : Stack) (h : option string) : bool * Stack :=
  if isLit "beforeEach" h then (negb (sameStack cur BeforeEach), BeforeEach)
  else if isLit "afterEach" h then (negb (sameStack cur AfterEach), AfterEach)
  else if negb (truthy h) then (negb (sameStack cur TestBody), TestBody)
  else (false, cur).

(** One iteration of the [for] loop. *)
Definition loopBody (st : State) (e : CompositeTestEvent) : State :=
  match e with
  | Step s =>
      let '(stackChanged, cur) :=
        target (currentStack st) (AnnotatedTestStep.hook (StepEvent.event s)) in
      let st := setCurrent st cur in
      let st := if negb stackChanged then flush st else st in
      let st := push st [e] in
      flush st
  | _ =>
      if (List.length (stackOf st (currentStack st)) =? 0)%nat then st
      else setNonStep st (nonStepStack st ++ [e])
  end.

Definition runLoop (l : list CompositeTestEvent) : State :=
  fold_left loopBody l initial.

(** The code after the loop, and the returned object. *)
Definition finish (st : State) : Sections :=
  let p := nonStepStack st in
  let nonEmpty (l : list CompositeTestEvent) := negb (List.length l =? 0)%nat in
  if nonEmpty p then
    if nonEmpty (st_afterEach st) then
      {| beforeEach := st_beforeEach st; testBody := st_testBody st;
         afterEach := st_afterEach st ++ p |}
    else if nonEmpty (st_testBody st) then
      {| beforeEach := st_beforeEach st; testBody := st_testBody st ++ p;
         afterEach := st_afterEach st |}
    else if nonEmpty (st_beforeEach st) then
      {| beforeEach := st_beforeEach st ++ p; testBody := st_testBody st;
         afterEach := st_afterEach st |}
    else
      {| beforeEach := st_beforeEach st; testBody := st_testBody st;
         afterEach := st_afterEach st |}
  else
    {| beforeEach := st_beforeEach st; testBody := st_testBody st;
       afterEach := st_afterEach st |}.

Definition partition (l : list CompositeTestEvent) : Sections :=
  finish (runLoop l).

Definition useGetTestSections (store : Store) (startTime : Z) (steps : list TestStep.t)
  : Sections :=
  partition (allEvents store startTime steps).

(** All events of the three sections, in section order. *)
Definition contents (s : Sections) : list CompositeTestEvent :=
  beforeEach s ++ testBody s ++ afterEach s.

(** * Notions used in the statements *)

(** ** Consistent comparators *)

(** [cmp] is a consistent comparator for the elements of [l], in the words
    of ECMAScript for [Array.prototype.sort]: writing [a =CF b] for
    [cmp a b = 0], [a <CF b] for [cmp a b < 0] and [a >CF b] for
    [cmp a b > 0], the relation [=CF] is reflexive, symmetric and transitive,
    and [<CF] and [>CF] are transitive.  For such a comparator the standard
    fixes what [sort] returns. *)
Definition consistent {A : Type} (cmp : A -> A -> Z) (l : list A) : Prop :=
  (forall a, In a l -> cmp a a = 0)
  /\ (forall a b, In a l -> In b l -> cmp a b = 0 -> cmp b a = 0)
  /\ (forall a b c, In a l -> In b l -> In c l ->
                    cmp a b = 0 -> cmp b c = 0 -> cmp a c = 0)
  /\ (forall a b c, In a l -> In b l -> In c l ->
                    cmp a b < 0 -> cmp b c < 0 -> cmp a c < 0)
  /\ (forall a b c, In a l -> In b l -> In c l ->
                    0 < cmp a b -> 0 < cmp b c -> 0 < cmp a c).

(** [a] does not sort after [b], both being elements of [l]. *)
Definition sortedIn {A : Type} (cmp : A -> A -> Z) (l : list A) (a b : A) : Prop :=
  In a l /\ In b l /\ cmp a b <= 0.

(** ** The contents of the loop state *)

(** Everything the loop holds: the three arrays, then the pending events. *)
Definition buckets (st : State) : list CompositeTestEvent :=
  st_beforeEach st ++ st_testBody st ++ st_afterEach st.

Definition held (st : State) : list CompositeTestEvent :=
  buckets st ++ nonStepStack st.

(** The current array has an element. *)
Definition active (st : State) : Prop := stackOf st (currentStack st) <> [].

(** The events from the first step on. *)
Fixpoint fromFirstStep (l : list CompositeTestEvent) : list CompositeTestEvent :=
  match l with
  | [] => []
  | e :: l' => if isStep e then l else fromFirstStep l'
  end.

(** ** Sample inputs *)

Definition mkStep (i n : string) (d : option Z) (r : Z)
           (err : option TestItemError.t) (h : option string) : TestStep.t :=
  {| TestStep.id := i; TestStep.name := n; TestStep.duration := d;
     TestStep.relativeStartTime := r; TestStep.error := err;
     TestStep.hook := h; TestStep.args := None |}.

Definition mkSummary (i : string) (c : option string) (e : option Z) : RequestSummary.t :=
  {| RequestSummary.id := i; RequestSummary.cause := c; RequestSummary.end_ := e |}.

Definition mkAnnotation (i : string) (t : Z) : Annotation.t :=
  {| Annotation.message :=
       {| CypressAnnotationMessage.id := Some i; CypressAnnotationMessage.url := None |};
     Annotation.time := t |}.

(** A store with no annotations: only network summaries. *)
Definition networkOnly (ns : list RequestSummary.t) : Store :=
  {| navigationEvents := []; annotationsEnqueue := []; annotationsEnd := [];
     annotationsStart := []; summaries := ns |}.

Definition failure : TestItemError.t := {| TestItemError.message := "expected true" |}.

(** ** The window *)

Definition startOf (s : StepEvent.t) : Z :=
  AnnotatedTestStep.absoluteStartTime (StepEvent.event s).

Definition storedEndOf (s : StepEvent.t) : Z :=
  AnnotatedTestStep.absoluteEndTime (StepEvent.event s).

(** The reducer of [times], and what it maintains. *)
Definition timesStep (acc : Times.t) (s : StepEvent.t) : Times.t :=
  {| Times.min := Math_min (Times.min acc) (startOf s);
     Times.max := Z.max (Times.max acc) (storedEndOf s) |}.

Definition isMinimum (sbt : list StepEvent.t) (m : Num) : Prop :=
  match m with
  | Infinity => sbt = []
  | Fin z => (exists s, In s sbt /\ startOf s = z) /\ forall s, In s sbt -> z <= startOf s
  end.

Definition isMaximum (sbt : list StepEvent.t) (z : Z) : Prop :=
  0 <= z
  /\ (z = 0 \/ exists s, In s sbt /\ storedEndOf s = z)
  /\ forall s, In s sbt -> storedEndOf s <= z.

(** ** Sections and hooks *)

Definition sectionsOf (st : State) : Sections :=
  {| beforeEach := st_beforeEach st; testBody := st_testBody st;
     afterEach := st_afterEach st |}.

(** [k] is where the loop puts the event when [k] is the current array:
    always so for an event that is no step and for a step whose hook names no
    array, and for the other steps when [k] is the array of their hook. *)
Definition routedTo (k : Stack) (e : CompositeTestEvent) : bool :=
  match e with
  | Step s => sameStack (snd (target k (AnnotatedTestStep.hook (StepEvent.event s)))) k
  | _ => true
  end.

Definition routed (st : State) : Prop :=
  forall k, Forall (fun e => routedTo k e = true) (stackOf st k).

(** The loop keeps the steps where their hook says, and only events that
    are no steps pending. *)
Definition loopInv (st : State) : Prop :=
  routed st /\ Forall (fun e => nonStep e = true) (nonStepStack st).

(** ** Changing the enqueue annotations *)

(** The store with other enqueue annotations. *)
Definition withEnqueue (store : Store) (q : list Annotation.t) : Store :=
  {| navigationEvents := navigationEvents store;
     annotationsEnqueue := q;
     annotationsEnd := annotationsEnd store;
     annotationsStart := annotationsStart store;
     summaries := summaries store |}.

(** The step event with another enqueue annotation, all else unchanged. *)
Definition setEnqueue (q : option Annotation.t) (s : StepEvent.t) : StepEvent.t :=
  let ev := StepEvent.event s in
  let an := AnnotatedTestStep.annotations ev in
  {| StepEvent.time := StepEvent.time s;
     StepEvent.event :=
       {| AnnotatedTestStep.id := AnnotatedTestStep.id ev;
          AnnotatedTestStep.name := AnnotatedTestStep.name ev;
          AnnotatedTestStep.relativeStartTime := AnnotatedTestStep.relativeStartTime ev;
          AnnotatedTestStep.error := AnnotatedTestStep.error ev;
          AnnotatedTestStep.hook := AnnotatedTestStep.hook ev;
          AnnotatedTestStep.args := AnnotatedTestStep.args ev;
          AnnotatedTestStep.absoluteStartTime := AnnotatedTestStep.absoluteStartTime ev;
          AnnotatedTestStep.absoluteEndTime := AnnotatedTestStep.absoluteEndTime ev;
          AnnotatedTestStep.duration := AnnotatedTestStep.duration ev;
          AnnotatedTestStep.index := AnnotatedTestStep.index ev;
          AnnotatedTestStep.annotations :=
            {| Annotations.end_ := Annotations.end_ an;
               Annotations.enqueue := q;
               Annotations.start := Annotations.start an |} |} |}.

(** The event with the enqueue annotation that [q] holds for its step. *)
Definition reEnqueue (q : list Annotation.t) (e : CompositeTestEvent) : CompositeTestEvent :=
  match e with
  | Step s =>
      Step (setEnqueue (findAnnotation q (AnnotatedTestStep.id (StepEvent.event s))) s)
  | _ => e
  end.

(** The event without its enqueue annotation. *)
Definition eraseEnqueue (e : CompositeTestEvent) : CompositeTestEvent :=
  match e with
  | Step s => Step (setEnqueue None s)
  | _ => e
  end.

Definition mapSections (f : CompositeTestEvent -> CompositeTestEvent) (s : Sections)
  : Sections :=
  {| beforeEach := map f (beforeEach s); testBody := map f (testBody s);
     afterEach := map f (afterEach s) |}.

Definition mapState (f : CompositeTestEvent -> CompositeTestEvent) (st : State) : State :=
  {| st_beforeEach := map f (st_beforeEach st); st_testBody := map f (st_testBody st);
     st_afterEach := map f (st_afterEach st); currentStack := currentStack st;
     nonStepStack := map f (nonStepStack st) |}.

Definition reEnqueueStep (q : list Annotation.t) (s : StepEvent.t) : StepEvent.t :=
  setEnqueue (findAnnotation q (AnnotatedTestStep.id (StepEvent.event s))) s.

(** ** Orders on events *)

(** Two steps whose hooks differ. *)
Definition hooksDiffer (x y : CompositeTestEvent) : bool :=
  match x, y with
  | Step a, Step b =>
      negb (strictEq (AnnotatedTestStep.hook (StepEvent.event a))
                     (AnnotatedTestStep.hook (StepEvent.event b)))
  | _, _ => false
  end.

(** The order of the sections as the specification words it. *)
Definition asSpecified (x y : CompositeTestEvent) : Prop :=
  hooksDiffer x y = true \/ time x <= time y.

(** [k.push(...l)]. *)
Definition appendTo (k : Stack) (l : list CompositeTestEvent) (st : State) : State :=
  match k with
  | BeforeEach =>
      {| st_beforeEach := st_beforeEach st ++ l; st_testBody := st_testBody st;
         st_afterEach := st_afterEach st; currentStack := currentStack st;
         nonStepStack := nonStepStack st |}
  | TestBody =>
      {| st_beforeEach := st_beforeEach st; st_testBody := st_testBody st ++ l;
         st_afterEach := st_afterEach st; currentStack := currentStack st;
         nonStepStack := nonStepStack st |}
  | AfterEach =>
      {| st_beforeEach := st_beforeEach st; st_testBody := st_testBody st;
         st_afterEach := st_afterEach st ++ l; currentStack := currentStack st;
         nonStepStack := nonStepStack st |}
  end.

(** [compare] is a consistent comparator for the events of [l]: the five
    conditions of [consistent], decided. *)
Definition consistentb (l : list CompositeTestEvent) : bool :=
  forallb (fun a =>
    (compare a a =? 0)
    && forallb (fun b =>
         implb (compare a b =? 0) (compare b a =? 0)
         && forallb (fun c =>
              implb ((compare a b =? 0) && (compare b c =? 0)) (compare a c =? 0)
              && implb ((compare a b <? 0) && (compare b c <? 0)) (compare a c <? 0)
              && implb ((0 <? compare a b) && (0 <? compare b c)) (0 <? compare a c))
            l)
       l)
    l.

(** [x] comes before [y] in [l]. *)
Definition beforeIn (l : list CompositeTestEvent) (x y : CompositeTestEvent) : Prop :=
  exists l1 l2 l3, l = l1 ++ x :: l2 ++ y :: l3.

(** In the list [l] handed to the loop, [x] is a step that changes the
    current array while [y] is pending: [y] is no step and comes before [x]
    with nothing but events that are no steps between them, some step comes
    before [y], and the hook of [x] names another array than the one that is
    current when [x] is reached. *)
Definition switchPair (l : list CompositeTestEvent) (x y : CompositeTestEvent) : Prop :=
  exists s l1 ns l2,
    x = Step s /\ nonStep y = true
    /\ l = l1 ++ y :: ns ++ Step s :: l2
    /\ forallb nonStep ns = true
    /\ forallb nonStep l1 = false
    /\ fst (target (currentStack (runLoop l1))
                   (AnnotatedTestStep.hook (StepEvent.event s))) = true.

(** The order of a section against the order of the list [l] the loop went
    through: as in [l], but for a step that changed the current array and
    the events pending then, which follow it. *)
Definition keepsOrder (l : list CompositeTestEvent) (x y : CompositeTestEvent) : Prop :=
  beforeIn l x y \/ switchPair l x y.

(** The classification of a hook: "beforeEach", "afterEach", or neither,
    named by the array it leads to. *)
Definition hookClass (h : option string) : Stack :=
  if isLit "beforeEach" h then BeforeEach
  else if isLit "afterEach" h then AfterEach
  else TestBody.

(** Two steps whose hooks are classified differently. *)
Definition classesDiffer (x y : CompositeTestEvent) : bool :=
  match x, y with
  | Step a, Step b =>
      negb (sameStack (hookClass (AnnotatedTestStep.hook (StepEvent.event a)))
                      (hookClass (AnnotatedTestStep.hook (StepEvent.event b))))
  | _, _ => false
  end.

(** By time, but for two steps whose hooks are classified differently. *)
Definition byTimeOrHook (x y : CompositeTestEvent) : Prop :=
  classesDiffer x y = true \/ time x <= time y.

(** The same against the times: by time, but for two steps whose hooks are
    classified differently, and for those pairs. *)
Definition inTimeOrder (l : list CompositeTestEvent) (x y : CompositeTestEvent) : Prop :=
  byTimeOrHook x y \/ switchPair l x y.

(** The place of an array in the returned sections. *)
Definition rank (k : Stack) : nat :=
  match k with
  | BeforeEach => 0
  | TestBody => 1
  | AfterEach => 2
  end.

(** Along [l] no step leads back to an earlier array. *)
Definition forward (l : list CompositeTestEvent) : Prop :=
  forall l1 s l2, l = l1 ++ Step s :: l2 ->
    (rank (currentStack (runLoop l1))
     <= rank (snd (target (currentStack (runLoop l1))
                          (AnnotatedTestStep.hook (StepEvent.event s)))))%nat.

(** ** Hooks *)

(** A hook that names no section: a non-empty string that is neither
    "beforeEach" nor "afterEach". *)
Definition otherHook (h : option string) : bool :=
  truthy h && negb (isLit "beforeEach" h) && negb (isLit "afterEach" h).

(** The step events whose hook names the section [k]; an absent or empty
    hook names the test body. *)
Definition hasHook (k : Stack) (e : CompositeTestEvent) : bool :=
  match e with
  | Step s =>
      let h := AnnotatedTestStep.hook (StepEvent.event s) in
      match k with
      | BeforeEach => isLit "beforeEach" h
      | AfterEach => isLit "afterEach" h
      | TestBody => negb (truthy h)
      end
  | _ => false
  end.

Definition section (out : Sections) (k : Stack) : list CompositeTestEvent :=
  match k with
  | BeforeEach => beforeEach out
  | TestBody => testBody out
  | AfterEach => afterEach out
  end.

(** The loop has only used the array [k]. *)
Definition onlyUses (k : Stack) (st : State) : Prop :=
  (forall k', sameStack k' k = false -> stackOf st k' = [])
  /\ (currentStack st = k \/ st = initial).

(** The window contains no time. *)
Definition emptyWindow (tm : Times.t) : Prop := forall t, isDuringSteps tm t = false.

(** The hook of a step event, for events that are steps. *)
Definition hookOf (e : CompositeTestEvent) : option string :=
  match e with
  | Step s => AnnotatedTestStep.hook (StepEvent.event s)
  | _ => None
  end.

(** * Rendering the sections: [TestSteps] and [TestSection] *)

Module TestItem.
Record t := {
  steps : list TestStep.t;
  title : string;
  error : option TestItemError.t
}.
End TestItem.

(** What a section renders, one row after the other: the markup is reduced
    to the component of each row and the props it receives. *)
Inductive Row :=
| SectionHeader (header : string)
| TestStepItemRow (step : AnnotatedTestStep.t) (key index : nat)
                  (argString : option string) (id : string)
| NetworkEventRow (key : string) (request : RequestSummary.t)
| NavigationRow (pending : bool) (url : option string)
| ErrorRow (message : string).

(** The callback of [events.map] in [TestSection]; [args?.toString()] joins
    the arguments with commas. *)
Definition renderEvent (currentTime : Z) (e : CompositeTestEvent) (i : nat) : Row :=
  match e with
  | Step s =>
      let ev := StepEvent.event s in
      TestStepItemRow ev i (AnnotatedTestStep.index ev)
                      (option_map (String.concat ",") (AnnotatedTestStep.args ev))
                      (AnnotatedTestStep.id ev)
  | Network n =>
      NetworkEventRow (RequestSummary.id (NetworkEvent.event n)) (NetworkEvent.event n)
  | Navigation n =>
      NavigationRow (currentTime <? NavigationEvent.time n)
                    (CypressAnnotationMessage.url (NavigationEvent.event n))
  end.

(** [currentTime] is what [useAppSelector(getCurrentTime)] returns. *)
Definition TestSection (currentTime : Z) (events : list CompositeTestEvent)
           (header : option string) : list Row :=
  if (List.length events =? 0)%nat then []
  else
    match header with
    | Some h => if truthy header then [SectionHeader h] else []
    | None => []
    end
    ++ mapi (renderEvent currentTime) events.

(** [testCaseStartTime] is the start time of the [TestCaseContext]. *)
Definition TestSteps (store : Store) (testCaseStartTime currentTime : Z)
           (test : TestItem.t) : list Row :=
  let out := useGetTestSections store testCaseStartTime (TestItem.steps test) in
  TestSection currentTime (beforeEach out) (Some "Before Each")
  ++ TestSection currentTime (testBody out)
       (if (0 <? List.length (beforeEach out) + List.length (afterEach out))%nat
        then Some "Test Body" else None)
  ++ TestSection currentTime (afterEach out) (Some "After Each")
  ++ match TestItem.error test with
     | Some err => [ErrorRow (TestItemError.message err)]
     | None => []
     end.

(** The step a row shows, for the rows of steps. *)
Definition rowStep (r : Row) : option AnnotatedTestStep.t :=
  match r with
  | TestStepItemRow step _ _ _ _ => Some step
  | _ => None
  end.

Definition eventStep (e : CompositeTestEvent) : option AnnotatedTestStep.t :=
  match e with
  | Step s => Some (StepEvent.event s)
  | _ => None
  end.

(** The rows that are section headers. *)
Definition isHeader (r : Row) : bool :=
  match r with SectionHeader _ => true | _ => false end.

(** ** Inputs that are never read *)

(** The annotation is about one of the steps. *)
Definition aboutStep (steps : list TestStep.t) (a : Annotation.t) : bool :=
  existsb (fun s => strictEq (CypressAnnotationMessage.id (Annotation.message a))
                             (Some (TestStep.id s))) steps.

(** The store without the start, end and enqueue annotations of other
    steps than those of the test. *)
Definition ownAnnotations (store : Store) (steps : list TestStep.t) : Store :=
  {| navigationEvents := navigationEvents store;
     annotationsEnqueue := filter (aboutStep steps) (annotationsEnqueue store);
     annotationsEnd := filter (aboutStep steps) (annotationsEnd store);
     annotationsStart := filter (aboutStep steps) (annotationsStart store);
     summaries := summaries store |}.

(** The summary is one of a finished xhr or fetch request. *)
Definition finishedRequest (n : RequestSummary.t) : bool :=
  (isLit "xhr" (RequestSummary.cause n) || isLit "fetch" (RequestSummary.cause n))
  && match RequestSummary.end_ n with Some _ => true | None => false end.

Definition finishedRequests (store : Store) : Store :=
  {| navigationEvents := navigationEvents store;
     annotationsEnqueue := annotationsEnqueue store;
     annotationsEnd := annotationsEnd store;
     annotationsStart := annotationsStart store;
     summaries := filter finishedRequest (summaries store) |}.

(** * CSS declaration values: [DeclarationValue] *)

(** A JavaScript string is a sequence of UTF-16 code units. *)
Definition jsString := list N.

(** The code units of an ASCII literal. *)
Fixpoint units (s : string) : jsString :=
  match s with
  | EmptyString => []
  | String c s' => Ascii.N_of_ascii c :: units s'
  end.

Fixpoint jsString_eqb (a b : jsString) : bool :=
  match a, b with
  | [], [] => true
  | x :: a', y :: b' => (x =? y)%N && jsString_eqb a' b'
  | _, _ => false
  end.

(** The characters [.] does not match: line feed, carriage return, line
    separator and paragraph separator. *)
Definition isLineTerminator (c : N) : bool :=
  ((c =? 10) || (c =? 13) || (c =? 8232) || (c =? 8233))%N.

Definition important : jsString := units "!important".

(** [v.match(/^(.*?)(!important)?$/)] with [prefix] already taken by the
    lazy first group and [rest] still to match: the match succeeds as soon
    as [rest] is "!important" (second group) or is empty (no second group);
    otherwise the first group takes one more character, which [.] must
    match.  The result is the pair of the two groups. *)
Fixpoint matchImportant (prefix rest : jsString) : option (jsString * option jsString) :=
  if jsString_eqb rest important then Some (prefix, Some important)
  else
    match rest with
    | [] => Some (prefix, None)
    | c :: rest' =>
        if isLineTerminator c then None else matchImportant (prefix ++ [c]) rest'
    end.

(** The constants of [third-party/css/output-parser], which is not part of
    the sources at hand. *)
Record OutputParser := {
  COLOR : jsString;
  FONT_FAMILY : jsString;
  URI : jsString
}.

Module DeclarationValueProps.
Record t := {
  colorSpanClassName : jsString;
  colorSwatchClassName : jsString;
  fontFamilySpanClassName : jsString
}.
End DeclarationValueProps.

(** A value of the declaration: a string, or a record of strings of which
    [type], [value] and [href] are read. *)
Module ParsedValue.
Record t := { type : jsString; value : jsString; href : option jsString }.
End ParsedValue.

Inductive DeclarationPart :=
| Plain (v : jsString)
| Parsed (v : ParsedValue.t).

(** What [render] returns for one value. *)
Inductive Rendered :=
| Text (s : jsString)
| Fragments (l : list jsString)
| ColorElement (colorSpanClassName colorSwatchClassName key value : jsString)
| FontFamilyElement (fontFamilySpanClassName key value : jsString)
| UrlElement (key : jsString) (href : option jsString) (value : jsString).

Definition renderValue (parser : OutputParser) (props : DeclarationValueProps.t)
           (v : DeclarationPart) : Rendered :=
  match v with
  | Plain v =>
      match matchImportant [] v with
      | Some (g1, Some g2) =>
          if negb (List.length g2 =? 0)%nat then Fragments [g1; units " "; g2] else Text v
      | _ => Text v
      end
  | Parsed o =>
      let type := ParsedValue.type o in
      let value := ParsedValue.value o in
      if jsString_eqb type (COLOR parser) then
        ColorElement (DeclarationValueProps.colorSpanClassName props)
                     (DeclarationValueProps.colorSwatchClassName props) value value
      else if jsString_eqb type (FONT_FAMILY parser) then
        FontFamilyElement (DeclarationValueProps.fontFamilySpanClassName props) value value
      else if jsString_eqb type (URI parser) then
        UrlElement value (ParsedValue.href o) value
      else Text value
  end.

Definition render (parser : OutputParser) (props : DeclarationValueProps.t)
           (values : list DeclarationPart) : list Rendered :=
  map (renderValue parser props) values.

(** No character of the string is a line terminator. *)
Definition oneLine (s : jsString) : bool := forallb (fun c => negb (isLineTerminator c)) s.

(** * Facts about the helpers *)

Lemma StronglySorted_app {A : Type} (R : A -> A -> Prop) (l1 l2 : list A) :
  StronglySorted R l1 -> StronglySorted R l2 ->
  (forall x y, In x l1 -> In y l2 -> R x y) ->
  StronglySorted R (l1 ++ l2).
Proof.
  intros H1 H2 H12. induction H1 as [|a l H1 IH Ha]; simpl; [exact H2|].
  constructor.
  - apply IH. intros x y Hx Hy. apply H12; [now right|exact Hy].
  - apply Forall_app. split; [exact Ha|].
    apply Forall_forall. intros y Hy. apply H12; [now left|exact Hy].
Qed.

Lemma StronglySorted_app_inv {A : Type} (R : A -> A -> Prop) (l1 l2 : list A) :
  StronglySorted R (l1 ++ l2) ->
  StronglySorted R l1 /\ StronglySorted R l2
  /\ (forall x y, In x l1 -> In y l2 -> R x y).
Proof.
  induction l1 as [|a l1 IH]; simpl; intros H.
  - split; [constructor|]. split; [exact H|]. intros x y [].
  - inversion H as [|a' l' Hs Ha]; subst.
    destruct (IH Hs) as (H1 & H2 & H12).
    apply Forall_app in Ha. destruct Ha as [Ha1 Ha2].
    split; [now constructor|]. split; [exact H2|].
    intros x y [<-|Hx] Hy.
    + rewrite Forall_forall in Ha2. now apply Ha2.
    + now apply H12.
Qed.

Lemma StronglySorted_weaken {A : Type} (R R' : A -> A -> Prop) (l : list A) :
  (forall x y, R x y -> R' x y) -> StronglySorted R l -> StronglySorted R' l.
Proof.
  intros HR. induction 1 as [|a l H IH Ha]; constructor; [exact IH|].
  revert Ha. apply Forall_impl. intros y. apply HR.
Qed.

Lemma StronglySorted_rev {A : Type} (R : A -> A -> Prop) (l : list A) :
  StronglySorted (fun a b => R b a) l -> StronglySorted R (rev l).
Proof.
  induction 1 as [|a l H IH Ha]; simpl; [constructor|].
  apply StronglySorted_app; [exact IH|repeat constructor|].
  intros x y Hx [<-|[]]. apply in_rev in Hx.
  rewrite Forall_forall in Ha. now apply Ha.
Qed.

Section SortFacts.
Context {A : Type} (cmp : A -> A -> Z).

Lemma ascendingRun_split (previous : A) (l : list A) :
  l = fst (ascendingRun cmp previous l) ++ snd (ascendingRun cmp previous l).
Proof.
  revert previous. induction l as [|x l IH]; intros previous; simpl; [reflexivity|].
  destruct (cmp x previous <? 0); [reflexivity|].
  specialize (IH x). destruct (ascendingRun cmp x l) as [run rest].
  simpl in *. now f_equal.
Qed.

Lemma descendingRun_split (previous : A) (l : list A) :
  l = fst (descendingRun cmp previous l) ++ snd (descendingRun cmp previous l).
Proof.
  revert previous. induction l as [|x l IH]; intros previous; simpl; [reflexivity|].
  destruct (cmp x previous <? 0); [|reflexivity].
  specialize (IH x). destruct (descendingRun cmp x l) as [run rest].
  simpl in *. now f_equal.
Qed.

Lemma countRunAndMakeAscending_perm (l : list A) :
  Permutation (fst (countRunAndMakeAscending cmp l)
               ++ snd (countRunAndMakeAscending cmp l)) l.
Proof.
  destruct l as [|first [|second l]]; try (simpl; reflexivity).
  unfold countRunAndMakeAscending.
  destruct (cmp second first <? 0).
  - pose proof (descendingRun_split second l) as H.
    destruct (descendingRun cmp second l) as [run rest]. cbn [fst snd] in *.
    rewrite <- Permutation_rev. rewrite H. reflexivity.
  - pose proof (ascendingRun_split second l) as H.
    destruct (ascendingRun cmp second l) as [run rest]. cbn [fst snd] in *.
    rewrite H. reflexivity.
Qed.

Lemma binaryInsert_perm (pivot : A) (fuel : nat) (before seg after : list A) :
  Permutation (binaryInsert cmp pivot fuel before seg after)
              (pivot :: before ++ seg ++ after).
Proof.
  revert before seg after.
  induction fuel as [|fuel IH]; intros before seg after; cbn [binaryInsert].
  - symmetry. apply Permutation_middle.
  - pose proof (firstn_skipn (List.length seg / 2)%nat seg) as Hseg.
    destruct (skipn (List.length seg / 2)%nat seg) as [|mid seg2] eqn:E.
    + rewrite app_nil_r in Hseg.
      assert (Hnil : seg = []).
      { destruct seg as [|x seg]; [reflexivity|].
        apply (f_equal (@List.length A)) in E. rewrite length_skipn in E.
        simpl List.length in E.
        pose proof (Nat.div_lt (S (List.length seg)) 2). lia. }
      subst seg. simpl. symmetry. apply Permutation_middle.
    + set (seg1 := firstn (List.length seg / 2)%nat seg) in *.
      clearbody seg1. clear E. subst seg.
      destruct (cmp pivot mid <? 0); rewrite IH; apply perm_skip;
        rewrite <- ?app_assoc; simpl; reflexivity.
Qed.

(** The search never runs out of fuel: any two amounts that are at least
    the length of the segment give the same place. *)
Lemma binaryInsert_fuel (pivot : A) (fuel fuel' : nat) (before seg after : list A) :
  (List.length seg <= fuel)%nat -> (List.length seg <= fuel')%nat ->
  binaryInsert cmp pivot fuel before seg after
  = binaryInsert cmp pivot fuel' before seg after.
Proof.
  revert fuel' before seg after.
  assert (Hnil : forall n before after,
             binaryInsert cmp pivot n before [] after = before ++ pivot :: after).
  { intros [|n] before after; reflexivity. }
  induction fuel as [|fuel IH]; intros fuel' before seg after Hlen Hlen'.
  - destruct seg; [|simpl in Hlen; lia]. now rewrite !Hnil.
  - destruct fuel' as [|fuel'].
    { destruct seg; [|simpl in Hlen'; lia]. now rewrite !Hnil. }
    cbn [binaryInsert].
    pose proof (firstn_skipn (List.length seg / 2)%nat seg) as Hseg.
    destruct (skipn (List.length seg / 2)%nat seg) as [|mid seg2] eqn:E;
      [reflexivity|].
    set (seg1 := firstn (List.length seg / 2)%nat seg) in *.
    assert (Hlen1 : (List.length seg1 <= List.length seg / 2)%nat).
    { unfold seg1. rewrite length_firstn. lia. }
    assert (Hhalf : (List.length seg <= 2 * (List.length seg / 2) + 1)%nat).
    { pose proof (Nat.div_mod_eq (List.length seg) 2).
      pose proof (Nat.mod_upper_bound (List.length seg) 2). lia. }
    assert (Hlens : (List.length seg
                     = List.length seg1 + S (List.length seg2))%nat).
    { rewrite <- Hseg. rewrite length_app. reflexivity. }
    destruct (cmp pivot mid <? 0); apply IH; lia.
Qed.

Lemma binaryInsertionSort_perm (rest run : list A) :
  Permutation (binaryInsertionSort cmp run rest) (run ++ rest).
Proof.
  unfold binaryInsertionSort. revert run.
  induction rest as [|pivot rest IH]; intros run; simpl.
  - now rewrite app_nil_r.
  - rewrite IH, binaryInsert_perm. simpl. rewrite app_nil_r.
    apply Permutation_middle.
Qed.

Lemma sort_perm (l : list A) : Permutation (sort cmp l) l.
Proof.
  unfold sort. pose proof (countRunAndMakeAscending_perm l) as H.
  destruct (countRunAndMakeAscending cmp l) as [run rest].
  now rewrite binaryInsertionSort_perm.
Qed.

Lemma sort_In (l : list A) (x : A) : In x (sort cmp l) <-> In x l.
Proof.
  split; apply Permutation_in; [|symmetry]; apply sort_perm.
Qed.

(** ** A consistent comparator gives a sorted list *)

Context (all : list A).
Hypothesis Hconsistent : consistent cmp all.

Lemma consistent_opposite (a b : A) :
  In a all -> In b all -> (cmp a b < 0 <-> 0 < cmp b a).
Proof.
  destruct Hconsistent as (Hrefl & Hsym & Heq & Hlt & Hgt).
  assert (Hone : forall x y, In x all -> In y all -> cmp x y < 0 -> 0 < cmp y x).
  { intros x y Hx Hy Hxy.
    destruct (Z.lt_trichotomy (cmp y x) 0) as [H|[H|H]]; [| |lia].
    - pose proof (Hlt x y x Hx Hy Hx Hxy H). pose proof (Hrefl x Hx). lia.
    - pose proof (Hsym y x Hy Hx H). lia. }
  assert (Htwo : forall x y, In x all -> In y all -> 0 < cmp x y -> cmp y x < 0).
  { intros x y Hx Hy Hxy.
    destruct (Z.lt_trichotomy (cmp y x) 0) as [H|[H|H]]; [lia| |].
    - pose proof (Hsym y x Hy Hx H). lia.
    - pose proof (Hgt x y x Hx Hy Hx Hxy H). pose proof (Hrefl x Hx). lia. }
  intros Ha Hb. split; [now apply Hone|now apply Htwo].
Qed.

Lemma consistent_transitive (a b c : A) :
  In a all -> In b all -> In c all ->
  cmp a b <= 0 -> cmp b c <= 0 -> cmp a c <= 0.
Proof.
  intros Ha Hb Hc Hab Hbc.
  destruct Hconsistent as (Hrefl & Hsym & Heq & Hlt & Hgt).
  destruct (Z.lt_trichotomy (cmp a c) 0) as [H|[H|H]]; [lia|lia|exfalso].
  assert (Hca : cmp c a < 0) by (now apply consistent_opposite).
  apply Z.le_lteq in Hab, Hbc.
  destruct Hab as [Hab|Hab]; destruct Hbc as [Hbc|Hbc].
  - pose proof (Hlt a b c Ha Hb Hc Hab Hbc). lia.
  - pose proof (Hlt c a b Hc Ha Hb Hca Hab).
    pose proof (Hsym b c Hb Hc Hbc). lia.
  - pose proof (Hlt b c a Hb Hc Ha Hbc Hca).
    pose proof (Hsym a b Ha Hb Hab). lia.
  - pose proof (Heq a b c Ha Hb Hc Hab Hbc). lia.
Qed.

Lemma consistent_total (a b : A) :
  In a all -> In b all -> ~ cmp a b < 0 -> cmp b a <= 0.
Proof.
  intros Ha Hb H.
  destruct (Z.lt_trichotomy (cmp b a) 0) as [H'|[H'|H']]; [lia|lia|].
  apply consistent_opposite in H'; [contradiction|assumption|assumption].
Qed.

Lemma sortedIn_transitive (a b c : A) :
  sortedIn cmp all a b -> sortedIn cmp all b c -> sortedIn cmp all a c.
Proof.
  intros (Ha & Hb & Hab) (_ & Hc & Hbc).
  split; [exact Ha|]. split; [exact Hc|].
  exact (consistent_transitive a b c Ha Hb Hc Hab Hbc).
Qed.

Lemma Sorted_sortedIn (l : list A) :
  Sorted (sortedIn cmp all) l -> StronglySorted (sortedIn cmp all) l.
Proof.
  apply Sorted_StronglySorted. intros a b c. apply sortedIn_transitive.
Qed.

Lemma ascendingRun_sorted (previous : A) (l : list A) :
  In previous all -> incl l all ->
  Sorted (sortedIn cmp all) (previous :: fst (ascendingRun cmp previous l)).
Proof.
  revert previous. induction l as [|x l IH]; intros previous Hp Hl; simpl.
  - repeat constructor.
  - assert (Hx : In x all) by (apply Hl; now left).
    destruct (Z.ltb_spec (cmp x previous) 0) as [Hlt|Hge]; simpl.
    + repeat constructor.
    + specialize (IH x Hx (fun y Hy => Hl y (or_intror Hy))).
      destruct (ascendingRun cmp x l) as [run rest]. simpl in *.
      constructor; [exact IH|]. constructor.
      split; [exact Hp|]. split; [exact Hx|].
      apply consistent_total; [exact Hx|exact Hp|lia].
Qed.

Lemma descendingRun_sorted (previous : A) (l : list A) :
  In previous all -> incl l all ->
  Sorted (fun a b => sortedIn cmp all b a)
         (previous :: fst (descendingRun cmp previous l)).
Proof.
  revert previous. induction l as [|x l IH]; intros previous Hp Hl; simpl.
  - repeat constructor.
  - assert (Hx : In x all) by (apply Hl; now left).
    destruct (Z.ltb_spec (cmp x previous) 0) as [Hlt|Hge]; simpl.
    + specialize (IH x Hx (fun y Hy => Hl y (or_intror Hy))).
      destruct (descendingRun cmp x l) as [run rest]. simpl in *.
      constructor; [exact IH|]. constructor.
      split; [exact Hx|]. split; [exact Hp|lia].
    + repeat constructor.
Qed.

Lemma countRunAndMakeAscending_sorted (l : list A) :
  incl l all ->
  StronglySorted (sortedIn cmp all) (fst (countRunAndMakeAscending cmp l)).
Proof.
  intros Hl. destruct l as [|first [|second l]].
  - constructor.
  - repeat constructor.
  - assert (H1 : In first all) by (apply Hl; now left).
    assert (H2 : In second all) by (apply Hl; right; now left).
    assert (Hl' : incl l all) by (intros y Hy; apply Hl; right; now right).
    unfold countRunAndMakeAscending.
    destruct (Z.ltb_spec (cmp second first) 0) as [Hlt|Hge].
    + pose proof (descendingRun_sorted second l H2 Hl') as H.
      destruct (descendingRun cmp second l) as [run rest]. cbn [fst] in *.
      apply StronglySorted_rev.
      apply Sorted_StronglySorted.
      { intros a b c Hab Hbc. exact (sortedIn_transitive c b a Hbc Hab). }
      constructor; [exact H|]. constructor.
      split; [exact H2|]. split; [exact H1|lia].
    + pose proof (ascendingRun_sorted second l H2 Hl') as H.
      destruct (ascendingRun cmp second l) as [run rest]. cbn [fst] in *.
      apply Sorted_sortedIn.
      constructor; [exact H|]. constructor.
      split; [exact H1|]. split; [exact H2|].
      apply consistent_total; [exact H2|exact H1|lia].
Qed.

Lemma binaryInsert_sorted (pivot : A) (fuel : nat) (before seg after : list A) :
  In pivot all -> incl (before ++ seg ++ after) all ->
  (List.length seg <= fuel)%nat ->
  StronglySorted (sortedIn cmp all) (before ++ seg ++ after) ->
  Forall (fun e => sortedIn cmp all e pivot) before ->
  Forall (fun e => sortedIn cmp all pivot e) after ->
  StronglySorted (sortedIn cmp all) (binaryInsert cmp pivot fuel before seg after).
Proof.
  intros Hp. revert before seg after.
  assert (Hdone : forall before after,
             StronglySorted (sortedIn cmp all) (before ++ after) ->
             Forall (fun e => sortedIn cmp all e pivot) before ->
             Forall (fun e => sortedIn cmp all pivot e) after ->
             StronglySorted (sortedIn cmp all) (before ++ pivot :: after)).
  { intros before after Hs Hb Ha.
    apply StronglySorted_app_inv in Hs. destruct Hs as (H1 & H2 & H12).
    apply StronglySorted_app; [exact H1|now constructor|].
    intros x y Hx [<-|Hy].
    - rewrite Forall_forall in Hb. now apply Hb.
    - now apply H12. }
  induction fuel as [|fuel IH]; intros before seg after Hall Hlen Hs Hb Ha;
    cbn [binaryInsert].
  - destruct seg; [|simpl in Hlen; lia]. simpl in *. now apply Hdone.
  - pose proof (firstn_skipn (List.length seg / 2)%nat seg) as Hseg.
    destruct (skipn (List.length seg / 2)%nat seg) as [|mid seg2] eqn:E.
    + rewrite app_nil_r in Hseg.
      assert (Hnil : seg = []).
      { destruct seg as [|x seg]; [reflexivity|].
        apply (f_equal (@List.length A)) in E. rewrite length_skipn in E.
        simpl List.length in E.
        pose proof (Nat.div_lt (S (List.length seg)) 2). lia. }
      subst seg. simpl in *. now apply Hdone.
    + set (seg1 := firstn (List.length seg / 2)%nat seg) in *.
      assert (Hlen1 : (List.length seg1 <= List.length seg / 2)%nat).
      { unfold seg1. rewrite length_firstn. lia. }
      assert (Hhalf : (List.length seg <= 2 * (List.length seg / 2) + 1)%nat).
      { pose proof (Nat.div_mod_eq (List.length seg) 2).
        pose proof (Nat.mod_upper_bound (List.length seg) 2). lia. }
      assert (Hlens : (List.length seg
                       = List.length seg1 + S (List.length seg2))%nat).
      { rewrite <- Hseg. rewrite length_app. reflexivity. }
      assert (Hfuel1 : (List.length seg1 <= fuel)%nat) by lia.
      assert (Hfuel2 : (List.length seg2 <= fuel)%nat) by lia.
      clearbody seg1. clear E Hlen1 Hhalf Hlens Hlen. subst seg.
      assert (Hm : In mid all).
      { apply Hall. rewrite !in_app_iff. right. left. right. now left. }
      pose proof Hs as Hs'.
      apply StronglySorted_app_inv in Hs'. destruct Hs' as (_ & Hs' & _).
      apply StronglySorted_app_inv in Hs'. destruct Hs' as (Hs' & _ & _).
      apply StronglySorted_app_inv in Hs'. destruct Hs' as (_ & Hmid & H1m).
      inversion Hmid as [|? ? _ Hm2]; subst.
      destruct (Z.ltb_spec (cmp pivot mid) 0) as [Hlt|Hge].
      * apply IH.
        -- rewrite <- !app_assoc in Hall. exact Hall.
        -- exact Hfuel1.
        -- rewrite <- !app_assoc in Hs. exact Hs.
        -- exact Hb.
        -- assert (Hpm : sortedIn cmp all pivot mid).
           { split; [exact Hp|]. split; [exact Hm|lia]. }
           constructor; [exact Hpm|]. apply Forall_app. split; [|exact Ha].
           revert Hm2. apply Forall_impl. intros e.
           now apply sortedIn_transitive.
      * assert (Hmp : sortedIn cmp all mid pivot).
        { split; [exact Hm|]. split; [exact Hp|].
          apply consistent_total; [exact Hp|exact Hm|lia]. }
        apply IH.
        -- rewrite <- !app_assoc. rewrite <- !app_assoc in Hall. exact Hall.
        -- exact Hfuel2.
        -- rewrite <- !app_assoc. rewrite <- !app_assoc in Hs. exact Hs.
        -- apply Forall_app. split; [exact Hb|]. apply Forall_app. split.
           ++ apply Forall_forall. intros e He.
              apply (sortedIn_transitive e mid pivot); [|exact Hmp].
              apply H1m; [exact He|now left].
           ++ constructor; [exact Hmp|constructor].
        -- exact Ha.
Qed.

Lemma binaryInsertionSort_sorted (rest run : list A) :
  incl (run ++ rest) all ->
  StronglySorted (sortedIn cmp all) run ->
  StronglySorted (sortedIn cmp all) (binaryInsertionSort cmp run rest).
Proof.
  unfold binaryInsertionSort. revert run.
  induction rest as [|pivot rest IH]; intros run Hall Hs; simpl; [exact Hs|].
  assert (Hp : In pivot all).
  { apply Hall. apply in_app_iff. right. now left. }
  assert (Hrun : incl run all).
  { intros y Hy. apply Hall. apply in_app_iff. now left. }
  apply IH.
  - intros y Hy. apply in_app_iff in Hy. destruct Hy as [Hy|Hy].
    + apply (Permutation_in _ (binaryInsert_perm pivot _ [] run [])) in Hy.
      simpl in Hy. rewrite app_nil_r in Hy.
      destruct Hy as [<-|Hy]; [exact Hp|now apply Hrun].
    + apply Hall. apply in_app_iff. right. now right.
  - apply binaryInsert_sorted.
    + exact Hp.
    + simpl. now rewrite app_nil_r.
    + lia.
    + simpl. now rewrite app_nil_r.
    + constructor.
    + constructor.
Qed.

Lemma sort_sortedIn (l : list A) :
  incl l all -> StronglySorted (sortedIn cmp all) (sort cmp l).
Proof.
  intros Hall. unfold sort.
  pose proof (countRunAndMakeAscending_perm l) as Hperm.
  pose proof (countRunAndMakeAscending_sorted l Hall) as Hs.
  destruct (countRunAndMakeAscending cmp l) as [run rest]. cbn [fst snd] in *.
  apply binaryInsertionSort_sorted; [|exact Hs].
  intros y Hy. apply Hall. exact (Permutation_in _ Hperm Hy).
Qed.
End SortFacts.

(** With a consistent comparator the array comes out sorted. *)
Lemma sort_sorted {A : Type} (cmp : A -> A -> Z) (l : list A) :
  consistent cmp l -> StronglySorted (fun a b => cmp a b <= 0) (sort cmp l).
Proof.
  intros Hc.
  apply (StronglySorted_weaken (sortedIn cmp l)).
  - now intros x y (_ & _ & H).
  - apply (sort_sortedIn cmp l Hc). intros y Hy. exact Hy.
Qed.

(** The sort only looks at its elements through the comparator. *)
Section SortMap.
Context {A B : Type} (f : A -> B) (cmpA : A -> A -> Z) (cmpB : B -> B -> Z).
Hypothesis Hf : forall a b, cmpB (f a) (f b) = cmpA a b.

Lemma ascendingRun_map (previous : A) (l : list A) :
  ascendingRun cmpB (f previous) (map f l)
  = (map f (fst (ascendingRun cmpA previous l)),
     map f (snd (ascendingRun cmpA previous l))).
Proof.
  revert previous. induction l as [|x l IH]; intros previous; simpl; [reflexivity|].
  rewrite Hf. destruct (cmpA x previous <? 0); [reflexivity|].
  rewrite IH. now destruct (ascendingRun cmpA x l).
Qed.

Lemma descendingRun_map (previous : A) (l : list A) :
  descendingRun cmpB (f previous) (map f l)
  = (map f (fst (descendingRun cmpA previous l)),
     map f (snd (descendingRun cmpA previous l))).
Proof.
  revert previous. induction l as [|x l IH]; intros previous; simpl; [reflexivity|].
  rewrite Hf. destruct (cmpA x previous <? 0); [|reflexivity].
  rewrite IH. now destruct (descendingRun cmpA x l).
Qed.

Lemma countRunAndMakeAscending_map (l : list A) :
  countRunAndMakeAscending cmpB (map f l)
  = (map f (fst (countRunAndMakeAscending cmpA l)),
     map f (snd (countRunAndMakeAscending cmpA l))).
Proof.
  destruct l as [|first [|second l]]; simpl; try reflexivity.
  rewrite Hf. destruct (cmpA second first <? 0).
  - rewrite descendingRun_map. destruct (descendingRun cmpA second l) as [run rest].
    cbn [fst snd]. simpl. now rewrite !map_app, map_rev.
  - rewrite ascendingRun_map. now destruct (ascendingRun cmpA second l).
Qed.

Lemma binaryInsert_map (pivot : A) (fuel : nat) (before seg after : list A) :
  binaryInsert cmpB (f pivot) fuel (map f before) (map f seg) (map f after)
  = map f (binaryInsert cmpA pivot fuel before seg after).
Proof.
  revert before seg after.
  induction fuel as [|fuel IH]; intros before seg after; cbn [binaryInsert].
  - rewrite !map_app. simpl. now rewrite map_app.
  - rewrite length_map, skipn_map, firstn_map.
    destruct (skipn (List.length seg / 2)%nat seg) as [|mid seg2];
      cbn [map].
    + rewrite map_app. reflexivity.
    + rewrite Hf. destruct (cmpA pivot mid <? 0).
      * rewrite <- IH. cbn [map]. now rewrite map_app.
      * rewrite <- IH. now rewrite !map_app.
Qed.

Lemma sort_commutes (l : list A) : sort cmpB (map f l) = map f (sort cmpA l).
Proof.
  unfold sort. rewrite countRunAndMakeAscending_map.
  destruct (countRunAndMakeAscending cmpA l) as [run rest]. cbn [fst snd].
  unfold binaryInsertionSort. revert run.
  induction rest as [|pivot rest IH]; intros run; simpl; [reflexivity|].
  rewrite length_map.
  change (@nil B) with (map f []).
  rewrite (binaryInsert_map pivot (List.length run) [] run []).
  apply IH.
Qed.
End SortMap.

Lemma sort_map {A B : Type} (f : A -> B) (cmpA : A -> A -> Z) (cmpB : B -> B -> Z)
      (l : list A) :
  (forall a b, cmpB (f a) (f b) = cmpA a b) ->
  sort cmpB (map f l) = map f (sort cmpA l).
Proof. intros Hf. now apply sort_commutes. Qed.

Lemma mapiFrom_length {A B : Type} (f : A -> nat -> B) (l : list A) (i : nat) :
  List.length (mapiFrom f i l) = List.length l.
Proof.
  revert i. induction l as [|x l IH]; intros i; simpl; [reflexivity|now rewrite IH].
Qed.

Lemma mapiFrom_nth {A B : Type} (f : A -> nat -> B) (l : list A) (i k : nat) (x : A) :
  nth_error l k = Some x -> nth_error (mapiFrom f i l) k = Some (f x (i + k)%nat).
Proof.
  revert i k. induction l as [|y l IH]; intros i [|k]; simpl; try discriminate.
  - intros [= ->]. now rewrite Nat.add_0_r.
  - intros H. rewrite (IH (S i) k H). f_equal. f_equal. lia.
Qed.

Lemma mapiFrom_In {A B : Type} (f : A -> nat -> B) (l : list A) (i : nat) (y : B) :
  In y (mapiFrom f i l) ->
  exists k x, nth_error l k = Some x /\ y = f x (i + k)%nat.
Proof.
  revert i. induction l as [|x l IH]; intros i; simpl; [tauto|].
  intros [<-|H].
  - exists 0%nat, x. split; [reflexivity|now rewrite Nat.add_0_r].
  - destruct (IH _ H) as (k & x' & Hk & ->).
    exists (S k), x'. split; [exact Hk|f_equal; lia].
Qed.

Lemma filter_perm {A : Type} (f : A -> bool) {l l' : list A} :
  Permutation l l' -> Permutation (filter f l) (filter f l').
Proof.
  induction 1 as [|x l l' _ IH|x y l|l l' l'' _ IH1 _ IH2]; simpl.
  - constructor.
  - destruct (f x); [now apply perm_skip|exact IH].
  - destruct (f x), (f y); try reflexivity. apply perm_swap.
  - now transitivity (filter f l').
Qed.

(** * The partitioning loop *)

(** Permutations of concatenations: cancel equal heads, rotating the
    right-hand side until its head is the one of the left-hand side. *)
Ltac perm_norm := repeat rewrite <- ?app_assoc, ?app_nil_r, ?app_nil_l.

Ltac perm_rotate n :=
  lazymatch n with
  | O => fail "no matching block"
  | S ?m =>
      first
        [ reflexivity
        | apply Permutation_app_head
        | etransitivity; [|apply Permutation_app_comm]; perm_norm; perm_rotate m ]
  end.

Ltac perm_blocks := perm_norm; repeat (perm_rotate 6%nat; perm_norm).

Lemma push_held (st : State) (l : list CompositeTestEvent) :
  Permutation (held (push st l)) (held st ++ l).
Proof.
  unfold held, buckets, push. destruct (currentStack st); simpl; perm_blocks.
Qed.

Lemma flush_held (st : State) : Permutation (held (flush st)) (held st).
Proof.
  unfold flush. change (held (setNonStep (push st (nonStepStack st)) []))
    with (buckets (push st (nonStepStack st)) ++ []).
  rewrite app_nil_r. unfold held, buckets, push.
  destruct (currentStack st); simpl; perm_blocks.
Qed.

Lemma held_setCurrent (st : State) (k : Stack) : held (setCurrent st k) = held st.
Proof. reflexivity. Qed.

Lemma push_active (st : State) (l : list CompositeTestEvent) :
  l <> [] -> active (push st l).
Proof.
  unfold active, push. intros Hl.
  destruct (currentStack st) eqn:E; simpl; rewrite ?E; simpl;
    intros H; apply app_eq_nil in H; tauto.
Qed.

Lemma flush_active (st : State) : active st -> active (flush st).
Proof.
  unfold active, flush, push.
  destruct (currentStack st) eqn:E; simpl; rewrite ?E; simpl;
    intros Hne H; apply app_eq_nil in H; tauto.
Qed.

Lemma currentStack_push (st : State) (l : list CompositeTestEvent) :
  currentStack (push st l) = currentStack st.
Proof. unfold push. now destruct (currentStack st). Qed.

Lemma nonStepStack_push (st : State) (l : list CompositeTestEvent) :
  nonStepStack (push st l) = nonStepStack st.
Proof. unfold push. now destruct (currentStack st). Qed.

(** A step is always appended, and leaves the current array non-empty. *)
Lemma loopBody_step (st : State) (s : StepEvent.t) :
  Permutation (held (loopBody st (Step s))) (held st ++ [Step s])
  /\ active (loopBody st (Step s)).
Proof.
  unfold loopBody.
  destruct (target (currentStack st) (AnnotatedTestStep.hook (StepEvent.event s)))
    as [changed cur].
  split.
  - rewrite flush_held, push_held. apply Permutation_app_tail.
    destruct changed; simpl; [|rewrite flush_held]; now rewrite held_setCurrent.
  - apply flush_active, push_active. discriminate.
Qed.

(** Before the first step the current array is empty and the event is lost;
    afterwards it is queued. *)
Lemma loopBody_nonStep_empty (st : State) (e : CompositeTestEvent) :
  nonStep e = true -> stackOf st (currentStack st) = [] -> loopBody st e = st.
Proof.
  intros He Hc. destruct e; try discriminate; simpl; now rewrite Hc.
Qed.

Lemma loopBody_nonStep_active (st : State) (e : CompositeTestEvent) :
  nonStep e = true -> active st ->
  loopBody st e = setNonStep st (nonStepStack st ++ [e]).
Proof.
  unfold active. intros He Hc.
  destruct e; try discriminate; simpl;
    destruct (stackOf st (currentStack st)); simpl; congruence.
Qed.

Lemma held_setNonStep (st : State) (l : list CompositeTestEvent) :
  held (setNonStep st l) = buckets st ++ l.
Proof. reflexivity. Qed.

Lemma loopBody_active (st : State) (e : CompositeTestEvent) :
  active st ->
  Permutation (held (loopBody st e)) (held st ++ [e]) /\ active (loopBody st e).
Proof.
  intros Hact. destruct (isStep e) eqn:He.
  - destruct e; try discriminate. apply loopBody_step.
  - rewrite loopBody_nonStep_active; [|unfold nonStep; now rewrite He|exact Hact].
    split; [|exact Hact].
    rewrite held_setNonStep. unfold held. now rewrite app_assoc.
Qed.

Lemma fold_loopBody_active (l : list CompositeTestEvent) (st : State) :
  active st ->
  Permutation (held (fold_left loopBody l st)) (held st ++ l)
  /\ active (fold_left loopBody l st).
Proof.
  revert st. induction l as [|e l IH]; intros st Hact; simpl.
  - now rewrite app_nil_r.
  - destruct (loopBody_active st e Hact) as [Hp Ha].
    destruct (IH _ Ha) as [Hp' Ha']. split; [|exact Ha'].
    rewrite Hp', Hp, <- app_assoc. reflexivity.
Qed.

(** The state after the loop: untouched while no step was seen, and
    otherwise holding exactly the events from the first step on. *)
Lemma runLoop_held (l : list CompositeTestEvent) :
  (fromFirstStep l = [] /\ runLoop l = initial)
  \/ (Permutation (held (runLoop l)) (fromFirstStep l) /\ active (runLoop l)).
Proof.
  unfold runLoop. induction l as [|e l IH]; simpl.
  - now left.
  - destruct e as [s|n|n]; simpl.
    + right. destruct (loopBody_step initial s) as [Hp Ha].
      destruct (fold_loopBody_active l _ Ha) as [Hp' Ha']. split; [|exact Ha'].
      rewrite Hp', Hp. reflexivity.
    + exact IH.
    + exact IH.
Qed.

Lemma active_buckets (st : State) : active st -> buckets st <> [].
Proof.
  unfold active, buckets, stackOf.
  destruct (currentStack st); intros Hne H;
    repeat (apply app_eq_nil in H; destruct H as [? H]); congruence.
Qed.

(** The code after the loop loses nothing once some array is non-empty. *)
Lemma finish_contents (st : State) :
  buckets st <> [] -> Permutation (contents (finish st)) (held st).
Proof.
  unfold finish, contents, held, buckets. intros Hne.
  destruct (nonStepStack st) as [|p ps]; simpl; [now rewrite app_nil_r|].
  destruct (st_afterEach st) as [|a as_]; simpl.
  - destruct (st_testBody st) as [|t ts]; simpl.
    + destruct (st_beforeEach st) as [|b bs]; simpl; [now elim Hne|].
      now rewrite !app_nil_r.
    + rewrite !app_nil_r, <- app_assoc. reflexivity.
  - rewrite <- !app_assoc. reflexivity.
Qed.

(** The sections hold exactly the events from the first step on. *)
Lemma partition_contents (l : list CompositeTestEvent) :
  Permutation (contents (partition l)) (fromFirstStep l).
Proof.
  unfold partition. destruct (runLoop_held l) as [[H0 Hi]|[Hp Ha]].
  - rewrite H0, Hi. reflexivity.
  - rewrite finish_contents; [exact Hp|now apply active_buckets].
Qed.

Lemma filter_isStep_fromFirstStep (l : list CompositeTestEvent) :
  filter isStep (fromFirstStep l) = filter isStep l.
Proof.
  induction l as [|e l IH]; simpl; [reflexivity|].
  destruct (isStep e) eqn:He; simpl; [now rewrite He|exact IH].
Qed.

Lemma fromFirstStep_incl (l : list CompositeTestEvent) (e : CompositeTestEvent) :
  In e (fromFirstStep l) -> In e l.
Proof.
  induction l as [|x l IH]; simpl; [tauto|].
  destruct (isStep x); simpl; tauto.
Qed.

Lemma filter_isStep_Step (l : list StepEvent.t) : filter isStep (map Step l) = map Step l.
Proof. induction l; simpl; congruence. Qed.

Lemma filter_isStep_Network (l : list NetworkEvent.t) : filter isStep (map Network l) = [].
Proof. induction l; simpl; congruence. Qed.

Lemma filter_isStep_Navigation (l : list NavigationEvent.t) :
  filter isStep (map Navigation l) = [].
Proof. induction l; simpl; congruence. Qed.

Lemma filter_isStep_retained (store : Store) (startTime : Z) (steps : list TestStep.t) :
  filter isStep (retained store startTime steps)
  = map Step (stepsByTime store startTime steps).
Proof.
  unfold retained. cbv zeta.
  rewrite !filter_app, filter_isStep_Step, filter_isStep_Network,
    filter_isStep_Navigation, app_nil_r.
  reflexivity.
Qed.

Lemma stepsByTime_length (store : Store) (startTime : Z) (steps : list TestStep.t) :
  List.length (stepsByTime store startTime steps) = List.length steps.
Proof. apply mapiFrom_length. Qed.

Lemma index_annotateStep (store : Store) (startTime : Z) (s : TestStep.t) (i : nat) :
  AnnotatedTestStep.index (StepEvent.event (annotateStep store startTime s i)) = i.
Proof.
  unfold annotateStep. now destruct (resolveStep store startTime s) as [[[[? ?] ?] ?] ?].
Qed.

Lemma stepsByTime_indices (store : Store) (startTime : Z) (steps : list TestStep.t) :
  map (fun e => AnnotatedTestStep.index (StepEvent.event e))
      (stepsByTime store startTime steps)
  = seq 0 (List.length steps).
Proof.
  unfold stepsByTime, mapi. generalize 0%nat.
  induction steps as [|s l IH]; intros i; simpl; [reflexivity|].
  now rewrite index_annotateStep, IH.
Qed.

Lemma stepsByTime_NoDup (store : Store) (startTime : Z) (steps : list TestStep.t) :
  NoDup (map Step (stepsByTime store startTime steps)).
Proof.
  apply (NoDup_map_inv
           (fun e => match e with
                     | Step s => AnnotatedTestStep.index (StepEvent.event s)
                     | _ => 0%nat
                     end)).
  rewrite map_map. rewrite stepsByTime_indices. apply seq_NoDup.
Qed.

(** The step events of the sections are those of the sorted list, hence
    those computed from the steps. *)
Lemma steps_of_sections (store : Store) (startTime : Z) (steps : list TestStep.t) :
  Permutation
    (filter isStep (contents (useGetTestSections store startTime steps)))
    (map Step (stepsByTime store startTime steps)).
Proof.
  unfold useGetTestSections, allEvents.
  rewrite (filter_perm isStep (partition_contents _)).
  rewrite filter_isStep_fromFirstStep.
  rewrite (filter_perm isStep (sort_perm compare _)).
  now rewrite filter_isStep_retained.
Qed.

(** * The claims *)

(** C1. Whatever the input, and whatever the hook of a step (a string that
    is neither "beforeEach" nor "afterEach" included), the step events found
    in the three sections together are exactly the events computed from the
    input steps, one for each: as many as there are steps, none twice. *)
Theorem each_step_in_one_section
        (store : Store) (startTime : Z) (steps : list TestStep.t) :
  let out := useGetTestSections store startTime steps in
  Permutation (filter isStep (contents out))
              (map Step (stepsByTime store startTime steps))
  /\ (List.length (filter isStep (beforeEach out))
      + List.length (filter isStep (testBody out))
      + List.length (filter isStep (afterEach out)) = List.length steps)%nat
  /\ NoDup (filter isStep (contents out)).
Proof.
  intros out. pose proof (steps_of_sections store startTime steps) as Hp.
  fold out in Hp. split; [exact Hp|split].
  - apply Permutation_length in Hp.
    rewrite length_map, stepsByTime_length in Hp.
    unfold contents in Hp. rewrite !filter_app, !length_app in Hp. lia.
  - apply (Permutation_NoDup (Permutation_sym Hp)), stepsByTime_NoDup.
Qed.

Lemma In_step_sections (store : Store) (startTime : Z) (steps : list TestStep.t)
      (s : StepEvent.t) :
  In s (stepsByTime store startTime steps) ->
  In (Step s) (contents (useGetTestSections store startTime steps)).
Proof.
  intros Hs.
  assert (H : In (Step s) (filter isStep (contents (useGetTestSections store startTime steps)))).
  { apply (Permutation_in _ (Permutation_sym (steps_of_sections store startTime steps))).
    now apply in_map. }
  apply filter_In in H. tauto.
Qed.

Lemma stepsByTime_nth (store : Store) (startTime : Z) (steps : list TestStep.t)
      (i : nat) (s : TestStep.t) :
  nth_error steps i = Some s ->
  In (annotateStep store startTime s i) (stepsByTime store startTime steps).
Proof.
  intros H. apply (mapiFrom_nth (annotateStep store startTime) _ 0) in H.
  apply nth_error_In in H. exact H.
Qed.

(** On integer times, where the arithmetic of the code is exact, an
    "assert" step is stored as a single instant.  With an error the instant
    is the end: the stored start and end are both the provisional end minus
    one, the start annotation is the end annotation, the duration is 1.
    Without an error the instant is the start: the stored end is the stored
    start, which is the resolved start, the end annotation is the start
    annotation, the duration is 1.  The event so described is the one found
    in the sections. *)
Theorem assert_step_is_an_instant
        (store : Store) (startTime : Z) (steps : list TestStep.t)
        (i : nat) (s : TestStep.t) :
  nth_error steps i = Some s ->
  TestStep.name s = "assert" ->
  let e := annotateStep store startTime s i in
  let ev := StepEvent.event e in
  let an := AnnotatedTestStep.annotations ev in
  In (Step e) (contents (useGetTestSections store startTime steps))
  /\ StepEvent.time e = AnnotatedTestStep.absoluteStartTime ev
  /\ AnnotatedTestStep.duration ev = 1
  /\ match TestStep.error s with
     | Some _ =>
         AnnotatedTestStep.absoluteStartTime ev = AnnotatedTestStep.absoluteEndTime ev
         /\ AnnotatedTestStep.absoluteEndTime ev = provisionalEnd store startTime s - 1
         /\ Annotations.start an = Annotations.end_ an
         /\ Annotations.end_ an = findAnnotation (annotationsEnd store) (TestStep.id s)
     | None =>
         AnnotatedTestStep.absoluteEndTime ev = AnnotatedTestStep.absoluteStartTime ev
         /\ AnnotatedTestStep.absoluteStartTime ev = resolvedStart store startTime s
         /\ Annotations.end_ an = Annotations.start an
         /\ Annotations.start an = findAnnotation (annotationsStart store) (TestStep.id s)
     end.
Proof.
  intros Hi Hname e ev an.
  split; [apply In_step_sections, stepsByTime_nth, Hi|].
  subst an ev e. unfold annotateStep, resolveStep, provisionalEnd, resolvedStart,
    declaredDuration.
  rewrite Hname. simpl String.eqb. cbv iota.
  destruct (TestStep.error s); simpl; repeat split; lia.
Qed.

Lemma assert_step_is_an_instant_witness :
  let store :=
    {| navigationEvents := []; annotationsEnqueue := [];
       annotationsEnd := [mkAnnotation "a1" 40]; annotationsStart := [mkAnnotation "a1" 12];
       summaries := [] |} in
  let s := mkStep "a1" "assert" (Some 7) 3 (Some failure) None in
  let ev := StepEvent.event (annotateStep store 10 s 0) in
  nth_error [s] 0 = Some s
  /\ TestStep.name s = "assert"
  /\ AnnotatedTestStep.absoluteStartTime ev = AnnotatedTestStep.absoluteEndTime ev
  /\ AnnotatedTestStep.absoluteEndTime ev = provisionalEnd store 10 s - 1.
Proof.
  intros store s ev.
  split; [reflexivity|split; [reflexivity|]].
  pose proof (@assert_step_is_an_instant store 10 [s] 0%nat s eq_refl eq_refl) as H.
  cbv zeta in H. change (TestStep.error s) with (Some failure) in H.
  destruct H as (_ & _ & _ & H1 & H2 & _).
  split; [exact H1|exact H2].
Defined.

(** The times [annotateStep] stores are those of [stepTimes] on [Z]. *)
Lemma annotateStep_stepTimes (store : Store) (startTime : Z) (s : TestStep.t) (i : nat) :
  let ev := StepEvent.event (annotateStep store startTime s i) in
  (AnnotatedTestStep.absoluteStartTime ev, AnnotatedTestStep.absoluteEndTime ev,
   AnnotatedTestStep.duration ev)
  = stepTimes integers
      (option_map Annotation.time (findAnnotation (annotationsStart store) (TestStep.id s)))
      (option_map Annotation.time (findAnnotation (annotationsEnd store) (TestStep.id s)))
      startTime (TestStep.relativeStartTime s) (TestStep.duration s)
      (String.eqb (TestStep.name s) "assert")
      (match TestStep.error s with Some _ => true | None => false end).
Proof.
  unfold annotateStep, resolveStep, stepTimes. cbv zeta.
  destruct (findAnnotation (annotationsStart store) (TestStep.id s));
    destruct (findAnnotation (annotationsEnd store) (TestStep.id s));
    destruct (String.eqb (TestStep.name s) "assert");
    destruct (TestStep.error s); reflexivity.
Qed.

(** In any arithmetic an "assert" with an error is stored with its end as
    its start, the two being one expression, and an "assert" without error
    with the end [(start + 1) - 1]: an instant where adding one and
    subtracting it again gives back the start. *)
Lemma assert_times_on_any_arithmetic {num : Type} (A : Arith.t num)
      (startAnnotation endAnnotation : option num) (startTime relativeStartTime : num)
      (declared : option num) (hasError : bool) :
  let '(absoluteStartTime, absoluteEndTime, duration) :=
    stepTimes A startAnnotation endAnnotation startTime relativeStartTime declared
              true hasError in
  duration = Arith.one A
  /\ if hasError then absoluteStartTime = absoluteEndTime
     else absoluteEndTime
          = Arith.sub A (Arith.add A absoluteStartTime (Arith.one A)) (Arith.one A).
Proof.
  unfold stepTimes. destruct hasError; split; reflexivity.
Qed.

(** C3.  The code misses what the claim says for an "assert" without error
    when the times are no integers.  For a test case that starts at 2047.3
    and an "assert" step at relative time 0, without error, duration or
    annotations, the stored [absoluteStartTime] is 2047.3 and the stored
    [absoluteEndTime] is (2047.3 + 1) - 1, which binary64 arithmetic rounds
    to 2047.3000000000002: the end is after the start, not equal to it.  The
    same step with an error is stored with equal start and end. *)
Lemma passing_assert_end_is_rounded :
  let '(absoluteStartTime, absoluteEndTime, duration) :=
    stepTimes Binary64.arith None None Binary64.t2047_3 Binary64.zero None true false in
  let '(failedStart, failedEnd, _) :=
    stepTimes Binary64.arith None None Binary64.t2047_3 Binary64.zero None true true in
  PrimFloat.eqb absoluteStartTime Binary64.t2047_3 = true
  /\ PrimFloat.eqb absoluteEndTime Binary64.t2047_3000000000002 = true
  /\ PrimFloat.eqb absoluteEndTime absoluteStartTime = false
  /\ PrimFloat.ltb absoluteStartTime absoluteEndTime = true
  /\ PrimFloat.eqb failedEnd failedStart = true.
Proof. vm_compute. repeat split. Qed.

(** ** The window *)

Lemma times_fold (l done : list StepEvent.t) (acc : Times.t) :
  isMinimum done (Times.min acc) -> isMaximum done (Times.max acc) ->
  isMinimum (done ++ l) (Times.min (fold_left timesStep l acc))
  /\ isMaximum (done ++ l) (Times.max (fold_left timesStep l acc)).
Proof.
  revert done acc. induction l as [|s l IH]; intros done acc Hmin Hmax; simpl.
  - now rewrite app_nil_r.
  - replace (done ++ s :: l) with ((done ++ [s]) ++ l) by now rewrite <- app_assoc.
    apply IH; clear IH.
    + unfold timesStep; simpl. destruct (Times.min acc) as [m|]; simpl in *.
      * destruct Hmin as [(w & Hw & Hwm) Hall]. split.
        -- destruct (Z.min_spec m (startOf s)) as [[_ ->]|[_ ->]].
           ++ exists w. split; [apply in_or_app; now left|exact Hwm].
           ++ exists s. split; [apply in_or_app; right; now left|reflexivity].
        -- intros x Hx. apply in_app_or in Hx. destruct Hx as [Hx|[<-|[]]].
           ++ specialize (Hall x Hx). lia.
           ++ lia.
      * subst done. simpl. split.
        -- exists s. split; [now left|reflexivity].
        -- intros x [<-|[]]. lia.
    + unfold timesStep; simpl. destruct Hmax as (H0 & Hw & Hall). repeat split.
      * lia.
      * destruct (Z.max_spec (Times.max acc) (storedEndOf s)) as [[_ ->]|[_ ->]].
        -- right. exists s. split; [apply in_or_app; right; now left|reflexivity].
        -- destruct Hw as [Hw|(w & Hw & Hwm)]; [now left|right].
           exists w. split; [apply in_or_app; now left|exact Hwm].
      * intros x Hx. apply in_app_or in Hx. destruct Hx as [Hx|[<-|[]]].
        -- specialize (Hall x Hx). lia.
        -- lia.
Qed.

Lemma times_spec (sbt : list StepEvent.t) :
  isMinimum sbt (Times.min (times sbt)) /\ isMaximum sbt (Times.max (times sbt)).
Proof.
  apply (@times_fold sbt [] {| Times.min := Infinity; Times.max := 0 |}).
  - reflexivity.
  - unfold isMaximum; simpl. split; [lia|split; [now left|intros s []]].
Qed.

Lemma isDuringSteps_spec (tm : Times.t) (t : Z) :
  isDuringSteps tm t = true
  <-> (exists m, Times.min tm = Fin m /\ m <= t) /\ t < Times.max tm.
Proof.
  unfold isDuringSteps. rewrite andb_true_iff, Z.ltb_lt.
  destruct (Times.min tm) as [m|]; simpl.
  - rewrite Z.leb_le. split.
    + intros [H1 H2]. split; [now exists m|exact H2].
    + intros [(m' & [= <-] & H1) H2]. now split.
  - split; [intros [? _]; discriminate|intros [(m & ? & _) _]; discriminate].
Qed.

Lemma filter_none {A : Type} (f : A -> bool) (l : list A) :
  (forall x, f x = false) -> filter f l = [].
Proof.
  intros Hf. induction l as [|x l IH]; simpl; [reflexivity|now rewrite Hf].
Qed.

Lemma no_steps_no_sections (store : Store) (startTime : Z) :
  useGetTestSections store startTime []
  = {| beforeEach := []; testBody := []; afterEach := [] |}.
Proof.
  unfold useGetTestSections, allEvents, retained, networkDataByTime,
    navigationEventsByTime.
  cbv zeta. change (stepsByTime store startTime []) with (@nil StepEvent.t).
  rewrite !filter_none; [reflexivity| |].
  - intros x. reflexivity.
  - intros x. unfold keepSummary. destruct (RequestSummary.end_ x); simpl;
      now rewrite ?andb_false_r.
Qed.

(** C4, as the code has it.  The window runs from the least stored
    [absoluteStartTime] of the steps to the greatest stored [absoluteEndTime]
    (the end after one was subtracted), or to 0 when that is greater.  A time
    is in the window when it is at least the minimum and strictly below the
    maximum.  Without steps the minimum stays [Infinity], the maximum 0, no
    time is in the window and the three sections are empty, whatever the
    network and navigation input. *)
Theorem window_of_the_steps (store : Store) (startTime : Z) (steps : list TestStep.t) :
  let sbt := stepsByTime store startTime steps in
  let tm := times sbt in
  isMinimum sbt (Times.min tm)
  /\ isMaximum sbt (Times.max tm)
  /\ (forall t, isDuringSteps tm t = true
                <-> (exists m, Times.min tm = Fin m /\ m <= t) /\ t < Times.max tm)
  /\ times (stepsByTime store startTime []) = {| Times.min := Infinity; Times.max := 0 |}
  /\ (forall t, isDuringSteps (times (stepsByTime store startTime [])) t = false)
  /\ useGetTestSections store startTime []
     = {| beforeEach := []; testBody := []; afterEach := [] |}.
Proof.
  intros sbt tm. destruct (times_spec sbt) as [Hmin Hmax].
  split; [exact Hmin|]. split; [exact Hmax|].
  split; [intros t; apply isDuringSteps_spec|].
  split; [reflexivity|]. split; [reflexivity|].
  apply no_steps_no_sections.
Qed.

(** C4 does not hold as stated: for one step of duration 5 starting at 100
    the end before normalization is 105 but the window ends at 104, so that
    104, which is at least 100 and below 105, is not in the window. *)
Lemma window_max_is_the_stored_end :
  let store := networkOnly [] in
  let s := mkStep "s1" "get" (Some 5) 0 None None in
  let tm := times (stepsByTime store 100 [s]) in
  endBeforeNormalization store 100 s = 105
  /\ Times.min tm = Fin 100
  /\ Times.max tm = 104
  /\ Times.max tm <> endBeforeNormalization store 100 s
  /\ isDuringSteps tm 104 = false.
Proof. cbv zeta. repeat split. discriminate. Qed.

(** ** What reaches the sections *)

Lemma fromFirstStep_split (l : list CompositeTestEvent) :
  exists dropped, l = dropped ++ fromFirstStep l /\ forallb nonStep dropped = true.
Proof.
  induction l as [|e l (d & Hd & Hn)]; simpl.
  - now exists [].
  - destruct (isStep e) eqn:He.
    + now exists [].
    + exists (e :: d). simpl. unfold nonStep at 1. rewrite He, Hn.
      split; [now rewrite <- Hd|reflexivity].
Qed.

Lemma fromFirstStep_nonSteps (l rest : list CompositeTestEvent) :
  forallb nonStep l = true -> fromFirstStep (l ++ rest) = fromFirstStep rest.
Proof.
  induction l as [|e l IH]; simpl; [reflexivity|].
  unfold nonStep at 1. destruct (isStep e); simpl; [discriminate|exact IH].
Qed.

Lemma fromFirstStep_with_step (l rest : list CompositeTestEvent) :
  forallb nonStep l = false -> fromFirstStep (l ++ rest) = fromFirstStep l ++ rest.
Proof.
  induction l as [|e l IH]; simpl; [discriminate|].
  unfold nonStep at 1. destruct (isStep e); simpl; [reflexivity|exact IH].
Qed.

Lemma fromFirstStep_nil (l : list CompositeTestEvent) :
  fromFirstStep l = [] <-> forallb nonStep l = true.
Proof.
  induction l as [|e l IH]; simpl; [tauto|].
  unfold nonStep at 1. destruct (isStep e); simpl; [|exact IH].
  split; discriminate.
Qed.

Lemma runLoop_nonSteps (l rest : list CompositeTestEvent) :
  forallb nonStep l = true -> runLoop (l ++ rest) = runLoop rest.
Proof.
  unfold runLoop. induction l as [|e l IH]; simpl; [reflexivity|].
  unfold nonStep at 1. destruct e; simpl; try discriminate; exact IH.
Qed.

Lemma runLoop_active (l : list CompositeTestEvent) :
  forallb nonStep l = false -> active (runLoop l).
Proof.
  intros Hl. destruct (runLoop_held l) as [[H0 _]|[_ Ha]]; [|exact Ha].
  apply fromFirstStep_nil in H0. congruence.
Qed.

Lemma runLoop_snoc (l : list CompositeTestEvent) (e : CompositeTestEvent) :
  runLoop (l ++ [e]) = loopBody (runLoop l) e.
Proof. unfold runLoop. now rewrite fold_left_app. Qed.

Lemma In_sections_retained (store : Store) (startTime : Z) (steps : list TestStep.t)
      (e : CompositeTestEvent) :
  In e (contents (useGetTestSections store startTime steps)) ->
  In e (retained store startTime steps).
Proof.
  intros H. unfold useGetTestSections in H.
  apply (Permutation_in _ (partition_contents _)) in H.
  apply fromFirstStep_incl in H. unfold allEvents in H.
  now apply sort_In in H.
Qed.

Lemma In_filterMap {A B : Type} (f : A -> option B) (l : list A) (y : B) :
  In y (filterMap f l) -> exists x, In x l /\ f x = Some y.
Proof.
  induction l as [|x l IH]; simpl; [tauto|].
  destruct (f x) as [z|] eqn:Hz.
  - intros [<-|H]; [exists x; tauto|].
    destruct (IH H) as (w & Hw & Hf). exists w. tauto.
  - intros H. destruct (IH H) as (w & Hw & Hf). exists w. tauto.
Qed.

Lemma isLit_true (lit : string) (x : option string) : isLit lit x = true -> x = Some lit.
Proof.
  destruct x as [s|]; simpl; [|discriminate].
  intros H. apply String.eqb_eq in H. now subst.
Qed.

(** C5, as the code has it.  The three sections together hold, each once,
    the events of the sorted list from its first step on; what precedes the
    first step is only network and navigation events, and those are in no
    section.  So every step event is in exactly one section, every other
    retained event in at most one, and when the retained events are pairwise
    distinct no event occurs twice in the sections: they are pairwise
    disjoint. *)
Theorem sections_hold_events_from_first_step
        (store : Store) (startTime : Z) (steps : list TestStep.t) :
  let out := useGetTestSections store startTime steps in
  let all := allEvents store startTime steps in
  Permutation all (retained store startTime steps)
  /\ Permutation (contents out) (fromFirstStep all)
  /\ (exists dropped, all = dropped ++ fromFirstStep all
                      /\ forallb nonStep dropped = true)
  /\ (forall s, In s (stepsByTime store startTime steps) -> In (Step s) (contents out))
  /\ NoDup (filter isStep (contents out))
  /\ (NoDup (retained store startTime steps) -> NoDup (contents out)).
Proof.
  intros out all.
  assert (Hall : Permutation all (retained store startTime steps))
    by apply sort_perm.
  assert (Hout : Permutation (contents out) (fromFirstStep all))
    by apply partition_contents.
  split; [exact Hall|]. split; [exact Hout|].
  split; [apply fromFirstStep_split|].
  split; [intros s; apply In_step_sections|].
  split.
  - apply (Permutation_NoDup (Permutation_sym (steps_of_sections store startTime steps))),
      stepsByTime_NoDup.
  - intros Hnd. apply (Permutation_NoDup (Permutation_sym Hout)).
    apply (Permutation_NoDup (Permutation_sym Hall)) in Hnd.
    destruct (fromFirstStep_split all) as (d & Hd & _).
    rewrite Hd in Hnd. apply NoDup_app_remove_l in Hnd. exact Hnd.
Qed.

Lemma sections_hold_events_from_first_step_witness :
  let store := networkOnly [mkSummary "n1" (Some "xhr") (Some 5)] in
  let steps := [mkStep "s1" "get" (Some 10) 0 None (Some "beforeEach")] in
  NoDup (retained store 0 steps)
  /\ NoDup (contents (useGetTestSections store 0 steps)).
Proof.
  intros store steps.
  assert (Hnd : NoDup (retained store 0 steps)).
  { vm_compute. repeat constructor; simpl; intros H;
      repeat (destruct H as [H|H]; [discriminate|]); exact H. }
  split; [exact Hnd|].
  exact (proj2 (proj2 (proj2 (proj2 (proj2
           (sections_hold_events_from_first_step store 0 steps))))) Hnd).
Defined.

(** C5 does not hold as stated: a request that ends at the very start of
    the only step passes the cause and window filters, sorts before the step
    (equal times keep the order network, step) and is in no section. *)
Lemma retained_event_in_no_section :
  let r := mkSummary "n1" (Some "fetch") (Some 0) in
  let store := networkOnly [r] in
  let steps := [mkStep "s1" "get" (Some 5) 0 None None] in
  let n := Network {| NetworkEvent.time := 0; NetworkEvent.event := r |} in
  keepSummary (times (stepsByTime store 0 steps)) r = true
  /\ In n (retained store 0 steps)
  /\ ~ In n (contents (useGetTestSections store 0 steps)).
Proof.
  cbv zeta. split; [reflexivity|]. split; [now left|].
  vm_compute. intros [H|[]]. discriminate.
Qed.

(** C6. While the loop has seen no step the current array is empty, and a
    network or navigation event met then is lost: the loop state does not
    change and the sections are those of the list without it.  Once a step
    was seen the current array is never empty again, and such an event is
    appended to the pending events; it is then found in a section. *)
Theorem event_before_first_step_is_lost
        (l : list CompositeTestEvent) (e : CompositeTestEvent) :
  nonStep e = true ->
  let st := runLoop l in
  (stackOf st (currentStack st) = [] <-> forallb nonStep l = true)
  /\ (forallb nonStep l = true ->
      st = initial
      /\ runLoop (l ++ [e]) = st
      /\ forall rest, partition (l ++ e :: rest) = partition rest)
  /\ (forallb nonStep l = false ->
      runLoop (l ++ [e]) = setNonStep st (nonStepStack st ++ [e])
      /\ forall rest, In e (contents (partition (l ++ e :: rest)))).
Proof.
  intros He st. split; [|split].
  - split.
    + intros Hempty. destruct (forallb nonStep l) eqn:Hl; [reflexivity|].
      apply runLoop_active in Hl. now elim Hl.
    + intros Hl. subst st.
      rewrite <- (app_nil_r l), (runLoop_nonSteps _ [] Hl). reflexivity.
  - intros Hl.
    assert (Hi : st = initial).
    { subst st. rewrite <- (app_nil_r l), (runLoop_nonSteps _ [] Hl). reflexivity. }
    split; [exact Hi|]. split.
    + rewrite runLoop_snoc. fold st. rewrite Hi.
      now apply loopBody_nonStep_empty.
    + intros rest. unfold partition. f_equal.
      change (l ++ e :: rest) with (l ++ [e] ++ rest).
      rewrite app_assoc. apply runLoop_nonSteps.
      rewrite forallb_app, Hl. simpl. now rewrite He.
  - intros Hl. split.
    + rewrite runLoop_snoc. apply loopBody_nonStep_active; [exact He|].
      now apply runLoop_active.
    + intros rest.
      apply (Permutation_in _ (Permutation_sym (partition_contents _))).
      rewrite (fromFirstStep_with_step l (e :: rest) Hl). apply in_or_app. right. now left.
Qed.

Lemma event_before_first_step_is_lost_witness :
  let n := Network {| NetworkEvent.time := 0;
                      NetworkEvent.event := mkSummary "n1" (Some "xhr") (Some 0) |} in
  nonStep n = true
  /\ forallb nonStep [n] = true
  /\ runLoop ([n] ++ [n]) = runLoop [n].
Proof.
  intros n. split; [reflexivity|]. split; [reflexivity|].
  exact (proj1 (proj2 (proj1 (proj2
           (@event_before_first_step_is_lost [n] n eq_refl)) eq_refl))).
Defined.

(** C7. A network event found in a section comes from a summary of the
    store whose cause is "xhr" or "fetch" and whose end time is defined, is
    the time of the event and is in the window.  A summary without end time
    therefore gives no event, and is no failure: the function is total. *)
Theorem network_event_passed_the_filter
        (store : Store) (startTime : Z) (steps : list TestStep.t)
        (n : NetworkEvent.t) :
  In (Network n) (contents (useGetTestSections store startTime steps)) ->
  let r := NetworkEvent.event n in
  let tm := times (stepsByTime store startTime steps) in
  In r (summaries store)
  /\ (RequestSummary.cause r = Some "xhr" \/ RequestSummary.cause r = Some "fetch")
  /\ RequestSummary.end_ r = Some (NetworkEvent.time n)
  /\ isDuringSteps tm (NetworkEvent.time n) = true
  /\ RequestSummary.end_ r <> None.
Proof.
  intros Hin r tm. apply In_sections_retained in Hin.
  unfold retained in Hin. cbv zeta in Hin. fold tm in Hin.
  apply in_app_or in Hin. destruct Hin as [Hin|Hin].
  - apply in_map_iff in Hin. destruct Hin as (n' & [= ->] & Hn).
    unfold networkDataByTime in Hn. apply In_filterMap in Hn.
    destruct Hn as (x & Hx & Hto). apply filter_In in Hx.
    destruct Hx as [Hx Hkeep]. unfold toNetworkEvent in Hto.
    unfold keepSummary in Hkeep.
    destruct (RequestSummary.end_ x) as [t|] eqn:Hend; [|discriminate].
    injection Hto as <-. subst r. simpl. rewrite Hend.
    apply andb_true_iff in Hkeep. destruct Hkeep as [Hcause Hwin].
    apply orb_true_iff in Hcause.
    repeat split; try assumption; try discriminate.
    destruct Hcause as [H|H]; apply isLit_true in H; tauto.
  - apply in_app_or in Hin. destruct Hin as [Hin|Hin];
      apply in_map_iff in Hin; destruct Hin as (? & [=] & _).
Qed.

Lemma network_event_passed_the_filter_witness :
  let r := mkSummary "n1" (Some "xhr") (Some 5) in
  let store := networkOnly [r] in
  let steps := [mkStep "s1" "get" (Some 10) 0 None (Some "beforeEach")] in
  let n := {| NetworkEvent.time := 5; NetworkEvent.event := r |} in
  In (Network n) (contents (useGetTestSections store 0 steps))
  /\ isDuringSteps (times (stepsByTime store 0 steps)) 5 = true.
Proof.
  intros r store steps n.
  assert (Hin : In (Network n) (contents (useGetTestSections store 0 steps))).
  { vm_compute. right. now left. }
  split; [exact Hin|].
  exact (proj1 (proj2 (proj2 (proj2
           (network_event_passed_the_filter store 0 steps n Hin))))).
Defined.

(** ** After the loop *)

Lemma pending_needs_step (l : list CompositeTestEvent) :
  nonStepStack (runLoop l) <> [] -> buckets (runLoop l) <> [].
Proof.
  intros Hp. destruct (runLoop_held l) as [[_ Hi]|[_ Ha]].
  - rewrite Hi in Hp. now elim Hp.
  - now apply active_buckets.
Qed.

Lemma length_zero_nil {A : Type} (l : list A) : (List.length l =? 0)%nat = true <-> l = [].
Proof.
  destruct l; simpl; split; intros; try reflexivity; discriminate.
Qed.

(** C8. The events still pending after the loop are appended, in their
    order, to [afterEach] when it is not empty, else to [testBody] when it is
    not empty, else to [beforeEach].  The last case is the one of a trailing
    event after steps that are all in [beforeEach]; some array is never empty
    there, so that pending events are never lost at this point. *)
Theorem pending_events_go_to_last_section (l : list CompositeTestEvent) :
  let st := runLoop l in
  let p := nonStepStack st in
  let out := partition l in
  (p = [] -> out = sectionsOf st)
  /\ (p <> [] -> st_afterEach st <> [] ->
      out = {| beforeEach := st_beforeEach st; testBody := st_testBody st;
               afterEach := st_afterEach st ++ p |})
  /\ (p <> [] -> st_afterEach st = [] -> st_testBody st <> [] ->
      out = {| beforeEach := st_beforeEach st; testBody := st_testBody st ++ p;
               afterEach := [] |})
  /\ (p <> [] -> st_afterEach st = [] -> st_testBody st = [] ->
      st_beforeEach st <> []
      /\ out = {| beforeEach := st_beforeEach st ++ p; testBody := [];
                  afterEach := [] |}).
Proof.
  intros st p out. subst out. unfold partition, finish. fold st. fold p.
  assert (Hsome : p <> [] -> st_afterEach st = [] -> st_testBody st = [] ->
                  st_beforeEach st <> []).
  { intros Hp Ha Ht. pose proof (pending_needs_step l Hp) as Hb.
    fold st in Hb. unfold buckets in Hb. rewrite Ha, Ht in Hb.
    now rewrite !app_nil_r in Hb. }
  split; [|split; [|split]].
  - intros ->. reflexivity.
  - intros Hp Ha. destruct p; [now elim Hp|]. simpl.
    destruct (st_afterEach st); [now elim Ha|]. reflexivity.
  - intros Hp Ha Ht. destruct p; [now elim Hp|]. simpl. rewrite Ha. simpl.
    destruct (st_testBody st); [now elim Ht|]. reflexivity.
  - intros Hp Ha Ht. specialize (Hsome Hp Ha Ht). split; [exact Hsome|].
    destruct p; [now elim Hp|]. simpl. rewrite Ha, Ht. simpl.
    destruct (st_beforeEach st); [now elim Hsome|]. reflexivity.
Qed.

(** Scenario D: a step in [beforeEach] that lasts 10, and a request that
    ends at 5 while it runs. *)
Lemma pending_events_go_to_last_section_witness :
  let r := mkSummary "n1" (Some "xhr") (Some 5) in
  let store := networkOnly [r] in
  let steps := [mkStep "s1" "get" (Some 10) 0 None (Some "beforeEach")] in
  let l := allEvents store 0 steps in
  let n := Network {| NetworkEvent.time := 5; NetworkEvent.event := r |} in
  nonStepStack (runLoop l) = [n]
  /\ st_afterEach (runLoop l) = []
  /\ st_testBody (runLoop l) = []
  /\ useGetTestSections store 0 steps
     = {| beforeEach := [Step (annotateStep store 0 (mkStep "s1" "get" (Some 10) 0 None (Some "beforeEach")) 0); n];
          testBody := []; afterEach := [] |}.
Proof.
  intros r store steps l n.
  split; [reflexivity|]. split; [reflexivity|]. split; [reflexivity|].
  assert (Hp : nonStepStack (runLoop l) <> []) by (vm_compute; discriminate).
  exact (proj2 (proj2 (proj2 (proj2 (pending_events_go_to_last_section l)))
                 Hp eq_refl eq_refl)).
Defined.

(** ** Where a step goes *)

Lemma target_routed (cur : Stack) (s : StepEvent.t) :
  routedTo (snd (target cur (AnnotatedTestStep.hook (StepEvent.event s)))) (Step s) = true.
Proof.
  unfold routedTo, target.
  destruct (isLit "beforeEach" _); [reflexivity|].
  destruct (isLit "afterEach" _); [reflexivity|].
  destruct (truthy _); simpl; [now destruct cur|reflexivity].
Qed.

Lemma push_routed (st : State) (l : list CompositeTestEvent) :
  routed st -> Forall (fun e => routedTo (currentStack st) e = true) l ->
  routed (push st l).
Proof.
  unfold routed, push. intros Hst Hl k.
  pose proof (Hst BeforeEach). pose proof (Hst TestBody). pose proof (Hst AfterEach).
  destruct (currentStack st), k; simpl in *; try assumption;
    apply Forall_app; now split.
Qed.

Lemma nonStep_routed (k : Stack) (l : list CompositeTestEvent) :
  Forall (fun e => nonStep e = true) l -> Forall (fun e => routedTo k e = true) l.
Proof.
  apply Forall_impl. intros [s|n|n]; simpl; [discriminate|reflexivity|reflexivity].
Qed.

Lemma flush_loopInv (st : State) : loopInv st -> loopInv (flush st).
Proof.
  intros [Hr Hp]. split.
  - unfold flush. intros k.
    apply (push_routed st (nonStepStack st) Hr (nonStep_routed _ _ Hp) k).
  - constructor.
Qed.

Lemma loopBody_loopInv (st : State) (e : CompositeTestEvent) :
  loopInv st -> loopInv (loopBody st e).
Proof.
  intros [Hr Hp]. destruct e as [s|n|n]; simpl.
  - pose proof (target_routed (currentStack st) s) as Ht.
    destruct (target (currentStack st) (AnnotatedTestStep.hook (StepEvent.event s)))
      as [changed cur]. simpl in Ht.
    apply flush_loopInv.
    assert (H1 : loopInv (setCurrent st cur)) by (split; assumption).
    assert (H2 : loopInv (if negb changed then flush (setCurrent st cur)
                          else setCurrent st cur)).
    { destruct changed; simpl; [exact H1|now apply flush_loopInv]. }
    assert (Hc : currentStack (if negb changed then flush (setCurrent st cur)
                               else setCurrent st cur) = cur).
    { destruct changed; simpl; [reflexivity|]. unfold flush. simpl.
      now rewrite currentStack_push. }
    destruct H2 as [Hr2 Hp2]. split.
    + apply push_routed; [exact Hr2|]. rewrite Hc. now constructor.
    + now rewrite nonStepStack_push.
  - destruct (List.length (stackOf st (currentStack st)) =? 0)%nat; [now split|].
    split; [exact Hr|]. simpl. apply Forall_app. split; [exact Hp|now constructor].
  - destruct (List.length (stackOf st (currentStack st)) =? 0)%nat; [now split|].
    split; [exact Hr|]. simpl. apply Forall_app. split; [exact Hp|now constructor].
Qed.

Lemma runLoop_loopInv (l : list CompositeTestEvent) : loopInv (runLoop l).
Proof.
  unfold runLoop.
  assert (H0 : loopInv initial).
  { split; [intros []; constructor|constructor]. }
  revert H0. generalize initial. induction l as [|e l IH]; intros st Hst; simpl.
  - exact Hst.
  - now apply IH, loopBody_loopInv.
Qed.

Lemma partition_routed (l : list CompositeTestEvent) :
  Forall (fun e => routedTo BeforeEach e = true) (beforeEach (partition l))
  /\ Forall (fun e => routedTo TestBody e = true) (testBody (partition l))
  /\ Forall (fun e => routedTo AfterEach e = true) (afterEach (partition l)).
Proof.
  destruct (runLoop_loopInv l) as [Hr Hp]. unfold partition, finish.
  pose proof (Hr BeforeEach) as Hb. pose proof (Hr TestBody) as Ht.
  pose proof (Hr AfterEach) as Ha. simpl in Hb, Ht, Ha.
  pose proof (nonStep_routed BeforeEach _ Hp). pose proof (nonStep_routed TestBody _ Hp).
  pose proof (nonStep_routed AfterEach _ Hp).
  destruct (negb (List.length (nonStepStack (runLoop l)) =? 0)%nat); simpl;
    [|tauto].
  destruct (negb (List.length (st_afterEach (runLoop l)) =? 0)%nat); simpl.
  { repeat split; try assumption. apply Forall_app. now split. }
  destruct (negb (List.length (st_testBody (runLoop l)) =? 0)%nat); simpl.
  { repeat split; try assumption. apply Forall_app. now split. }
  destruct (negb (List.length (st_beforeEach (runLoop l)) =? 0)%nat); simpl;
    [|tauto].
  repeat split; try assumption. apply Forall_app. now split.
Qed.

(** A step is in the section of its hook, whatever the order of the sort:
    "beforeEach" and "afterEach" name their sections, a hook that is absent
    or empty the test body. *)
Lemma step_in_section_of_hook (store : Store) (startTime : Z) (steps : list TestStep.t)
      (s : StepEvent.t) :
  In s (stepsByTime store startTime steps) ->
  let out := useGetTestSections store startTime steps in
  let h := AnnotatedTestStep.hook (StepEvent.event s) in
  (h = Some "beforeEach" -> In (Step s) (beforeEach out))
  /\ (h = Some "afterEach" -> In (Step s) (afterEach out))
  /\ (truthy h = false -> In (Step s) (testBody out)).
Proof.
  intros Hs out h. apply In_step_sections in Hs. fold out in Hs.
  destruct (partition_routed (allEvents store startTime steps)) as (Hb & Ht & Ha).
  fold (useGetTestSections store startTime steps) in Hb, Ht, Ha. fold out in Hb, Ht, Ha.
  rewrite Forall_forall in Hb, Ht, Ha.
  unfold contents in Hs. apply in_app_or in Hs.
  destruct Hs as [Hs|Hs]; [|apply in_app_or in Hs; destruct Hs as [Hs|Hs]].
  - specialize (Hb _ Hs). simpl in Hb. fold h in Hb. unfold target in Hb.
    repeat split; intros Hh; try assumption.
    + rewrite Hh in Hb. discriminate.
    + destruct (isLit "beforeEach" h) eqn:E1; [apply isLit_true in E1; rewrite E1 in Hh; discriminate|].
      destruct (isLit "afterEach" h) eqn:E2; [discriminate|].
      rewrite Hh in Hb. discriminate.
  - specialize (Ht _ Hs). simpl in Ht. fold h in Ht. unfold target in Ht.
    repeat split; intros Hh; try assumption.
    + rewrite Hh in Ht. discriminate.
    + rewrite Hh in Ht. discriminate.
  - specialize (Ha _ Hs). simpl in Ha. fold h in Ha. unfold target in Ha.
    repeat split; intros Hh; try assumption.
    + rewrite Hh in Ha. discriminate.
    + destruct (isLit "beforeEach" h) eqn:E1; [discriminate|].
      destruct (isLit "afterEach" h) eqn:E2; [apply isLit_true in E2; rewrite E2 in Hh; discriminate|].
      rewrite Hh in Ha. discriminate.
Qed.

Lemma isLit_other (lit : string) (x : option string) : x <> Some lit -> isLit lit x = false.
Proof.
  intros Hx. destruct (isLit lit x) eqn:E; [|reflexivity].
  now apply isLit_true in E.
Qed.

Lemma strictEq_true (x y : option string) : strictEq x y = true -> x = y.
Proof.
  destruct x as [a|], y as [b|]; simpl; try discriminate; try reflexivity.
  intros H. apply String.eqb_eq in H. now subst.
Qed.

(** Called on two steps, the comparator answers -1 when the first has
    the hook "beforeEach" and the second has not, and 1 when the first has
    the hook "afterEach" and the second has not.  For two steps, the first
    with the hook "beforeEach" at relative time 0 and the second without hook
    at relative time 10, a test case that starts at 0 and no annotations, the
    first step is in [beforeEach] and the second in [testBody]. *)
Theorem hook_orders_and_routes_steps
        (a b : StepEvent.t) (s1 s2 : TestStep.t) (ns : list RequestSummary.t) :
  TestStep.hook s1 = Some "beforeEach" -> TestStep.relativeStartTime s1 = 0 ->
  TestStep.hook s2 = None -> TestStep.relativeStartTime s2 = 10 ->
  let ha := AnnotatedTestStep.hook (StepEvent.event a) in
  let hb := AnnotatedTestStep.hook (StepEvent.event b) in
  let store := networkOnly ns in
  let out := useGetTestSections store 0 [s1; s2] in
  (ha = Some "beforeEach" -> hb <> Some "beforeEach" -> compare (Step a) (Step b) = -1)
  /\ (ha = Some "afterEach" -> hb <> Some "afterEach" -> compare (Step a) (Step b) = 1)
  /\ In (Step (annotateStep store 0 s1 0)) (beforeEach out)
  /\ In (Step (annotateStep store 0 s2 1)) (testBody out)
  /\ compare (Step (annotateStep store 0 s1 0)) (Step (annotateStep store 0 s2 1)) = -1.
Proof.
  intros H1 _ H2 _ ha hb store out.
  assert (Hcmp : ha = Some "beforeEach" -> hb <> Some "beforeEach" ->
                 compare (Step a) (Step b) = -1).
  { intros Ha Hb. unfold compare. fold ha hb.
    destruct (strictEq ha hb) eqn:E.
    - apply strictEq_true in E. congruence.
    - simpl. rewrite Ha at 1. simpl. now rewrite (isLit_other _ _ Hb). }
  split; [exact Hcmp|]. split.
  - intros Ha Hb. unfold compare. fold ha hb.
    destruct (strictEq ha hb) eqn:E.
    + apply strictEq_true in E. congruence.
    + simpl. rewrite (isLit_other "afterEach" hb Hb). rewrite Ha. reflexivity.
  - assert (Hh1 : AnnotatedTestStep.hook (StepEvent.event (annotateStep store 0 s1 0))
                  = Some "beforeEach").
    { unfold annotateStep.
      destruct (resolveStep store 0 s1) as [[[[? ?] ?] ?] ?]. exact H1. }
    assert (Hh2 : AnnotatedTestStep.hook (StepEvent.event (annotateStep store 0 s2 1))
                  = None).
    { unfold annotateStep.
      destruct (resolveStep store 0 s2) as [[[[? ?] ?] ?] ?]. exact H2. }
    split; [|split].
    + apply (step_in_section_of_hook store 0 [s1; s2]); [now left|exact Hh1].
    + apply (step_in_section_of_hook store 0 [s1; s2]); [right; now left|].
      now rewrite Hh2.
    + unfold compare. rewrite Hh1, Hh2. reflexivity.
Qed.

(** Scenario B with two "get" steps. *)
Lemma hook_orders_and_routes_steps_witness :
  let s1 := mkStep "s1" "get" None 0 None (Some "beforeEach") in
  let s2 := mkStep "s2" "get" None 10 None None in
  let store := networkOnly [] in
  useGetTestSections store 0 [s1; s2]
  = {| beforeEach := [Step (annotateStep store 0 s1 0)];
       testBody := [Step (annotateStep store 0 s2 1)];
       afterEach := [] |}
  /\ In (Step (annotateStep store 0 s1 0))
        (beforeEach (useGetTestSections store 0 [s1; s2]))
  /\ In (Step (annotateStep store 0 s2 1))
        (testBody (useGetTestSections store 0 [s1; s2])).
Proof.
  intros s1 s2 store. split; [reflexivity|].
  pose proof (hook_orders_and_routes_steps
                (annotateStep store 0 s1 0) (annotateStep store 0 s2 1)
                s1 s2 [] eq_refl eq_refl eq_refl eq_refl) as H.
  exact (conj (proj1 (proj2 (proj2 H))) (proj1 (proj2 (proj2 (proj2 H))))).
Defined.

(** ** The enqueue annotations *)

Section Relabel.
Variable f : CompositeTestEvent -> CompositeTestEvent.
Hypothesis f_step :
  forall s, exists s', f (Step s) = Step s'
    /\ AnnotatedTestStep.hook (StepEvent.event s') = AnnotatedTestStep.hook (StepEvent.event s).
Hypothesis f_network : forall n, f (Network n) = Network n.
Hypothesis f_navigation : forall n, f (Navigation n) = Navigation n.

Lemma push_mapState (st : State) (l : list CompositeTestEvent) :
  push (mapState f st) (map f l) = mapState f (push st l).
Proof.
  unfold push, mapState. simpl. destruct (currentStack st); simpl; now rewrite map_app.
Qed.

Lemma flush_mapState (st : State) : flush (mapState f st) = mapState f (flush st).
Proof.
  unfold flush.
  change (nonStepStack (mapState f st)) with (map f (nonStepStack st)).
  rewrite push_mapState. unfold setNonStep, mapState. simpl.
  now rewrite currentStack_push.
Qed.

Lemma stackOf_mapState (st : State) (k : Stack) :
  stackOf (mapState f st) k = map f (stackOf st k).
Proof. now destruct k. Qed.

Lemma loopBody_mapState (st : State) (e : CompositeTestEvent) :
  loopBody (mapState f st) (f e) = mapState f (loopBody st e).
Proof.
  destruct e as [s|n|n].
  - destruct (f_step s) as (s' & Hs' & Hh). rewrite Hs'. simpl. rewrite Hh.
    destruct (target (currentStack st) (AnnotatedTestStep.hook (StepEvent.event s)))
      as [changed cur].
    change (setCurrent (mapState f st) cur) with (mapState f (setCurrent st cur)).
    rewrite <- Hs'.
    destruct changed; simpl.
    + change [f (Step s)] with (map f [Step s]).
      now rewrite push_mapState, flush_mapState.
    + change [f (Step s)] with (map f [Step s]).
      now rewrite flush_mapState, push_mapState, flush_mapState.
  - rewrite f_network. simpl. rewrite stackOf_mapState, length_map.
    destruct (List.length (stackOf st (currentStack st)) =? 0)%nat; [reflexivity|].
    unfold setNonStep, mapState. simpl. rewrite map_app. simpl. now rewrite f_network.
  - rewrite f_navigation. simpl. rewrite stackOf_mapState, length_map.
    destruct (List.length (stackOf st (currentStack st)) =? 0)%nat; [reflexivity|].
    unfold setNonStep, mapState. simpl. rewrite map_app. simpl. now rewrite f_navigation.
Qed.

Lemma runLoop_map (l : list CompositeTestEvent) :
  runLoop (map f l) = mapState f (runLoop l).
Proof.
  unfold runLoop. change initial with (mapState f initial) at 1.
  generalize initial. induction l as [|e l IH]; intros st; simpl.
  - reflexivity.
  - now rewrite loopBody_mapState, IH.
Qed.

Lemma finish_mapState (st : State) : finish (mapState f st) = mapSections f (finish st).
Proof.
  unfold finish, mapSections, mapState. simpl. rewrite !length_map.
  destruct (negb (List.length (nonStepStack st) =? 0)%nat); [|reflexivity].
  destruct (negb (List.length (st_afterEach st) =? 0)%nat); simpl;
    [now rewrite map_app|].
  destruct (negb (List.length (st_testBody st) =? 0)%nat); simpl;
    [now rewrite map_app|].
  destruct (negb (List.length (st_beforeEach st) =? 0)%nat); simpl;
    [now rewrite map_app|reflexivity].
Qed.

Lemma partition_map (l : list CompositeTestEvent) :
  partition (map f l) = mapSections f (partition l).
Proof. unfold partition. now rewrite runLoop_map, finish_mapState. Qed.

Hypothesis f_time : forall e, time (f e) = time e.

Lemma compare_relabel (a b : CompositeTestEvent) : compare (f a) (f b) = compare a b.
Proof.
  pose proof (f_time a) as Ta. pose proof (f_time b) as Tb.
  destruct a as [sa|na|na], b as [sb|nb|nb];
    rewrite ?f_network, ?f_navigation in *;
    try (destruct (f_step sa) as (sa' & Ha & Hha); rewrite Ha in * );
    try (destruct (f_step sb) as (sb' & Hb & Hhb); rewrite Hb in * );
    simpl in *; rewrite ?Hha, ?Hhb, ?Ta, ?Tb; reflexivity.
Qed.

Lemma allEvents_relabel (l : list CompositeTestEvent) :
  partition (sort compare (map f l)) = mapSections f (partition (sort compare l)).
Proof.
  rewrite (sort_map f compare compare l compare_relabel). apply partition_map.
Qed.
End Relabel.

Lemma annotateStep_withEnqueue (store : Store) (q : list Annotation.t) (startTime : Z)
      (s : TestStep.t) (i : nat) :
  annotateStep (withEnqueue store q) startTime s i
  = reEnqueueStep q (annotateStep store startTime s i).
Proof.
  unfold annotateStep, reEnqueueStep.
  change (resolveStep (withEnqueue store q) startTime s) with (resolveStep store startTime s).
  now destruct (resolveStep store startTime s) as [[[[? ?] ?] ?] ?].
Qed.

Lemma stepsByTime_withEnqueue (store : Store) (q : list Annotation.t) (startTime : Z)
      (steps : list TestStep.t) :
  stepsByTime (withEnqueue store q) startTime steps
  = map (reEnqueueStep q) (stepsByTime store startTime steps).
Proof.
  unfold stepsByTime, mapi. generalize 0%nat.
  induction steps as [|s l IH]; intros i; simpl; [reflexivity|].
  now rewrite annotateStep_withEnqueue, IH.
Qed.

Lemma times_reEnqueue (q : list Annotation.t) (sbt : list StepEvent.t) :
  times (map (reEnqueueStep q) sbt) = times sbt.
Proof.
  unfold times. generalize {| Times.min := Infinity; Times.max := 0 |}.
  induction sbt as [|s l IH]; intros acc; simpl; [reflexivity|apply IH].
Qed.

Lemma retained_withEnqueue (store : Store) (q : list Annotation.t) (startTime : Z)
      (steps : list TestStep.t) :
  retained (withEnqueue store q) startTime steps
  = map (reEnqueue q) (retained store startTime steps).
Proof.
  unfold retained. cbv zeta.
  rewrite stepsByTime_withEnqueue, times_reEnqueue, !map_app, !map_map.
  reflexivity.
Qed.

Lemma mapSections_compose (f g : CompositeTestEvent -> CompositeTestEvent) (s : Sections) :
  mapSections g (mapSections f s) = mapSections (fun e => g (f e)) s.
Proof. unfold mapSections. simpl. now rewrite !map_map. Qed.

Lemma mapSections_ext (f g : CompositeTestEvent -> CompositeTestEvent) (s : Sections) :
  (forall e, f e = g e) -> mapSections f s = mapSections g s.
Proof.
  intros H. unfold mapSections. f_equal; now apply map_ext.
Qed.

(** C10. With other enqueue annotations in the store the sections are the
    same, event for event and in the same order, except that each step event
    carries the enqueue annotation the new stream holds for it: the window,
    the filtering, the sort and the sections do not depend on them.  Two runs
    that differ in the enqueue stream only therefore agree once that field is
    erased. *)
Theorem enqueue_annotations_only_label
        (store : Store) (q : list Annotation.t) (startTime : Z) (steps : list TestStep.t) :
  useGetTestSections (withEnqueue store q) startTime steps
  = mapSections (reEnqueue q) (useGetTestSections store startTime steps)
  /\ times (stepsByTime (withEnqueue store q) startTime steps)
     = times (stepsByTime store startTime steps)
  /\ mapSections eraseEnqueue (useGetTestSections (withEnqueue store q) startTime steps)
     = mapSections eraseEnqueue (useGetTestSections store startTime steps).
Proof.
  assert (H : useGetTestSections (withEnqueue store q) startTime steps
              = mapSections (reEnqueue q) (useGetTestSections store startTime steps)).
  { unfold useGetTestSections, allEvents. rewrite retained_withEnqueue.
    apply allEvents_relabel.
    - intros s. eexists. split; reflexivity.
    - reflexivity.
    - reflexivity.
    - intros [s|n|n]; reflexivity. }
  split; [exact H|]. split.
  - rewrite stepsByTime_withEnqueue. apply times_reEnqueue.
  - rewrite H, mapSections_compose. apply mapSections_ext.
    intros [s|n|n]; reflexivity.
Qed.

(** ** Order within the sections *)

Lemma stackOf_appendTo (k k' : Stack) (l : list CompositeTestEvent) (st : State) :
  stackOf (appendTo k l st) k'
  = if sameStack k k' then stackOf st k' ++ l else stackOf st k'.
Proof. now destruct k, k'. Qed.

Lemma push_appendTo (st : State) (l : list CompositeTestEvent) :
  push st l = appendTo (currentStack st) l st.
Proof. unfold push, appendTo. now destruct (currentStack st). Qed.

(** The state after a step: the step and the pending events are appended
    to the array of the step, the pending events last when the array
    changed and first when it did not. *)
Lemma loopBody_step_shape (st : State) (s : StepEvent.t) :
  let '(changed, cur) :=
    target (currentStack st) (AnnotatedTestStep.hook (StepEvent.event s)) in
  loopBody st (Step s)
  = setNonStep
      (setCurrent
         (appendTo cur (if changed then Step s :: nonStepStack st
                        else nonStepStack st ++ [Step s]) st) cur) [].
Proof.
  unfold loopBody.
  destruct (target (currentStack st) (AnnotatedTestStep.hook (StepEvent.event s)))
    as [changed cur].
  unfold flush. rewrite !push_appendTo.
  destruct changed, cur; simpl; unfold appendTo, setNonStep, setCurrent; simpl;
    rewrite ?app_nil_r, <- ?app_assoc; reflexivity.
Qed.

Lemma finish_shape (st : State) :
  finish st = sectionsOf st
  \/ exists k, finish st = sectionsOf (appendTo k (nonStepStack st) st).
Proof.
  unfold finish.
  destruct (negb (List.length (nonStepStack st) =? 0)%nat); [|now left].
  destruct (negb (List.length (st_afterEach st) =? 0)%nat); [right; now exists AfterEach|].
  destruct (negb (List.length (st_testBody st) =? 0)%nat); [right; now exists TestBody|].
  destruct (negb (List.length (st_beforeEach st) =? 0)%nat); [right; now exists BeforeEach|].
  now left.
Qed.

(** *** The order of the list the loop goes through *)

Lemma beforeIn_app (l r : list CompositeTestEvent) (x y : CompositeTestEvent) :
  beforeIn l x y -> beforeIn (l ++ r) x y.
Proof.
  intros (l1 & l2 & l3 & ->). exists l1, l2, (l3 ++ r).
  rewrite <- app_assoc. simpl. rewrite <- app_assoc. reflexivity.
Qed.

Lemma beforeIn_last (l : list CompositeTestEvent) (x e : CompositeTestEvent) :
  In x l -> beforeIn (l ++ [e]) x e.
Proof.
  intros Hx. apply in_split in Hx. destruct Hx as (l1 & l2 & ->).
  exists l1, l2, []. rewrite <- app_assoc. reflexivity.
Qed.

Lemma switchPair_app (l r : list CompositeTestEvent) (x y : CompositeTestEvent) :
  switchPair l x y -> switchPair (l ++ r) x y.
Proof.
  intros (s & l1 & ns & l2 & Hx & Hy & -> & Hns & Hl1 & Ht).
  exists s, l1, ns, (l2 ++ r). repeat (split; [assumption|]).
  split; [|now repeat split].
  rewrite <- app_assoc. simpl. rewrite <- app_assoc. reflexivity.
Qed.

Lemma keepsOrder_app (l r : list CompositeTestEvent) (x y : CompositeTestEvent) :
  keepsOrder l x y -> keepsOrder (l ++ r) x y.
Proof.
  intros [H|H]; [left; now apply beforeIn_app|right; now apply switchPair_app].
Qed.

Lemma StronglySorted_beforeIn (R : CompositeTestEvent -> CompositeTestEvent -> Prop)
      (l : list CompositeTestEvent) (x y : CompositeTestEvent) :
  StronglySorted R l -> beforeIn l x y -> R x y.
Proof.
  intros Hs (l1 & l2 & l3 & ->).
  apply StronglySorted_app_inv in Hs. destruct Hs as (_ & Hs & _).
  inversion Hs as [|? ? _ Hx]; subst.
  rewrite Forall_forall in Hx. apply Hx. apply in_or_app. right. now left.
Qed.

(** *** What the loop does with an event that is no step *)

Lemma loopBody_nonStep_cases (st : State) (e : CompositeTestEvent) :
  nonStep e = true ->
  loopBody st e = st \/ loopBody st e = setNonStep st (nonStepStack st ++ [e]).
Proof.
  intros He. destruct e; try discriminate; simpl;
    destruct (List.length (stackOf st (currentStack st)) =? 0)%nat; tauto.
Qed.

Lemma currentStack_nonSteps (ns : list CompositeTestEvent) (st : State) :
  forallb nonStep ns = true ->
  currentStack (fold_left loopBody ns st) = currentStack st.
Proof.
  revert st. induction ns as [|e ns IH]; intros st H; simpl; [reflexivity|].
  simpl in H. apply andb_prop in H. destruct H as [He Hns].
  rewrite (IH _ Hns).
  destruct (loopBody_nonStep_cases st e He) as [-> | ->]; reflexivity.
Qed.

Lemma In_held_runLoop (l : list CompositeTestEvent) (x : CompositeTestEvent) :
  In x (held (runLoop l)) -> In x l.
Proof.
  destruct (runLoop_held l) as [[_ Hi]|[Hp _]].
  - rewrite Hi. intros [].
  - intros Hx. apply fromFirstStep_incl. exact (Permutation_in _ Hp Hx).
Qed.

Lemma In_stackOf_held (st : State) (k : Stack) (x : CompositeTestEvent) :
  In x (stackOf st k) -> In x (held st).
Proof.
  unfold held, buckets. rewrite !in_app_iff. destruct k; simpl; tauto.
Qed.

(** The pending events are the end of the list gone through, after its
    last step. *)
Lemma runLoop_pending (l : list CompositeTestEvent) :
  exists l1,
    l = l1 ++ nonStepStack (runLoop l)
    /\ currentStack (runLoop l1) = currentStack (runLoop l)
    /\ forallb nonStep (nonStepStack (runLoop l)) = true
    /\ (nonStepStack (runLoop l) <> [] -> forallb nonStep l1 = false).
Proof.
  induction l as [|e l IH] using rev_ind.
  - exists []. simpl. repeat split. intros H. now elim H.
  - rewrite runLoop_snoc. destruct (nonStep e) eqn:He.
    + destruct (runLoop_held l) as [[H0 Hi]|[_ Ha]].
      * (* no step so far: the event is lost *)
        rewrite Hi. rewrite loopBody_nonStep_empty; [|exact He|reflexivity].
        exists (l ++ [e]). simpl. rewrite app_nil_r.
        split; [reflexivity|]. split; [|split; [reflexivity|intros H; now elim H]].
        rewrite runLoop_snoc, Hi.
        rewrite loopBody_nonStep_empty; [reflexivity|exact He|reflexivity].
      * rewrite (loopBody_nonStep_active _ e He Ha).
        destruct IH as (l1 & Hl & Hcur & Hns & Hl1).
        exists l1. cbn [nonStepStack setNonStep currentStack].
        split; [rewrite Hl at 1; now rewrite app_assoc|].
        split; [exact Hcur|]. split.
        -- rewrite forallb_app, Hns. simpl. now rewrite He.
        -- intros _. destruct (forallb nonStep l1) eqn:E1; [|reflexivity].
           exfalso. apply Ha.
           assert (Hall : forallb nonStep l = true).
           { rewrite Hl, forallb_app, E1, Hns. reflexivity. }
           rewrite <- (app_nil_r l). rewrite (runLoop_nonSteps l [] Hall).
           reflexivity.
    + destruct e as [s|n|n]; try discriminate.
      exists (l ++ [Step s]). rewrite runLoop_snoc.
      pose proof (loopBody_step_shape (runLoop l) s) as Hshape.
      destruct (target (currentStack (runLoop l))
                       (AnnotatedTestStep.hook (StepEvent.event s)))
        as [changed cur].
      rewrite Hshape. cbn [nonStepStack setNonStep].
      rewrite app_nil_r. repeat split. intros H. now elim H.
Qed.

(** *** The order of one array *)

(** What appending a step and the pending events does to a list [L] that
    was in order together with the pending events. *)
Lemma keepsOrder_unchanged (l : list CompositeTestEvent) (e : CompositeTestEvent)
      (L p : list CompositeTestEvent) :
  StronglySorted (keepsOrder l) (L ++ p) ->
  StronglySorted (keepsOrder (l ++ [e])) L.
Proof.
  intros Hs. apply StronglySorted_app_inv in Hs. destruct Hs as (Hs & _ & _).
  revert Hs. apply StronglySorted_weaken. intros x y. apply keepsOrder_app.
Qed.

Lemma keepsOrder_append (l : list CompositeTestEvent) (e : CompositeTestEvent)
      (L : list CompositeTestEvent) :
  StronglySorted (keepsOrder l) L ->
  (forall x, In x L -> In x l) ->
  StronglySorted (keepsOrder (l ++ [e])) (L ++ [e]).
Proof.
  intros Hs Hin. apply StronglySorted_app.
  - revert Hs. apply StronglySorted_weaken. intros x y. apply keepsOrder_app.
  - repeat constructor.
  - intros x y Hx [<-|[]]. left. apply beforeIn_last. now apply Hin.
Qed.

Lemma keepsOrder_switch (l : list CompositeTestEvent) (s : StepEvent.t)
      (L p : list CompositeTestEvent) :
  StronglySorted (keepsOrder l) (L ++ p) ->
  (forall x, In x L -> In x l) ->
  (forall n, In n p -> switchPair (l ++ [Step s]) (Step s) n) ->
  StronglySorted (keepsOrder (l ++ [Step s])) (L ++ Step s :: p).
Proof.
  intros Hs Hin Hsw.
  apply (StronglySorted_weaken _ (keepsOrder (l ++ [Step s]))) in Hs;
    [|intros x y; apply keepsOrder_app].
  apply StronglySorted_app_inv in Hs. destruct Hs as (HL & Hp & HLp).
  apply StronglySorted_app; [exact HL| |].
  - constructor; [exact Hp|]. apply Forall_forall. intros n Hn.
    right. now apply Hsw.
  - intros x y Hx [<-|Hy].
    + left. apply beforeIn_last. now apply Hin.
    + now apply HLp.
Qed.

(** The pending events and a step that changes the current array. *)
Lemma pending_switchPair (l : list CompositeTestEvent) (s : StepEvent.t)
      (n : CompositeTestEvent) :
  fst (target (currentStack (runLoop l))
              (AnnotatedTestStep.hook (StepEvent.event s))) = true ->
  In n (nonStepStack (runLoop l)) ->
  switchPair (l ++ [Step s]) (Step s) n.
Proof.
  intros Ht Hn.
  destruct (runLoop_pending l) as (l1 & Hl & Hcur & Hns & Hl1).
  assert (Hne : nonStepStack (runLoop l) <> []).
  { intros E. rewrite E in Hn. exact Hn. }
  specialize (Hl1 Hne).
  apply in_split in Hn. destruct Hn as (ns1 & ns2 & Hp).
  rewrite Hp in Hl, Hns.
  rewrite forallb_app in Hns. apply andb_prop in Hns. destruct Hns as [Hns1 Hns2].
  simpl in Hns2. apply andb_prop in Hns2. destruct Hns2 as [Hnn Hns2].
  exists s, (l1 ++ ns1), ns2, [].
  split; [reflexivity|]. split; [exact Hnn|]. split.
  { rewrite Hl at 1. repeat (rewrite <- app_assoc; simpl). reflexivity. }
  split; [exact Hns2|]. split.
  { rewrite forallb_app, Hl1. reflexivity. }
  assert (Hc : currentStack (runLoop (l1 ++ ns1)) = currentStack (runLoop l)).
  { rewrite <- Hcur. unfold runLoop. rewrite fold_left_app.
    now apply currentStack_nonSteps. }
  rewrite Hc. exact Ht.
Qed.

Lemma stackOf_after_step (st : State) (cur k : Stack) (X : list CompositeTestEvent) :
  stackOf (setNonStep (setCurrent (appendTo cur X st) cur) []) k
  = if sameStack cur k then stackOf st k ++ X else stackOf st k.
Proof. now destruct cur, k. Qed.

(** Every array, followed by the pending events, keeps the order of the
    list gone through. *)
Lemma runLoop_keepsOrder (l : list CompositeTestEvent) (k : Stack) :
  StronglySorted (keepsOrder l) (stackOf (runLoop l) k ++ nonStepStack (runLoop l)).
Proof.
  revert k. induction l as [|e l IH] using rev_ind; intros k.
  - destruct k; constructor.
  - assert (Hin : forall x, In x (stackOf (runLoop l) k ++ nonStepStack (runLoop l))
                            -> In x l).
    { intros x Hx. apply In_held_runLoop. apply in_app_iff in Hx.
      destruct Hx as [Hx|Hx]; [now apply (In_stackOf_held _ k)|].
      unfold held. apply in_or_app. now right. }
    rewrite runLoop_snoc. destruct (nonStep e) eqn:He.
    + destruct (loopBody_nonStep_cases (runLoop l) e He) as [-> | ->].
      * generalize (IH k). apply StronglySorted_weaken.
        intros x y. apply keepsOrder_app.
      * change (StronglySorted (keepsOrder (l ++ [e]))
                  (stackOf (runLoop l) k ++ nonStepStack (runLoop l) ++ [e])).
        rewrite app_assoc. apply keepsOrder_append; [apply IH|exact Hin].
    + destruct e as [s|n|n]; try discriminate.
      pose proof (loopBody_step_shape (runLoop l) s) as Hshape.
      pose proof (pending_switchPair l s) as Hsw.
      destruct (target (currentStack (runLoop l))
                       (AnnotatedTestStep.hook (StepEvent.event s)))
        as [changed cur].
      rewrite Hshape, stackOf_after_step. cbn [nonStepStack setNonStep].
      rewrite app_nil_r.
      destruct (sameStack cur k).
      * destruct changed.
        -- apply keepsOrder_switch; [apply IH| |].
           ++ intros x Hx. apply Hin. apply in_or_app. now left.
           ++ intros n Hn. now apply Hsw.
        -- rewrite app_assoc. apply keepsOrder_append; [apply IH|exact Hin].
      * apply (keepsOrder_unchanged l (Step s) _ (nonStepStack (runLoop l))).
        apply IH.
Qed.

Lemma section_sectionsOf (st : State) (k : Stack) :
  section (sectionsOf st) k = stackOf st k.
Proof. now destruct k. Qed.

Lemma partition_keepsOrder (l : list CompositeTestEvent) (k : Stack) :
  StronglySorted (keepsOrder l) (section (partition l) k).
Proof.
  unfold partition. pose proof (runLoop_keepsOrder l k) as H.
  destruct (finish_shape (runLoop l)) as [-> | [k' ->]];
    rewrite section_sectionsOf.
  - now apply StronglySorted_app_inv in H.
  - rewrite stackOf_appendTo. destruct (sameStack k' k); [exact H|].
    now apply StronglySorted_app_inv in H.
Qed.

(** *** The order of the three arrays one after the other *)

Lemma forward_prefix (l r : list CompositeTestEvent) : forward (l ++ r) -> forward l.
Proof.
  intros H l1 s l2 ->. apply (H l1 s (l2 ++ r)).
  rewrite <- app_assoc. reflexivity.
Qed.

Lemma rank_inj (a b : Stack) : rank a = rank b -> a = b.
Proof. destruct a, b; simpl; congruence. Qed.

Lemma sameStack_rank (a b : Stack) : rank a <> rank b -> sameStack a b = false.
Proof. destruct a, b; simpl; congruence. Qed.

(** When the arrays behind [cur] are empty, appending to [cur] appends to
    the three arrays taken together. *)
Lemma buckets_appendTo (st : State) (cur : Stack) (X : list CompositeTestEvent) :
  (forall k, (rank cur < rank k)%nat -> stackOf st k = []) ->
  buckets (setNonStep (setCurrent (appendTo cur X st) cur) []) = buckets st ++ X.
Proof.
  intros Hempty. unfold buckets.
  pose proof (Hempty TestBody) as Ht. pose proof (Hempty AfterEach) as Ha.
  destruct cur; simpl in *.
  - rewrite Ht, Ha by lia. simpl. now rewrite !app_nil_r.
  - rewrite Ha by lia. now rewrite !app_nil_r, app_assoc.
  - now rewrite !app_assoc.
Qed.

Lemma runLoop_forward (l : list CompositeTestEvent) :
  forward l ->
  (forall k, (rank (currentStack (runLoop l)) < rank k)%nat ->
             stackOf (runLoop l) k = [])
  /\ StronglySorted (keepsOrder l) (buckets (runLoop l) ++ nonStepStack (runLoop l)).
Proof.
  induction l as [|e l IH] using rev_ind; intros Hf.
  - split; [intros []; reflexivity|constructor].
  - destruct (IH (forward_prefix _ _ Hf)) as [Hempty Hs].
    assert (Hin : forall x, In x (buckets (runLoop l) ++ nonStepStack (runLoop l))
                            -> In x l).
    { intros x Hx. now apply In_held_runLoop. }
    rewrite runLoop_snoc. destruct (nonStep e) eqn:He.
    + destruct (loopBody_nonStep_cases (runLoop l) e He) as [-> | ->].
      * split; [exact Hempty|].
        revert Hs. apply StronglySorted_weaken. intros x y. apply keepsOrder_app.
      * split; [exact Hempty|].
        change (StronglySorted (keepsOrder (l ++ [e]))
                  (buckets (runLoop l) ++ nonStepStack (runLoop l) ++ [e])).
        rewrite app_assoc. now apply keepsOrder_append.
    + destruct e as [s|n|n]; try discriminate.
      pose proof (Hf l s [] eq_refl) as Hrank.
      pose proof (loopBody_step_shape (runLoop l) s) as Hshape.
      pose proof (pending_switchPair l s) as Hsw.
      destruct (target (currentStack (runLoop l))
                       (AnnotatedTestStep.hook (StepEvent.event s)))
        as [changed cur].
      cbn [snd fst] in *. rewrite Hshape.
      assert (Hcur : forall k, (rank cur < rank k)%nat -> stackOf (runLoop l) k = []).
      { intros k Hk. apply Hempty. lia. }
      split.
      * intros k Hk. rewrite stackOf_after_step.
        cbn [currentStack setNonStep setCurrent] in Hk.
        rewrite sameStack_rank by lia. apply Hcur. exact Hk.
      * rewrite (buckets_appendTo _ _ _ Hcur). cbn [nonStepStack setNonStep].
        rewrite app_nil_r. destruct changed.
        -- apply keepsOrder_switch; [exact Hs| |].
           ++ intros x Hx. apply Hin. apply in_or_app. now left.
           ++ intros n Hn. now apply Hsw.
        -- rewrite app_assoc. now apply keepsOrder_append.
Qed.

(** After the loop the pending events go behind the last array in use. *)
Lemma finish_forward (st : State) :
  (forall k, (rank (currentStack st) < rank k)%nat -> stackOf st k = []) ->
  (nonStepStack st <> [] -> active st) ->
  contents (finish st) = buckets st ++ nonStepStack st.
Proof.
  intros Hempty Hact. unfold finish, contents, buckets.
  destruct (nonStepStack st) as [|p ps] eqn:Ep; simpl.
  - now rewrite app_nil_r.
  - assert (Ha : active st) by (apply Hact; discriminate).
    pose proof (Hempty TestBody) as Het. pose proof (Hempty AfterEach) as Hea.
    unfold active in Ha. destruct (currentStack st) eqn:Ec; simpl in *.
    + rewrite Het, Hea by lia. simpl.
      destruct (st_beforeEach st); [now elim Ha|]. simpl.
      now rewrite !app_nil_r.
    + rewrite Hea by lia. simpl.
      destruct (st_testBody st); [now elim Ha|]. simpl.
      now rewrite !app_nil_r, <- !app_assoc.
    + destruct (st_afterEach st); [now elim Ha|]. simpl.
      now rewrite <- !app_assoc.
Qed.

Lemma partition_forward (l : list CompositeTestEvent) :
  forward l -> StronglySorted (keepsOrder l) (contents (partition l)).
Proof.
  intros Hf. destruct (runLoop_forward l Hf) as [Hempty Hs].
  unfold partition. rewrite finish_forward; [exact Hs|exact Hempty|].
  intros Hp. destruct (runLoop_held l) as [[_ Hi]|[_ Ha]]; [|exact Ha].
  rewrite Hi in Hp. now elim Hp.
Qed.

(** *** A consistent comparator *)

Lemma consistentb_consistent (l : list CompositeTestEvent) :
  consistentb l = true -> consistent compare l.
Proof.
  unfold consistentb. intros H.
  assert (H3 : forall a b c, In a l -> In b l -> In c l ->
             compare a a = 0
             /\ (compare a b = 0 -> compare b a = 0)
             /\ (compare a b = 0 -> compare b c = 0 -> compare a c = 0)
             /\ (compare a b < 0 -> compare b c < 0 -> compare a c < 0)
             /\ (0 < compare a b -> 0 < compare b c -> 0 < compare a c)).
  { intros a b c Ha Hb Hc.
    rewrite forallb_forall in H. specialize (H a Ha).
    apply andb_prop in H. destruct H as [Hrefl H].
    rewrite forallb_forall in H. specialize (H b Hb).
    apply andb_prop in H. destruct H as [Hsym H].
    rewrite forallb_forall in H. specialize (H c Hc).
    apply andb_prop in H. destruct H as [H Hgt].
    apply andb_prop in H. destruct H as [Heq Hlt].
    split; [now apply Z.eqb_eq|].
    split.
    { intros E. apply Z.eqb_eq in E. rewrite E in Hsym. now apply Z.eqb_eq. }
    split.
    { intros E1 E2. apply Z.eqb_eq in E1, E2. rewrite E1, E2 in Heq.
      now apply Z.eqb_eq. }
    split.
    { intros E1 E2. apply Z.ltb_lt in E1, E2. rewrite E1, E2 in Hlt.
      now apply Z.ltb_lt. }
    intros E1 E2. apply Z.ltb_lt in E1, E2. rewrite E1, E2 in Hgt.
    now apply Z.ltb_lt. }
  split; [intros a Ha; exact (proj1 (H3 a a a Ha Ha Ha))|].
  split; [intros a b Ha Hb; exact (proj1 (proj2 (H3 a b b Ha Hb Hb)))|].
  split; [intros a b c Ha Hb Hc; exact (proj1 (proj2 (proj2 (H3 a b c Ha Hb Hc))))|].
  split; intros a b c Ha Hb Hc;
    [exact (proj1 (proj2 (proj2 (proj2 (H3 a b c Ha Hb Hc)))))
    |exact (proj2 (proj2 (proj2 (proj2 (H3 a b c Ha Hb Hc)))))].
Qed.

Lemma consistent_incl {A : Type} (cmp : A -> A -> Z) (l l' : list A) :
  incl l' l -> consistent cmp l -> consistent cmp l'.
Proof.
  intros Hi (H1 & H2 & H3 & H4 & H5).
  split; [intros a Ha; apply H1; now apply Hi|].
  split; [intros a b Ha Hb; apply H2; now apply Hi|].
  split; [intros a b c Ha Hb Hc; apply H3; now apply Hi|].
  split; [intros a b c Ha Hb Hc; apply H4; now apply Hi|].
  intros a b c Ha Hb Hc; apply H5; now apply Hi.
Qed.

(** Classes that differ are hooks that differ. *)
Lemma byTimeOrHook_asSpecified (x y : CompositeTestEvent) :
  byTimeOrHook x y -> asSpecified x y.
Proof.
  intros [H|H]; [left|now right].
  destruct x as [a|a|a], y as [b|b|b]; try discriminate H.
  simpl in *. destruct (strictEq _ _) eqn:E; [|reflexivity].
  apply strictEq_true in E. rewrite E in H.
  now destruct (hookClass (AnnotatedTestStep.hook (StepEvent.event b))).
Qed.

(** What the comparator puts first is earlier, but for a "beforeEach" step
    put before a step of another class. *)
Lemma compare_byTimeOrHook (x y : CompositeTestEvent) :
  compare x y <= 0 -> byTimeOrHook x y.
Proof.
  unfold byTimeOrHook, classesDiffer, compare, hookClass.
  destruct x as [a|a|a], y as [b|b|b]; try (intros H; right; lia).
  cbv zeta.
  destruct (negb (strictEq _ _)); [|intros H; right; lia].
  destruct (isLit "beforeEach" (AnnotatedTestStep.hook (StepEvent.event a))) eqn:Ea.
  - destruct (isLit "beforeEach" (AnnotatedTestStep.hook (StepEvent.event b))) eqn:Eb;
      cbn [andb negb].
    + pose proof (isLit_true _ _ Ea) as Ha. rewrite Ha. simpl.
      intros H. right. lia.
    + intros _. left.
      now destruct (isLit "afterEach" (AnnotatedTestStep.hook (StepEvent.event b))).
  - cbn [andb].
    destruct (isLit "afterEach" (AnnotatedTestStep.hook (StepEvent.event a))
              && negb (isLit "afterEach" (AnnotatedTestStep.hook (StepEvent.event b))));
      intros H; [lia|right; lia].
Qed.

Lemma compare_beforeEach_first (a b : StepEvent.t) :
  isLit "beforeEach" (AnnotatedTestStep.hook (StepEvent.event a)) = true ->
  isLit "beforeEach" (AnnotatedTestStep.hook (StepEvent.event b)) = false ->
  compare (Step a) (Step b) = -1.
Proof.
  intros Ha Hb. unfold compare. cbv zeta.
  destruct (strictEq _ _) eqn:E.
  - apply strictEq_true in E. rewrite E in Ha. congruence.
  - simpl. now rewrite Ha, Hb.
Qed.

Lemma compare_afterEach_first (a b : StepEvent.t) :
  isLit "afterEach" (AnnotatedTestStep.hook (StepEvent.event a)) = true ->
  isLit "afterEach" (AnnotatedTestStep.hook (StepEvent.event b)) = false ->
  compare (Step a) (Step b) = 1.
Proof.
  intros Ha Hb. unfold compare. cbv zeta.
  destruct (strictEq _ _) eqn:E.
  - apply strictEq_true in E. rewrite E in Ha. congruence.
  - assert (Hbe : isLit "beforeEach" (AnnotatedTestStep.hook (StepEvent.event a))
                  = false).
    { pose proof (isLit_true _ _ Ha) as Eh. rewrite Eh. reflexivity. }
    cbn [negb]. rewrite Hbe, Ha, Hb. reflexivity.
Qed.

(** The step that made an array current. *)
Lemma currentStack_origin (l : list CompositeTestEvent) :
  match currentStack (runLoop l) with
  | BeforeEach => True
  | TestBody =>
      exists s, In (Step s) l
                /\ truthy (AnnotatedTestStep.hook (StepEvent.event s)) = false
  | AfterEach =>
      exists s, In (Step s) l
                /\ isLit "afterEach" (AnnotatedTestStep.hook (StepEvent.event s)) = true
  end.
Proof.
  induction l as [|e l IH] using rev_ind; [exact I|].
  assert (Hkeep : currentStack (runLoop (l ++ [e])) = currentStack (runLoop l)
                  -> match currentStack (runLoop (l ++ [e])) with
                     | BeforeEach => True
                     | TestBody =>
                         exists s, In (Step s) (l ++ [e])
                                   /\ truthy (AnnotatedTestStep.hook (StepEvent.event s))
                                      = false
                     | AfterEach =>
                         exists s, In (Step s) (l ++ [e])
                                   /\ isLit "afterEach"
                                        (AnnotatedTestStep.hook (StepEvent.event s))
                                      = true
                     end).
  { intros ->. destruct (currentStack (runLoop l)); [exact I| |];
      destruct IH as (s & Hs & Hh); exists s;
      (split; [apply in_or_app; now left|exact Hh]). }
  destruct (nonStep e) eqn:He.
  - apply Hkeep. rewrite runLoop_snoc.
    destruct (loopBody_nonStep_cases (runLoop l) e He) as [-> | ->]; reflexivity.
  - destruct e as [s|n|n]; try discriminate.
    assert (Hcur : currentStack (runLoop (l ++ [Step s]))
                   = snd (target (currentStack (runLoop l))
                                 (AnnotatedTestStep.hook (StepEvent.event s)))).
    { rewrite runLoop_snoc.
      pose proof (loopBody_step_shape (runLoop l) s) as Hshape.
      destruct (target _ _) as [changed cur]. now rewrite Hshape. }
    unfold target in Hcur.
    destruct (isLit "beforeEach" _) eqn:Eb; [now rewrite Hcur|].
    destruct (isLit "afterEach" _) eqn:Ea.
    { rewrite Hcur. exists s. split; [apply in_or_app; right; now left|exact Ea]. }
    destruct (truthy _) eqn:Et; simpl in Hcur.
    + now apply Hkeep.
    + rewrite Hcur. exists s. split; [apply in_or_app; right; now left|exact Et].
Qed.

(** A list sorted by a consistent comparator has the steps of "beforeEach"
    first and those of "afterEach" last, so that the current array only
    moves on. *)
Lemma sorted_forward (l : list CompositeTestEvent) :
  consistent compare l ->
  StronglySorted (fun a b => compare a b <= 0) l ->
  forward l.
Proof.
  intros Hc Hs l1 s l2 Hl.
  assert (Hbefore : forall s', In (Step s') l1 ->
             compare (Step s') (Step s) <= 0
             /\ (compare (Step s) (Step s') < 0 -> False)).
  { intros s' Hs'.
    assert (Hle : compare (Step s') (Step s) <= 0).
    { apply (StronglySorted_beforeIn (fun a b => compare a b <= 0) l); [exact Hs|].
      apply in_split in Hs'. destruct Hs' as (a & b & ->).
      exists a, b, l2. rewrite Hl, <- app_assoc. reflexivity. }
    split; [exact Hle|]. intros Hlt.
    apply (consistent_opposite compare l Hc) in Hlt; [lia| |];
      rewrite Hl; apply in_or_app; [right; now left|left; exact Hs']. }
  pose proof (currentStack_origin l1) as Horigin.
  unfold target.
  destruct (isLit "beforeEach" _) eqn:Eb; cbn [snd].
  - destruct (currentStack (runLoop l1)); [simpl; lia| |].
    + destruct Horigin as (s' & Hs' & Hh). exfalso.
      apply (Hbefore s' Hs'). rewrite compare_beforeEach_first; [lia|exact Eb|].
      destruct (isLit "beforeEach" (AnnotatedTestStep.hook (StepEvent.event s')))
        eqn:E; [|reflexivity].
      apply isLit_true in E. rewrite E in Hh. discriminate.
    + destruct Horigin as (s' & Hs' & Hh). exfalso.
      destruct (Hbefore s' Hs') as [Hle _].
      rewrite compare_afterEach_first in Hle; [lia|exact Hh|].
      apply isLit_true in Eb. rewrite Eb. reflexivity.
  - destruct (isLit "afterEach" _) eqn:Ea; cbn [snd].
    + destruct (currentStack (runLoop l1)); simpl; lia.
    + destruct (truthy _) eqn:Et; cbn [snd negb]; [lia|].
      destruct (currentStack (runLoop l1)); [simpl; lia|simpl; lia|].
      destruct Horigin as (s' & Hs' & Hh). exfalso.
      destruct (Hbefore s' Hs') as [Hle _].
      rewrite compare_afterEach_first in Hle; [lia|exact Hh|exact Ea].
Qed.

Lemma keepsOrder_inTimeOrder (l : list CompositeTestEvent) (x y : CompositeTestEvent) :
  StronglySorted (fun a b => compare a b <= 0) l ->
  keepsOrder l x y -> inTimeOrder l x y.
Proof.
  intros Hs [H|H]; [left|now right].
  apply compare_byTimeOrHook.
  exact (StronglySorted_beforeIn (fun a b => compare a b <= 0) l x y Hs H).
Qed.

(** An event that is no step is not later than what follows it. *)
Lemma inTimeOrder_nonStep_first (l : list CompositeTestEvent) (x y : CompositeTestEvent) :
  nonStep x = true -> inTimeOrder l x y -> time x <= time y.
Proof.
  intros Hx [[H|H]|H].
  - destruct x; discriminate.
  - exact H.
  - destruct H as (s & _ & _ & _ & -> & _). discriminate.
Qed.

(** C2, as the code has it.  For every input each section keeps the order
    of the sorted list, but for a step that changed the current array and
    the events that were pending then: these are appended after the step
    although they come before it in the sorted list.  When the comparator is
    consistent on the retained events, so that the order of the sorted list
    is fixed, the sorted list is in the order of the comparator, and in the
    three sections taken one after the other, as in each of them, every
    pair of events is in non-decreasing order of time unless both are steps
    whose hooks are classified differently, or the first is a step that
    changed the current array and the second an event that was pending
    then. *)
Theorem sections_in_time_order
        (store : Store) (startTime : Z) (steps : list TestStep.t) :
  let l := allEvents store startTime steps in
  let out := useGetTestSections store startTime steps in
  (forall k, StronglySorted (keepsOrder l) (section out k))
  /\ (consistentb (retained store startTime steps) = true ->
      StronglySorted (fun a b => compare a b <= 0) l
      /\ StronglySorted (inTimeOrder l) (contents out)
      /\ forall k, StronglySorted (inTimeOrder l) (section out k)).
Proof.
  intros l out.
  assert (Hsections : forall k, StronglySorted (keepsOrder l) (section out k)).
  { intros k. apply partition_keepsOrder. }
  split; [exact Hsections|]. intros Hb.
  apply consistentb_consistent in Hb.
  assert (Hs : StronglySorted (fun a b => compare a b <= 0) l).
  { apply sort_sorted. exact Hb. }
  assert (Hc : consistent compare l).
  { apply (consistent_incl compare (retained store startTime steps)); [|exact Hb].
    intros x Hx. now apply sort_In in Hx. }
  split; [exact Hs|]. split.
  - apply (StronglySorted_weaken (keepsOrder l)).
    + intros x y. now apply keepsOrder_inTimeOrder.
    + apply partition_forward. now apply sorted_forward.
  - intros k. apply (StronglySorted_weaken (keepsOrder l)).
    + intros x y. now apply keepsOrder_inTimeOrder.
    + apply Hsections.
Qed.

(** Two inputs with a consistent comparator: one where a request is pending
    when the second step changes the array, and one where the hook rule puts
    a "beforeEach" step at 5 before an "afterEach" step at 0. *)
Lemma sections_in_time_order_witness :
  let store := networkOnly [mkSummary "n1" (Some "xhr") (Some 5)] in
  let steps := [mkStep "s1" "get" None 0 None (Some "beforeEach");
                mkStep "s2" "get" None 10 None None] in
  let r := mkSummary "n2" (Some "xhr") (Some 7) in
  let store' := networkOnly [r] in
  let s1 := mkStep "s1" "get" None 0 None (Some "afterEach") in
  let s2 := mkStep "s2" "get" (Some 10) 5 None (Some "beforeEach") in
  (consistentb (retained store 0 steps) = true
   /\ StronglySorted (inTimeOrder (allEvents store 0 steps))
                     (contents (useGetTestSections store 0 steps)))
  /\ (consistentb (retained store' 0 [s1; s2]) = true
      /\ allEvents store' 0 [s1; s2]
         = [Step (annotateStep store' 0 s2 1); Step (annotateStep store' 0 s1 0);
            Network {| NetworkEvent.time := 7; NetworkEvent.event := r |}]
      /\ StronglySorted (inTimeOrder (allEvents store' 0 [s1; s2]))
                        (contents (useGetTestSections store' 0 [s1; s2]))).
Proof.
  intros store steps r store' s1 s2. split.
  - split; [reflexivity|].
    exact (proj1 (proj2 (proj2 (sections_in_time_order store 0 steps) eq_refl))).
  - split; [reflexivity|]. split; [reflexivity|].
    exact (proj1 (proj2 (proj2 (sections_in_time_order store' 0 [s1; s2]) eq_refl))).
Defined.

(** C2 does not hold as stated: a request that ends at 5, between a
    "beforeEach" step at 0 and a step of the test body at 10, is pending when
    the second step changes the current array, and is appended to the test
    body after that step. *)
Lemma pending_event_follows_later_step :
  let r := mkSummary "n1" (Some "xhr") (Some 5) in
  let store := networkOnly [r] in
  let s1 := mkStep "s1" "get" None 0 None (Some "beforeEach") in
  let s2 := mkStep "s2" "get" None 10 None None in
  let out := useGetTestSections store 0 [s1; s2] in
  let n := Network {| NetworkEvent.time := 5; NetworkEvent.event := r |} in
  allEvents store 0 [s1; s2]
  = [Step (annotateStep store 0 s1 0); n; Step (annotateStep store 0 s2 1)]
  /\ beforeEach out = [Step (annotateStep store 0 s1 0)]
  /\ testBody out = [Step (annotateStep store 0 s2 1); n]
  /\ time (Step (annotateStep store 0 s2 1)) = 10
  /\ time n = 5
  /\ ~ StronglySorted asSpecified (testBody out)
  /\ ~ StronglySorted asSpecified (contents out).
Proof.
  intros r store s1 s2 out n.
  assert (Hpair : ~ asSpecified (Step (annotateStep store 0 s2 1)) n).
  { intros [H|H]; [discriminate|]. vm_compute in H. now apply H. }
  repeat split; try reflexivity.
  - intros H. change (testBody out) with [Step (annotateStep store 0 s2 1); n] in H.
    apply StronglySorted_inv in H. destruct H as [_ H].
    apply Forall_inv in H. exact (Hpair H).
  - intros H.
    change (contents out)
      with [Step (annotateStep store 0 s1 0); Step (annotateStep store 0 s2 1); n] in H.
    apply StronglySorted_inv in H. destruct H as [H _].
    apply StronglySorted_inv in H. destruct H as [_ H].
    apply Forall_inv in H. exact (Hpair H).
Qed.

(** Without a consistent comparator the times need not be in order.  A
    "beforeAll" step at 0 and a "beforeEach" step at 2 with a request that
    ends at 1: the comparator puts the "beforeEach" step first by its hook
    and the request after the "beforeAll" step by time, and the sorted list,
    like [beforeEach], has the step at 2 before the request at 1, which was
    not pending when that step was reached. *)
Lemma hook_rule_breaks_time_order :
  let r := mkSummary "n1" (Some "xhr") (Some 1) in
  let store := networkOnly [r] in
  let s1 := mkStep "s1" "get" None 0 None (Some "beforeAll") in
  let s2 := mkStep "s2" "get" None 2 None (Some "beforeEach") in
  let out := useGetTestSections store 0 [s1; s2] in
  let n := Network {| NetworkEvent.time := 1; NetworkEvent.event := r |} in
  let l := [Step (annotateStep store 0 s2 1); Step (annotateStep store 0 s1 0); n] in
  consistentb (retained store 0 [s1; s2]) = false
  /\ allEvents store 0 [s1; s2] = l
  /\ beforeEach out = l
  /\ ~ inTimeOrder l (Step (annotateStep store 0 s2 1)) n.
Proof.
  intros r store s1 s2 out n l.
  split; [reflexivity|]. split; [reflexivity|]. split; [reflexivity|].
  intros [[H|H]|H].
  - discriminate.
  - vm_compute in H. now apply H.
  - destruct H as (s & l1 & ns & l2 & _ & _ & Hl & _).
    destruct l1 as [|x1 [|x2 [|x3 l1]]]; try discriminate Hl.
    + injection Hl as _ _ Hl. destruct ns; discriminate.
    + injection Hl as _ _ _ Hl. destruct l1; discriminate.
Qed.

(** ** The comparator and the order of its arguments *)

(** For a step without hook at 0 and a "beforeEach" step at 10 the
    comparator answers a negative number both ways round: the hook decides
    when the "beforeEach" step comes first, the time when it comes second. *)
Lemma compare_depends_on_argument_order :
  let store := networkOnly [] in
  let u := Step (annotateStep store 0 (mkStep "s1" "get" None 0 None None) 0) in
  let b := Step (annotateStep store 0 (mkStep "s2" "get" None 10 None (Some "beforeEach")) 1) in
  compare b u = -1 /\ compare u b = -10.
Proof. cbv zeta. split; reflexivity. Qed.

(** C9.  The comparator does not sort the steps by hook first, as the claim
    and the comment in its body say.  For two steps, the first with the hook
    "afterEach" at relative time 0 and the second without hook at relative
    time 10, in a test case that starts at 0, the hooks differ; the sort asks
    the comparator about the second step and the first, the comparator reads
    the hook of the step it is given first, which has none, and answers by
    time: 10, the second after the first.  The "afterEach" step is left
    first in the sorted list, before a step whose hook is not "afterEach".
    In the same way a "beforeEach" step at relative time 10 followed in the
    array by a step without hook at relative time 0 ends behind it. *)
Lemma afterEach_step_sorted_first :
  let store := networkOnly [] in
  let s1 := mkStep "s1" "get" None 0 None (Some "afterEach") in
  let s2 := mkStep "s2" "get" None 10 None None in
  let a := Step (annotateStep store 0 s1 0) in
  let u := Step (annotateStep store 0 s2 1) in
  let s3 := mkStep "s3" "get" None 10 None (Some "beforeEach") in
  let s4 := mkStep "s4" "get" None 0 None None in
  let b := Step (annotateStep store 0 s3 0) in
  let v := Step (annotateStep store 0 s4 1) in
  (hooksDiffer a u = true
   /\ compare u a = 10
   /\ allEvents store 0 [s1; s2] = [a; u])
  /\ (hooksDiffer b v = true
      /\ compare v b = -10
      /\ allEvents store 0 [s3; s4] = [v; b]).
Proof. cbv zeta. repeat split; reflexivity. Qed.

(** * Further properties of [useGetTestSections] *)

(** ** Where the events of the sections come from *)

Lemma hook_annotateStep (store : Store) (startTime : Z) (s : TestStep.t) (i : nat) :
  AnnotatedTestStep.hook (StepEvent.event (annotateStep store startTime s i))
  = TestStep.hook s.
Proof.
  unfold annotateStep. now destruct (resolveStep store startTime s) as [[[[? ?] ?] ?] ?].
Qed.

Lemma In_stepsByTime (store : Store) (startTime : Z) (steps : list TestStep.t)
      (e : StepEvent.t) :
  In e (stepsByTime store startTime steps) ->
  exists i s, nth_error steps i = Some s /\ e = annotateStep store startTime s i.
Proof.
  intros H. apply mapiFrom_In in H. destruct H as (k & s & Hk & ->).
  now exists k, s.
Qed.

Lemma In_retained_step (store : Store) (startTime : Z) (steps : list TestStep.t)
      (e : StepEvent.t) :
  In (Step e) (retained store startTime steps) ->
  In e (stepsByTime store startTime steps).
Proof.
  unfold retained. cbv zeta. intros H.
  apply in_app_or in H. destruct H as [H|H].
  - apply in_map_iff in H. destruct H as (? & [=] & _).
  - apply in_app_or in H. destruct H as [H|H].
    + apply in_map_iff in H. destruct H as (e' & [= ->] & He). exact He.
    + apply in_map_iff in H. destruct H as (? & [=] & _).
Qed.

Lemma In_allEvents_step (store : Store) (startTime : Z) (steps : list TestStep.t)
      (e : StepEvent.t) :
  In (Step e) (allEvents store startTime steps) ->
  exists i s, nth_error steps i = Some s /\ e = annotateStep store startTime s i.
Proof.
  intros H. unfold allEvents in H. apply sort_In in H.
  now apply In_stepsByTime, In_retained_step.
Qed.

Lemma In_section_contents (out : Sections) (k : Stack) (e : CompositeTestEvent) :
  In e (section out k) -> In e (contents out).
Proof.
  unfold contents. destruct k; simpl; intros H; apply in_or_app;
    [now left|right; apply in_or_app; now left|right; apply in_or_app; now right].
Qed.

Lemma section_routed (l : list CompositeTestEvent) (k : Stack) (e : CompositeTestEvent) :
  In e (section (partition l) k) -> routedTo k e = true.
Proof.
  destruct (partition_routed l) as (Hb & Ht & Ha).
  rewrite Forall_forall in Hb, Ht, Ha. destruct k; simpl; auto.
Qed.

(** X2. A step is in the section its hook names and in no other, whatever
    the times, the annotations and the other events: "beforeEach" and
    "afterEach" name their sections, an absent or empty hook the test
    body. *)
Theorem step_only_in_section_of_hook
        (store : Store) (startTime : Z) (steps : list TestStep.t)
        (i : nat) (s : TestStep.t) (k : Stack) :
  nth_error steps i = Some s ->
  hasHook k (Step (annotateStep store startTime s i)) = true ->
  let out := useGetTestSections store startTime steps in
  forall k', In (Step (annotateStep store startTime s i)) (section out k') <-> k' = k.
Proof.
  intros Hi Hk out k'.
  pose proof (stepsByTime_nth store startTime steps i s Hi) as Hin.
  destruct (step_in_section_of_hook store startTime steps _ Hin) as (Hb & Ha & Ht).
  fold out in Hb, Ha, Ht. simpl in Hk.
  set (e := annotateStep store startTime s i) in *.
  set (h := AnnotatedTestStep.hook (StepEvent.event e)) in *.
  split.
  - intros Hin'. apply section_routed in Hin'. simpl in Hin'. fold h in Hin'.
    unfold target in Hin'.
    destruct k; simpl in Hk.
    + rewrite Hk in Hin'. now destruct k'.
    + destruct (isLit "beforeEach" h) eqn:E1;
        [apply isLit_true in E1; rewrite E1 in Hk; discriminate|].
      destruct (isLit "afterEach" h) eqn:E2;
        [apply isLit_true in E2; rewrite E2 in Hk; discriminate|].
      rewrite Hk in Hin'. now destruct k'.
    + destruct (isLit "beforeEach" h) eqn:E1;
        [apply isLit_true in E1; apply isLit_true in Hk; rewrite E1 in Hk; discriminate|].
      rewrite Hk in Hin'. now destruct k'.
  - intros ->. destruct k; simpl in Hk |- *.
    + apply Hb. now apply isLit_true.
    + apply Ht. now destruct (truthy h).
    + apply Ha. now apply isLit_true.
Qed.

Lemma step_only_in_section_of_hook_witness :
  let store := networkOnly [] in
  let s1 := mkStep "s1" "get" None 0 None (Some "afterEach") in
  let s2 := mkStep "s2" "get" None 10 None None in
  let out := useGetTestSections store 0 [s1; s2] in
  In (Step (annotateStep store 0 s1 0)) (afterEach out)
  /\ ~ In (Step (annotateStep store 0 s1 0)) (testBody out).
Proof.
  intros store s1 s2 out.
  pose proof (step_only_in_section_of_hook store 0 [s1; s2] 0 s1 AfterEach
                eq_refl eq_refl) as H.
  split.
  - exact (proj2 (H AfterEach) eq_refl).
  - intros Hin. pose proof (proj1 (H TestBody) Hin). discriminate.
Defined.

Lemma In_sections_navigation
        (store : Store) (startTime : Z) (steps : list TestStep.t)
        (n : NavigationEvent.t) :
  In (Navigation n) (contents (useGetTestSections store startTime steps)) ->
  isDuringSteps (times (stepsByTime store startTime steps)) (NavigationEvent.time n) = true
  /\ exists a, In a (navigationEvents store)
               /\ Annotation.time a = NavigationEvent.time n
               /\ Annotation.message a = NavigationEvent.event n.
Proof.
  intros Hin. apply In_sections_retained in Hin.
  unfold retained in Hin. cbv zeta in Hin.
  apply in_app_or in Hin. destruct Hin as [Hin|Hin];
    [apply in_map_iff in Hin; destruct Hin as (? & [=] & _)|].
  apply in_app_or in Hin. destruct Hin as [Hin|Hin];
    [apply in_map_iff in Hin; destruct Hin as (? & [=] & _)|].
  apply in_map_iff in Hin. destruct Hin as (n' & [= ->] & Hn).
  unfold navigationEventsByTime in Hn. apply in_map_iff in Hn.
  destruct Hn as (a & <- & Ha). apply filter_In in Ha. destruct Ha as [Ha Hwin].
  simpl. split; [exact Hwin|]. now exists a.
Qed.

(** X3. A navigation event found in a section comes from a navigation
    annotation of the store whose time is in the window; it carries the
    message and the time of that annotation. *)
Theorem navigation_event_passed_the_filter
        (store : Store) (startTime : Z) (steps : list TestStep.t)
        (n : NavigationEvent.t) :
  In (Navigation n) (contents (useGetTestSections store startTime steps)) ->
  isDuringSteps (times (stepsByTime store startTime steps)) (NavigationEvent.time n) = true
  /\ exists a, In a (navigationEvents store)
               /\ Annotation.time a = NavigationEvent.time n
               /\ Annotation.message a = NavigationEvent.event n.
Proof. exact (In_sections_navigation store startTime steps n). Qed.

Lemma navigation_event_passed_the_filter_witness :
  let a := {| Annotation.message :=
                {| CypressAnnotationMessage.id := None;
                   CypressAnnotationMessage.url := Some "https://example.com/" |};
              Annotation.time := 5 |} in
  let store := {| navigationEvents := [a]; annotationsEnqueue := [];
                  annotationsEnd := []; annotationsStart := []; summaries := [] |} in
  let steps := [mkStep "s1" "get" (Some 10) 0 None None] in
  let n := {| NavigationEvent.time := 5; NavigationEvent.event := Annotation.message a |} in
  In (Navigation n) (contents (useGetTestSections store 0 steps))
  /\ isDuringSteps (times (stepsByTime store 0 steps)) 5 = true.
Proof.
  intros a store steps n.
  assert (Hin : In (Navigation n) (contents (useGetTestSections store 0 steps))).
  { vm_compute. right. now left. }
  split; [exact Hin|].
  exact (proj1 (navigation_event_passed_the_filter store 0 steps n Hin)).
Defined.

(** ** Steps that all go to one section *)

Lemma sameStack_eq (a b : Stack) : sameStack a b = true <-> a = b.
Proof. destruct a, b; simpl; split; intros H; try reflexivity; discriminate. Qed.

Lemma target_stable (k : Stack) (h : option string) :
  snd (target BeforeEach h) = k -> snd (target k h) = k.
Proof.
  unfold target.
  destruct (isLit "beforeEach" h); [auto|].
  destruct (isLit "afterEach" h); [auto|].
  destruct (truthy h); simpl; auto.
Qed.

Lemma loopBody_onlyUses (k : Stack) (st : State) (e : CompositeTestEvent) :
  (forall s, e = Step s ->
             snd (target BeforeEach (AnnotatedTestStep.hook (StepEvent.event s))) = k) ->
  onlyUses k st -> onlyUses k (loopBody st e).
Proof.
  intros He [Hempty Hcur]. destruct e as [s|n|n].
  - specialize (He s eq_refl).
    assert (Ht : snd (target (currentStack st)
                        (AnnotatedTestStep.hook (StepEvent.event s))) = k).
    { destruct Hcur as [->| ->]; [now apply target_stable|exact He]. }
    pose proof (loopBody_step_shape st s) as Hshape.
    destruct (target (currentStack st) (AnnotatedTestStep.hook (StepEvent.event s)))
      as [changed cur]. simpl in Ht. subst cur. rewrite Hshape. split.
    + intros k' Hk'.
      change (stackOf (setNonStep (setCurrent (appendTo k
                (if changed then Step s :: nonStepStack st
                 else nonStepStack st ++ [Step s]) st) k) []) k')
        with (stackOf (appendTo k (if changed then Step s :: nonStepStack st
                                   else nonStepStack st ++ [Step s]) st) k').
      rewrite stackOf_appendTo.
      destruct (sameStack k k') eqn:E; [|now apply Hempty].
      apply sameStack_eq in E. subst k'. now destruct k.
    + now left.
  - destruct Hcur as [Hc| ->]; [|split; [exact Hempty|now right]].
    simpl. destruct (List.length (stackOf st (currentStack st)) =? 0)%nat;
      (split; [exact Hempty|now left]).
  - destruct Hcur as [Hc| ->]; [|split; [exact Hempty|now right]].
    simpl. destruct (List.length (stackOf st (currentStack st)) =? 0)%nat;
      (split; [exact Hempty|now left]).
Qed.

Lemma runLoop_onlyUses (k : Stack) (l : list CompositeTestEvent) :
  (forall s, In (Step s) l ->
             snd (target BeforeEach (AnnotatedTestStep.hook (StepEvent.event s))) = k) ->
  onlyUses k (runLoop l).
Proof.
  unfold runLoop. intros Hl.
  assert (H0 : onlyUses k initial).
  { split; [now intros []|now right]. }
  revert H0. generalize initial. induction l as [|e l IH]; intros st Hst; simpl.
  - exact Hst.
  - apply IH.
    + intros s Hs. apply Hl. now right.
    + apply loopBody_onlyUses; [|exact Hst].
      intros s ->. apply Hl. now left.
Qed.

Lemma finish_onlyUses (k : Stack) (st : State) :
  onlyUses k st -> forall k', sameStack k' k = false -> section (finish st) k' = [].
Proof.
  intros [Hempty _] k' Hk'.
  pose proof (Hempty BeforeEach) as Hb. pose proof (Hempty TestBody) as Ht.
  pose proof (Hempty AfterEach) as Ha. simpl in Hb, Ht, Ha.
  unfold finish.
  destruct (negb (List.length (nonStepStack st) =? 0)%nat);
    [|destruct k'; simpl; auto].
  destruct k; simpl in *.
  - rewrite (Ha eq_refl), (Ht eq_refl). simpl.
    destruct (negb (List.length (st_beforeEach st) =? 0)%nat);
      destruct k'; simpl; auto; discriminate.
  - rewrite (Ha eq_refl). simpl.
    destruct (negb (List.length (st_testBody st) =? 0)%nat).
    + destruct k'; simpl; auto; discriminate.
    + rewrite (Hb eq_refl). simpl. destruct k'; simpl; auto; discriminate.
  - destruct (negb (List.length (st_afterEach st) =? 0)%nat).
    + destruct k'; simpl; auto; discriminate.
    + rewrite (Ht eq_refl), (Hb eq_refl). simpl. destruct k'; simpl; auto; discriminate.
Qed.

Lemma one_section (store : Store) (startTime : Z) (steps : list TestStep.t) (k : Stack) :
  (forall s, In s steps -> snd (target BeforeEach (TestStep.hook s)) = k) ->
  let out := useGetTestSections store startTime steps in
  (forall k', sameStack k' k = false -> section out k' = [])
  /\ Permutation (section out k) (fromFirstStep (allEvents store startTime steps)).
Proof.
  intros Hsteps out.
  assert (Hone : forall k', sameStack k' k = false -> section out k' = []).
  { apply finish_onlyUses, runLoop_onlyUses. intros e He.
    apply In_allEvents_step in He. destruct He as (i & s & Hi & ->).
    rewrite hook_annotateStep. apply Hsteps. now apply nth_error_In in Hi. }
  split; [exact Hone|].
  rewrite <- (partition_contents (allEvents store startTime steps)).
  fold (useGetTestSections store startTime steps). fold out.
  unfold contents.
  pose proof (Hone BeforeEach) as Hb. pose proof (Hone TestBody) as Ht.
  pose proof (Hone AfterEach) as Ha. simpl in Hb, Ht, Ha.
  destruct k; simpl in *.
  - now rewrite (Ht eq_refl), (Ha eq_refl), !app_nil_r.
  - now rewrite (Hb eq_refl), (Ha eq_refl), app_nil_r.
  - now rewrite (Hb eq_refl), (Ht eq_refl).
Qed.

(** X4. When no step has a hook (absent or empty), [beforeEach] and
    [afterEach] are empty and the test body holds every event of the sorted
    list from its first step on. *)
Theorem steps_without_hook_fill_test_body
        (store : Store) (startTime : Z) (steps : list TestStep.t) :
  (forall s, In s steps -> truthy (TestStep.hook s) = false) ->
  let out := useGetTestSections store startTime steps in
  beforeEach out = [] /\ afterEach out = []
  /\ Permutation (testBody out) (fromFirstStep (allEvents store startTime steps)).
Proof.
  intros Hsteps out.
  destruct (one_section store startTime steps TestBody) as [Hone Hp].
  { intros s Hs. specialize (Hsteps s Hs). unfold target.
    destruct (isLit "beforeEach" (TestStep.hook s)) eqn:E1;
      [apply isLit_true in E1; rewrite E1 in Hsteps; discriminate|].
    destruct (isLit "afterEach" (TestStep.hook s)) eqn:E2;
      [apply isLit_true in E2; rewrite E2 in Hsteps; discriminate|].
    now rewrite Hsteps. }
  split; [exact (Hone BeforeEach eq_refl)|].
  split; [exact (Hone AfterEach eq_refl)|exact Hp].
Qed.

Lemma steps_without_hook_fill_test_body_witness :
  let store := networkOnly [mkSummary "n1" (Some "xhr") (Some 5)] in
  let steps := [mkStep "s1" "get" (Some 10) 0 None None;
                mkStep "s2" "get" None 20 None (Some "")] in
  (forall s, In s steps -> truthy (TestStep.hook s) = false)
  /\ beforeEach (useGetTestSections store 0 steps) = []
  /\ List.length (testBody (useGetTestSections store 0 steps)) = 3%nat.
Proof.
  intros store steps.
  assert (H : forall s, In s steps -> truthy (TestStep.hook s) = false).
  { intros s [<-|[<-|[]]]; reflexivity. }
  split; [exact H|]. split.
  - exact (proj1 (steps_without_hook_fill_test_body store 0 steps H)).
  - reflexivity.
Defined.

Lemma other_hook_target (cur : Stack) (h : option string) :
  otherHook h = true -> target cur h = (false, cur).
Proof.
  unfold otherHook, target. intros Ho.
  apply andb_true_iff in Ho. destruct Ho as [Ho Ha].
  apply andb_true_iff in Ho. destruct Ho as [Ht Hb].
  apply negb_true_iff in Ha, Hb. now rewrite Hb, Ha, Ht.
Qed.

(** What an array holds it keeps. *)
Lemma In_stackOf_loopBody (st : State) (e x : CompositeTestEvent) (k : Stack) :
  In x (stackOf st k) -> In x (stackOf (loopBody st e) k).
Proof.
  intros Hx. destruct (nonStep e) eqn:He.
  - destruct (loopBody_nonStep_cases st e He) as [-> | ->]; exact Hx.
  - destruct e as [s|n|n]; try discriminate.
    pose proof (loopBody_step_shape st s) as Hshape.
    destruct (target (currentStack st) (AnnotatedTestStep.hook (StepEvent.event s)))
      as [changed cur].
    rewrite Hshape, stackOf_after_step.
    destruct (sameStack cur k); [apply in_or_app; now left|exact Hx].
Qed.

Lemma In_stackOf_fold (l : list CompositeTestEvent) (st : State)
      (x : CompositeTestEvent) (k : Stack) :
  In x (stackOf st k) -> In x (stackOf (fold_left loopBody l st) k).
Proof.
  revert st. induction l as [|e l IH]; intros st Hx; simpl; [exact Hx|].
  apply IH. now apply In_stackOf_loopBody.
Qed.

Lemma In_stackOf_finish (st : State) (x : CompositeTestEvent) (k : Stack) :
  In x (stackOf st k) -> In x (section (finish st) k).
Proof.
  intros Hx. destruct (finish_shape st) as [-> | [k' ->]];
    rewrite section_sectionsOf; [exact Hx|].
  rewrite stackOf_appendTo.
  destruct (sameStack k' k); [apply in_or_app; now left|exact Hx].
Qed.

(** X5. A step whose hook is a non-empty string other than "beforeEach"
    and "afterEach" leaves the current array as it is, whichever it is: the
    pending events and then the step are appended to the array of the step
    before it ([beforeEach] when it is the first step), the other arrays are
    left as they are, and the step is found in the section of that array
    whatever follows. *)
Theorem other_hook_step_joins_current_array
        (l rest : list CompositeTestEvent) (s : StepEvent.t) :
  otherHook (AnnotatedTestStep.hook (StepEvent.event s)) = true ->
  let st := runLoop l in
  let st' := runLoop (l ++ [Step s]) in
  currentStack st' = currentStack st
  /\ stackOf st' (currentStack st)
     = stackOf st (currentStack st) ++ nonStepStack st ++ [Step s]
  /\ (forall k, k <> currentStack st -> stackOf st' k = stackOf st k)
  /\ nonStepStack st' = []
  /\ In (Step s) (section (partition (l ++ Step s :: rest)) (currentStack st)).
Proof.
  intros Ho st st'.
  assert (Hst' : st' = setNonStep
                         (setCurrent
                            (appendTo (currentStack st) (nonStepStack st ++ [Step s]) st)
                            (currentStack st)) []).
  { subst st'. rewrite runLoop_snoc. fold st.
    pose proof (loopBody_step_shape st s) as Hshape.
    now rewrite (other_hook_target _ _ Ho) in Hshape. }
  assert (Hcur : stackOf st' (currentStack st)
                 = stackOf st (currentStack st) ++ nonStepStack st ++ [Step s]).
  { rewrite Hst', stackOf_after_step. now destruct (currentStack st). }
  split; [now rewrite Hst'|]. split; [exact Hcur|]. split.
  { intros k Hk. rewrite Hst', stackOf_after_step.
    destruct (sameStack (currentStack st) k) eqn:E; [|reflexivity].
    apply sameStack_eq in E. now elim Hk. }
  split; [now rewrite Hst'|].
  unfold partition. apply In_stackOf_finish.
  change (l ++ Step s :: rest) with (l ++ [Step s] ++ rest).
  rewrite app_assoc. unfold runLoop. rewrite fold_left_app.
  apply In_stackOf_fold. fold (runLoop (l ++ [Step s])). fold st'.
  rewrite Hcur. apply in_or_app. right. apply in_or_app. right. now left.
Qed.

Lemma other_hook_step_joins_current_array_witness :
  let store := networkOnly [] in
  let a := annotateStep store 0 (mkStep "s1" "get" None 0 None (Some "afterEach")) 0 in
  let s := annotateStep store 0 (mkStep "s2" "log" None 10 None (Some "afterAll")) 1 in
  afterEach (partition [Step a; Step s]) = [Step a; Step s]
  /\ In (Step s) (afterEach (partition [Step a; Step s])).
Proof.
  intros store a s. split; [reflexivity|].
  exact (proj2 (proj2 (proj2 (proj2
           (other_hook_step_joins_current_array [Step a] [] s eq_refl))))).
Defined.

(** ** An empty window *)

Lemma emptyWindow_retained (store : Store) (startTime : Z) (steps : list TestStep.t) :
  emptyWindow (times (stepsByTime store startTime steps)) ->
  retained store startTime steps = map Step (stepsByTime store startTime steps).
Proof.
  intros Hw. unfold retained, networkDataByTime, navigationEventsByTime. cbv zeta.
  rewrite !filter_none.
  - simpl. now rewrite app_nil_r.
  - intros a. apply Hw.
  - intros n. unfold keepSummary. destruct (RequestSummary.end_ n) as [t|].
    + now rewrite Hw, andb_false_r.
    + now rewrite andb_false_r.
Qed.

(** For an "assert" with an error the start and the stored end are one and
    the same expression, [absoluteEndTime - 1]. *)
Lemma failed_assert_stored_end (store : Store) (startTime : Z) (s : TestStep.t) (i : nat) :
  TestStep.name s = "assert" -> TestStep.error s <> None ->
  storedEndOf (annotateStep store startTime s i) = startOf (annotateStep store startTime s i).
Proof.
  intros Hname Herr. unfold storedEndOf, startOf, annotateStep, resolveStep.
  rewrite Hname. simpl String.eqb. cbv iota.
  destruct (TestStep.error s); [reflexivity|now elim Herr].
Qed.

(** X6. The window of a single step ends at its stored end, so it is empty
    when that end is not after the start.  For a test case whose only step
    is an "assert" with an error, or any step whose stored end is not after
    its start, and that starts at a non-negative time, the sections hold the
    step and nothing else, whatever the requests and navigations of the
    store. *)
Theorem single_instant_step_stands_alone
        (store : Store) (startTime : Z) (s : TestStep.t) :
  let e := annotateStep store startTime s 0 in
  (TestStep.name s = "assert" /\ TestStep.error s <> None)
  \/ storedEndOf e <= startOf e ->
  0 <= startOf e ->
  emptyWindow (times (stepsByTime store startTime [s]))
  /\ contents (useGetTestSections store startTime [s]) = [Step e].
Proof.
  intros e Hend Hstart.
  assert (Hle : storedEndOf e <= startOf e).
  { destruct Hend as [[Hname Herr]|Hle]; [|exact Hle].
    subst e. rewrite (failed_assert_stored_end store startTime s 0 Hname Herr).
    apply Z.le_refl. }
  assert (Hw : emptyWindow (times (stepsByTime store startTime [s]))).
  { intros t. change (stepsByTime store startTime [s]) with [e].
    unfold isDuringSteps, times. simpl.
    fold (startOf e). fold (storedEndOf e).
    destruct (Z.leb_spec (startOf e) t); simpl; [|reflexivity].
    apply Z.ltb_ge. lia. }
  split; [exact Hw|].
  unfold useGetTestSections, allEvents. rewrite (emptyWindow_retained _ _ _ Hw).
  change (stepsByTime store startTime [s]) with [e]. simpl.
  apply Permutation_length_1_inv. symmetry.
  apply (partition_contents [Step e]).
Qed.

Lemma single_instant_step_stands_alone_witness :
  let store := networkOnly [mkSummary "n1" (Some "xhr") (Some 56)] in
  let s := mkStep "a1" "assert" (Some 50) 7 (Some failure) None in
  contents (useGetTestSections store 0 [s]) = [Step (annotateStep store 0 s 0)].
Proof.
  intros store s.
  refine (proj2 (single_instant_step_stands_alone store 0 s
                   (or_introl (conj eq_refl _)) _)).
  - discriminate.
  - vm_compute. discriminate.
Defined.

(** ** The step events that are stored *)

(** X7. Every step event of the sections is the event computed from the
    input step at its [index].  Its sort time is its [absoluteStartTime],
    its duration is never 0, and unless it is a step other than an assert
    with an end annotation its stored end is its start plus its duration
    minus one. *)
Theorem stored_step_event_is_well_formed
        (store : Store) (startTime : Z) (steps : list TestStep.t) (e : StepEvent.t) :
  In (Step e) (contents (useGetTestSections store startTime steps)) ->
  let ev := StepEvent.event e in
  exists s,
    nth_error steps (AnnotatedTestStep.index ev) = Some s
    /\ e = annotateStep store startTime s (AnnotatedTestStep.index ev)
    /\ StepEvent.time e = AnnotatedTestStep.absoluteStartTime ev
    /\ AnnotatedTestStep.duration ev <> 0
    /\ (TestStep.name s = "assert"
        \/ findAnnotation (annotationsEnd store) (TestStep.id s) = None ->
        AnnotatedTestStep.absoluteEndTime ev
        = AnnotatedTestStep.absoluteStartTime ev + AnnotatedTestStep.duration ev - 1).
Proof.
  intros Hin ev. apply In_sections_retained, In_retained_step, In_stepsByTime in Hin.
  destruct Hin as (i & s & Hi & ->). subst ev.
  rewrite index_annotateStep. exists s.
  split; [exact Hi|]. split; [reflexivity|].
  unfold annotateStep, resolveStep.
  destruct (String.eqb (TestStep.name s) "assert") eqn:Hname.
  - destruct (TestStep.error s); simpl; repeat split; try lia; discriminate.
  - apply String.eqb_neq in Hname. simpl. split; [reflexivity|]. split.
    + destruct (TestStep.duration s) as [d|]; [|discriminate].
      destruct (Z.eqb_spec d 0); [discriminate|assumption].
    + intros [Hn|Hnone]; [contradiction|]. rewrite Hnone. lia.
Qed.

Lemma stored_step_event_is_well_formed_witness :
  let store := networkOnly [] in
  let s := mkStep "s1" "get" (Some 0) 3 None None in
  let e := annotateStep store 10 s 0 in
  In (Step e) (contents (useGetTestSections store 10 [s]))
  /\ AnnotatedTestStep.duration (StepEvent.event e) <> 0.
Proof.
  intros store s e.
  assert (Hin : In (Step e) (contents (useGetTestSections store 10 [s]))).
  { vm_compute. now left. }
  split; [exact Hin|].
  destruct (stored_step_event_is_well_formed store 10 [s] e Hin)
    as (s' & _ & _ & _ & Hd & _).
  exact Hd.
Defined.

(** ** The start time of the test case *)

Lemma mapiFrom_ext {A B : Type} (f g : A -> nat -> B) (l : list A) (i : nat) :
  (forall x k, In x l -> f x k = g x k) -> mapiFrom f i l = mapiFrom g i l.
Proof.
  revert i. induction l as [|x l IH]; intros i H; simpl; [reflexivity|].
  rewrite (H x i), IH; [reflexivity| |now left].
  intros y k Hy. apply H. now right.
Qed.

(** X8. The start time of the test case is only read for a step without
    start annotation: when every step has a start annotation the sections
    are the same for every start time, whether the steps have end
    annotations or not. *)
Theorem start_time_unused_when_annotated
        (store : Store) (t1 t2 : Z) (steps : list TestStep.t) :
  (forall s, In s steps ->
             findAnnotation (annotationsStart store) (TestStep.id s) <> None) ->
  useGetTestSections store t1 steps = useGetTestSections store t2 steps.
Proof.
  intros Hann.
  assert (Hs : stepsByTime store t1 steps = stepsByTime store t2 steps).
  { apply mapiFrom_ext. intros s k Hs. specialize (Hann s Hs).
    unfold annotateStep, resolveStep.
    destruct (findAnnotation (annotationsStart store) (TestStep.id s));
      [reflexivity|now elim Hann]. }
  unfold useGetTestSections, allEvents, retained. now rewrite Hs.
Qed.

Lemma start_time_unused_when_annotated_witness :
  let store :=
    {| navigationEvents := []; annotationsEnqueue := [];
       annotationsEnd := []; annotationsStart := [mkAnnotation "s1" 12];
       summaries := [mkSummary "n1" (Some "fetch") (Some 15)] |} in
  let steps := [mkStep "s1" "get" (Some 7) 3 None None] in
  useGetTestSections store 0 steps = useGetTestSections store 1000 steps
  /\ testBody (useGetTestSections store 0 steps)
     = [Step (annotateStep store 0 (mkStep "s1" "get" (Some 7) 3 None None) 0);
        Network {| NetworkEvent.time := 15;
                   NetworkEvent.event := mkSummary "n1" (Some "fetch") (Some 15) |}].
Proof.
  intros store steps. split; [|reflexivity].
  apply start_time_unused_when_annotated.
  intros s [<-|[]]. discriminate.
Defined.

(** ** Events between two steps *)

Lemma fold_nonSteps_active (ns : list CompositeTestEvent) (st : State) :
  active st -> forallb nonStep ns = true ->
  fold_left loopBody ns st = setNonStep st (nonStepStack st ++ ns).
Proof.
  revert st. induction ns as [|n ns IH]; intros st Hact Hns; simpl.
  - rewrite app_nil_r. now destruct st.
  - simpl in Hns. apply andb_true_iff in Hns. destruct Hns as [Hn Hns].
    rewrite (loopBody_nonStep_active st n Hn Hact).
    rewrite IH; [|exact Hact|exact Hns].
    unfold setNonStep. simpl. now rewrite <- app_assoc.
Qed.

(** X9. Network and navigation events met after some step wait for the
    next step and go to its array: in front of the step when the step stays
    on the current array, behind it when the step changes the array.  The
    other arrays are left as they are and nothing stays pending. *)
Theorem events_between_steps_join_next_step
        (l ns : list CompositeTestEvent) (s : StepEvent.t) :
  forallb nonStep l = false ->
  forallb nonStep ns = true ->
  let st := runLoop l in
  let st' := runLoop (l ++ ns ++ [Step s]) in
  let changed := fst (target (currentStack st) (AnnotatedTestStep.hook (StepEvent.event s))) in
  let cur := snd (target (currentStack st) (AnnotatedTestStep.hook (StepEvent.event s))) in
  currentStack st' = cur
  /\ nonStepStack st' = []
  /\ stackOf st' cur
     = stackOf st cur
       ++ (if changed then Step s :: nonStepStack st ++ ns
           else nonStepStack st ++ ns ++ [Step s])
  /\ forall k, k <> cur -> stackOf st' k = stackOf st k.
Proof.
  intros Hl Hns st st' changed cur.
  assert (Hst' : st' = loopBody (setNonStep st (nonStepStack st ++ ns)) (Step s)).
  { subst st'. rewrite app_assoc, runLoop_snoc. f_equal.
    unfold runLoop. rewrite fold_left_app. fold (runLoop l). fold st.
    apply fold_nonSteps_active; [now apply runLoop_active|exact Hns]. }
  pose proof (loopBody_step_shape (setNonStep st (nonStepStack st ++ ns)) s) as Hshape.
  change (currentStack (setNonStep st (nonStepStack st ++ ns)))
    with (currentStack st) in Hshape.
  change (nonStepStack (setNonStep st (nonStepStack st ++ ns)))
    with (nonStepStack st ++ ns) in Hshape.
  subst changed cur.
  destruct (target (currentStack st) (AnnotatedTestStep.hook (StepEvent.event s)))
    as [changed cur]. simpl.
  rewrite Hst', Hshape. clear Hst' Hshape.
  split; [reflexivity|]. split; [reflexivity|]. split.
  - destruct cur; simpl; now rewrite <- ?app_assoc.
  - intros k Hk. destruct cur, k; simpl; try reflexivity; now elim Hk.
Qed.

Lemma events_between_steps_join_next_step_witness :
  let n := Network {| NetworkEvent.time := 5;
                      NetworkEvent.event := mkSummary "n1" (Some "xhr") (Some 5) |} in
  let s1 := annotateStep (networkOnly []) 0 (mkStep "s1" "get" None 0 None None) 0 in
  let s2 := annotateStep (networkOnly []) 0 (mkStep "s2" "get" None 10 None None) 1 in
  st_testBody (runLoop ([Step s1] ++ [n] ++ [Step s2])) = [Step s1; n; Step s2].
Proof.
  intros n s1 s2.
  exact (proj1 (proj2 (proj2
           (events_between_steps_join_next_step [Step s1] [n] s2 eq_refl eq_refl)))).
Defined.

(** ** The steps of a section *)

Lemma known_hook_target (c k : Stack) (h : option string) (s : StepEvent.t) :
  AnnotatedTestStep.hook (StepEvent.event s) = h ->
  otherHook h = false ->
  sameStack (snd (target c h)) k = hasHook k (Step s).
Proof.
  intros Hh Hother. simpl. rewrite Hh. unfold otherHook in Hother. unfold target.
  destruct (isLit "beforeEach" h) eqn:E1.
  - apply isLit_true in E1. rewrite E1. now destruct k.
  - destruct (isLit "afterEach" h) eqn:E2.
    + apply isLit_true in E2. rewrite E2. now destruct k.
    + destruct (truthy h); [discriminate|]. now destruct k.
Qed.

Lemma filter_isStep_nonSteps (l : list CompositeTestEvent) :
  Forall (fun e => nonStep e = true) l -> filter isStep l = [].
Proof.
  induction 1 as [|e l He _ IH]; simpl; [reflexivity|].
  unfold nonStep in He. now destruct (isStep e).
Qed.

Lemma filter_hasHook_nonStep (k : Stack) (e : CompositeTestEvent) :
  nonStep e = true -> hasHook k e = false.
Proof. now destruct e. Qed.

Lemma fold_steps_by_hook (l : list CompositeTestEvent) (st : State) :
  (forall e, In e l -> otherHook (hookOf e) = false) ->
  Forall (fun e => nonStep e = true) (nonStepStack st) ->
  Forall (fun e => nonStep e = true) (nonStepStack (fold_left loopBody l st))
  /\ forall k, filter isStep (stackOf (fold_left loopBody l st) k)
               = filter isStep (stackOf st k) ++ filter (hasHook k) l.
Proof.
  revert st. induction l as [|e l IH]; intros st Hknown Hp; simpl.
  - split; [exact Hp|]. intros k. now rewrite app_nil_r.
  - assert (Hl : forall e', In e' l -> otherHook (hookOf e') = false)
      by (intros e' He'; apply Hknown; now right).
    assert (Hp' : Forall (fun e => nonStep e = true) (nonStepStack (loopBody st e))).
    { destruct e as [s|n|n].
      - pose proof (loopBody_step_shape st s) as Hshape.
        destruct (target (currentStack st) (AnnotatedTestStep.hook (StepEvent.event s))).
        rewrite Hshape. constructor.
      - simpl. destruct (List.length (stackOf st (currentStack st)) =? 0)%nat;
          [exact Hp|].
        simpl. apply Forall_app. split; [exact Hp|now constructor].
      - simpl. destruct (List.length (stackOf st (currentStack st)) =? 0)%nat;
          [exact Hp|].
        simpl. apply Forall_app. split; [exact Hp|now constructor]. }
    destruct (IH (loopBody st e) Hl Hp') as [Hq Hk]. split; [exact Hq|].
    intros k. rewrite Hk. clear IH Hk Hq.
    destruct e as [s|n|n].
    + pose proof (loopBody_step_shape st s) as Hshape.
      pose proof (known_hook_target (currentStack st) k _ s eq_refl
                    (Hknown (Step s) (or_introl eq_refl))) as Hsame.
      destruct (target (currentStack st) (AnnotatedTestStep.hook (StepEvent.event s)))
        as [changed cur]. cbn [snd] in Hsame. rewrite Hshape.
      change (stackOf (setNonStep (setCurrent (appendTo cur
                (if changed then Step s :: nonStepStack st
                 else nonStepStack st ++ [Step s]) st) cur) []) k)
        with (stackOf (appendTo cur (if changed then Step s :: nonStepStack st
                                     else nonStepStack st ++ [Step s]) st) k).
      rewrite stackOf_appendTo. cbn [filter]. rewrite <- Hsame.
      destruct (sameStack cur k); [|reflexivity].
      rewrite filter_app, <- app_assoc. f_equal.
      destruct changed; simpl; rewrite ?filter_app; simpl;
        now rewrite (filter_isStep_nonSteps _ Hp).
    + cbn [filter hasHook]. f_equal. f_equal.
      simpl. destruct (List.length (stackOf st (currentStack st)) =? 0)%nat;
        now destruct k.
    + cbn [filter hasHook]. f_equal. f_equal.
      simpl. destruct (List.length (stackOf st (currentStack st)) =? 0)%nat;
        now destruct k.
Qed.

Lemma finish_steps (st : State) (k : Stack) :
  Forall (fun e => nonStep e = true) (nonStepStack st) ->
  filter isStep (section (finish st) k) = filter isStep (stackOf st k).
Proof.
  intros Hp. destruct (finish_shape st) as [->|(k0 & ->)].
  - now destruct k.
  - change (section (sectionsOf (appendTo k0 (nonStepStack st) st)) k)
      with (stackOf (appendTo k0 (nonStepStack st) st) k).
    rewrite stackOf_appendTo. destruct (sameStack k0 k); [|reflexivity].
    now rewrite filter_app, (filter_isStep_nonSteps _ Hp), app_nil_r.
Qed.

(** X10. When every step has a hook that names a section ("beforeEach",
    "afterEach", or none), the steps of each section are the steps with that
    hook, in the order the sort gave them. *)
Theorem section_steps_are_sorted_steps_of_hook
        (store : Store) (startTime : Z) (steps : list TestStep.t) :
  (forall s, In s steps -> otherHook (TestStep.hook s) = false) ->
  let out := useGetTestSections store startTime steps in
  forall k, filter isStep (section out k)
            = filter (hasHook k) (allEvents store startTime steps).
Proof.
  intros Hsteps out k.
  assert (Hknown : forall e, In e (allEvents store startTime steps) ->
                             otherHook (hookOf e) = false).
  { intros [s|n|n] He; [|reflexivity|reflexivity].
    apply In_allEvents_step in He. destruct He as (i & s' & Hi & ->).
    simpl. rewrite hook_annotateStep. apply Hsteps. now apply nth_error_In in Hi. }
  destruct (fold_steps_by_hook (allEvents store startTime steps) initial Hknown)
    as [Hp Hk]; [constructor|].
  subst out. unfold useGetTestSections, partition.
  rewrite finish_steps; [|exact Hp].
  unfold runLoop. rewrite Hk. now destruct k.
Qed.

Lemma section_steps_are_sorted_steps_of_hook_witness :
  let store := networkOnly [mkSummary "n1" (Some "xhr") (Some 5)] in
  let steps := [mkStep "s1" "get" None 0 None (Some "beforeEach");
                mkStep "s2" "get" None 10 None None] in
  filter isStep (testBody (useGetTestSections store 0 steps))
  = filter (hasHook TestBody) (allEvents store 0 steps).
Proof.
  intros store steps.
  refine (section_steps_are_sorted_steps_of_hook store 0 steps _ TestBody).
  intros s [<-|[<-|[]]]; reflexivity.
Defined.

(** ** The comparator is not a consistent comparator *)

(** X1. The hook rule of the comparator reads the hook of its first
    argument only.  So when a step that has neither the hook "beforeEach" nor
    the hook "afterEach" starts before a "beforeEach" step, the comparator
    puts each of the two before the other; likewise it puts an "afterEach"
    step and a later step without such a hook each after the other. *)
Theorem compare_contradicts_itself (a b : StepEvent.t) :
  let ha := AnnotatedTestStep.hook (StepEvent.event a) in
  let hb := AnnotatedTestStep.hook (StepEvent.event b) in
  ha <> Some "beforeEach" -> ha <> Some "afterEach" ->
  compare (Step a) (Step b) = StepEvent.time a - StepEvent.time b
  /\ (hb = Some "beforeEach" -> StepEvent.time a < StepEvent.time b ->
      compare (Step a) (Step b) < 0 /\ compare (Step b) (Step a) < 0)
  /\ (hb = Some "afterEach" -> StepEvent.time b < StepEvent.time a ->
      compare (Step a) (Step b) > 0 /\ compare (Step b) (Step a) > 0).
Proof.
  intros ha hb Hb Ha.
  assert (Hab : compare (Step a) (Step b) = StepEvent.time a - StepEvent.time b).
  { unfold compare. fold ha hb.
    rewrite (isLit_other "beforeEach" ha Hb), (isLit_other "afterEach" ha Ha).
    simpl. now destruct (negb (strictEq ha hb)). }
  split; [exact Hab|]. split.
  - intros Hhb Hlt. split; [lia|].
    unfold compare. fold ha hb. rewrite Hhb.
    destruct (strictEq (Some "beforeEach") ha) eqn:E.
    + apply strictEq_true in E. now elim Hb.
    + simpl. now rewrite (isLit_other "beforeEach" ha Hb).
  - intros Hhb Hlt. split; [lia|].
    unfold compare. fold ha hb. rewrite Hhb.
    destruct (strictEq (Some "afterEach") ha) eqn:E.
    + apply strictEq_true in E. now elim Ha.
    + simpl. now rewrite (isLit_other "afterEach" ha Ha).
Qed.

Lemma compare_contradicts_itself_witness :
  let store := networkOnly [] in
  let u := annotateStep store 0 (mkStep "s1" "get" None 0 None None) 0 in
  let b := annotateStep store 0 (mkStep "s2" "get" None 10 None (Some "beforeEach")) 1 in
  compare (Step u) (Step b) < 0 /\ compare (Step b) (Step u) < 0.
Proof.
  intros store u b.
  refine (proj1 (proj2 (compare_contradicts_itself u b _ _)) eq_refl eq_refl);
    discriminate.
Defined.

(** * Properties of the rendering *)

Lemma filterMap_app {A B : Type} (f : A -> option B) (l l' : list A) :
  filterMap f (l ++ l') = filterMap f l ++ filterMap f l'.
Proof.
  induction l as [|x l IH]; simpl; [reflexivity|].
  destruct (f x); simpl; now rewrite IH.
Qed.

Lemma filterMap_perm {A B : Type} (f : A -> option B) (l l' : list A) :
  Permutation l l' -> Permutation (filterMap f l) (filterMap f l').
Proof.
  induction 1 as [|x l l' _ IH|x y l|l l' l'' _ IH1 _ IH2]; simpl.
  - constructor.
  - destruct (f x); [now apply perm_skip|exact IH].
  - destruct (f x), (f y); try reflexivity. apply perm_swap.
  - now transitivity (filterMap f l').
Qed.

Lemma eventStep_filter (l : list CompositeTestEvent) :
  filterMap eventStep (filter isStep l) = filterMap eventStep l.
Proof.
  induction l as [|e l IH]; simpl; [reflexivity|].
  destruct e; simpl; now rewrite IH.
Qed.

Lemma eventStep_Step (l : list StepEvent.t) :
  filterMap eventStep (map Step l) = map StepEvent.event l.
Proof. induction l as [|s l IH]; simpl; [reflexivity|now rewrite IH]. Qed.

Lemma rowStep_mapiFrom (currentTime : Z) (l : list CompositeTestEvent) (i : nat) :
  filterMap rowStep (mapiFrom (renderEvent currentTime) i l) = filterMap eventStep l.
Proof.
  revert i. induction l as [|e l IH]; intros i; simpl; [reflexivity|].
  destruct e; simpl; now rewrite IH.
Qed.

Lemma rowStep_TestSection (currentTime : Z) (l : list CompositeTestEvent)
      (header : option string) :
  filterMap rowStep (TestSection currentTime l header) = filterMap eventStep l.
Proof.
  unfold TestSection. destruct l as [|e l]; [reflexivity|].
  cbn [List.length Nat.eqb]. rewrite filterMap_app.
  unfold mapi. rewrite rowStep_mapiFrom.
  destruct header as [h|]; [|reflexivity]. now destruct (truthy (Some h)).
Qed.

(** X11. [TestSteps] renders every step of the test exactly once: the
    steps shown by its step rows are, up to their order, the annotated steps
    computed from the steps of the test, one row for each step. *)
Theorem every_step_is_rendered_once
        (store : Store) (testCaseStartTime currentTime : Z) (test : TestItem.t) :
  let rows := TestSteps store testCaseStartTime currentTime test in
  Permutation (filterMap rowStep rows)
              (map StepEvent.event
                   (stepsByTime store testCaseStartTime (TestItem.steps test)))
  /\ List.length (filterMap rowStep rows) = List.length (TestItem.steps test)
  /\ forall step key index argString id,
       In (TestStepItemRow step key index argString id) rows ->
       index = AnnotatedTestStep.index step /\ id = AnnotatedTestStep.id step.
Proof.
  intros rows.
  assert (Hrows : filterMap rowStep rows
                  = filterMap eventStep
                      (contents (useGetTestSections store testCaseStartTime
                                                    (TestItem.steps test)))).
  { subst rows. unfold TestSteps, contents. cbv zeta.
    rewrite !filterMap_app, !rowStep_TestSection.
    destruct (TestItem.error test); simpl; now rewrite app_nil_r. }
  assert (Hp : Permutation (filterMap rowStep rows)
                 (map StepEvent.event
                      (stepsByTime store testCaseStartTime (TestItem.steps test)))).
  { rewrite Hrows, <- eventStep_filter, <- eventStep_Step.
    apply filterMap_perm, steps_of_sections. }
  split; [exact Hp|]. split.
  - rewrite (Permutation_length Hp), length_map. apply stepsByTime_length.
  - intros step key index argString id Hin. subst rows. unfold TestSteps in Hin.
    cbv zeta in Hin.
    assert (Hsec : forall l h, In (TestStepItemRow step key index argString id)
                                  (TestSection currentTime l h) ->
                               index = AnnotatedTestStep.index step
                               /\ id = AnnotatedTestStep.id step).
    { intros l h. unfold TestSection.
      destruct (List.length l =? 0)%nat; [intros []|].
      intros H. apply in_app_or in H. destruct H as [H|H].
      - destruct h as [h|]; [|destruct H].
        destruct (truthy (Some h)); [|destruct H]. destruct H as [H|[]]. discriminate.
      - apply mapiFrom_In in H. destruct H as (k & e & _ & He).
        destruct e; simpl in He; try discriminate. now injection He as -> _ -> _ ->. }
    repeat (apply in_app_or in Hin; destruct Hin as [Hin|Hin]; [exact (Hsec _ _ Hin)|]).
    destruct (TestItem.error test); [destruct Hin as [Hin|[]]; discriminate|destruct Hin].
Qed.

Lemma mapiFrom_no_header (currentTime : Z) (l : list CompositeTestEvent) (i : nat) :
  forallb (fun r => negb (isHeader r)) (mapiFrom (renderEvent currentTime) i l) = true.
Proof.
  revert i. induction l as [|e l IH]; intros i; simpl; [reflexivity|].
  rewrite IH. now destruct e.
Qed.

Lemma In_TestSection_header (currentTime : Z) (l : list CompositeTestEvent)
      (header : option string) (h : string) :
  In (SectionHeader h) (TestSection currentTime l header)
  <-> l <> [] /\ header = Some h /\ h <> "".
Proof.
  unfold TestSection. destruct l as [|e l]; simpl.
  - split; [intros []|intros [H _]; now elim H].
  - split.
    + intros H. apply in_app_or in H. destruct H as [H|H].
      * destruct header as [h'|]; [|destruct H]. simpl in H.
        destruct (String.eqb_spec h' ""); simpl in H; [destruct H|].
        destruct H as [[= ->]|[]]. repeat split; [discriminate|assumption].
      * pose proof (mapiFrom_no_header currentTime (e :: l) 0) as Hno.
        rewrite forallb_forall in Hno. specialize (Hno _ H). discriminate.
    + intros (_ & -> & Hh). apply in_or_app. left. simpl.
      destruct (String.eqb_spec h ""); [contradiction|]. now left.
Qed.

(** X12. The headers [TestSteps] renders: "Before Each" and "After Each"
    when their section is not empty, and "Test Body" when the test body is
    not empty and one of the other two sections is not empty either; no
    other header is rendered. *)
Theorem headers_of_the_sections
        (store : Store) (testCaseStartTime currentTime : Z) (test : TestItem.t)
        (h : string) :
  let out := useGetTestSections store testCaseStartTime (TestItem.steps test) in
  In (SectionHeader h) (TestSteps store testCaseStartTime currentTime test)
  <-> (h = "Before Each" /\ beforeEach out <> [])
      \/ (h = "Test Body" /\ testBody out <> []
          /\ (beforeEach out <> [] \/ afterEach out <> []))
      \/ (h = "After Each" /\ afterEach out <> []).
Proof.
  intros out. unfold TestSteps. fold out. cbv zeta.
  rewrite !in_app_iff, !In_TestSection_header.
  assert (Hother : (0 <? List.length (beforeEach out) + List.length (afterEach out))%nat = true
                   <-> beforeEach out <> [] \/ afterEach out <> []).
  { rewrite Nat.ltb_lt. destruct (beforeEach out), (afterEach out); simpl; split;
      intros H; try lia; try (left; discriminate); try (right; discriminate).
    destruct H as [H|H]; now elim H. }
  split.
  - intros [(Hne & [= <-] & _)|[(Hne & Hh & _)|[(Hne & [= <-] & _)|Herr]]].
    + left. now split.
    + right. left.
      destruct (0 <? List.length (beforeEach out) + List.length (afterEach out))%nat
        eqn:E; [|discriminate].
      injection Hh as <-. repeat split; [exact Hne|]. now apply Hother.
    + right. right. now split.
    + destruct (TestItem.error test); [destruct Herr as [Herr|[]]; discriminate|destruct Herr].
  - intros [[-> Hne]|[(-> & Hne & Ho)|[-> Hne]]].
    + left. repeat split; [exact Hne|discriminate].
    + right. left. apply Hother in Ho. rewrite Ho. repeat split; [exact Hne|discriminate].
    + right. right. left. repeat split; [exact Hne|discriminate].
Qed.

(** X13. A test whose steps have no hook is rendered without any section
    header: only the rows of the test body, and the error when there is
    one. *)
Theorem no_header_without_hooks
        (store : Store) (testCaseStartTime currentTime : Z) (test : TestItem.t) :
  (forall s, In s (TestItem.steps test) -> truthy (TestStep.hook s) = false) ->
  forall r, In r (TestSteps store testCaseStartTime currentTime test) ->
            isHeader r = false.
Proof.
  intros Hsteps r Hr.
  destruct (one_section store testCaseStartTime (TestItem.steps test) TestBody)
    as [Hone _].
  { intros s Hs. specialize (Hsteps s Hs). unfold target.
    destruct (isLit "beforeEach" (TestStep.hook s)) eqn:E1;
      [apply isLit_true in E1; rewrite E1 in Hsteps; discriminate|].
    destruct (isLit "afterEach" (TestStep.hook s)) eqn:E2;
      [apply isLit_true in E2; rewrite E2 in Hsteps; discriminate|].
    now rewrite Hsteps. }
  pose proof (Hone BeforeEach eq_refl) as Hb. pose proof (Hone AfterEach eq_refl) as Ha.
  simpl in Hb, Ha. unfold TestSteps in Hr. cbv zeta in Hr. rewrite Hb, Ha in Hr.
  simpl in Hr. unfold TestSection in Hr.
  destruct (List.length (testBody (useGetTestSections store testCaseStartTime
                                                      (TestItem.steps test))) =? 0)%nat.
  - simpl in Hr. destruct (TestItem.error test); [|destruct Hr].
    destruct Hr as [<-|[]]. reflexivity.
  - simpl in Hr. apply in_app_or in Hr. destruct Hr as [Hr|Hr].
    + pose proof (mapiFrom_no_header currentTime
                    (testBody (useGetTestSections store testCaseStartTime
                                                  (TestItem.steps test))) 0) as Hno.
      rewrite forallb_forall in Hno. specialize (Hno _ Hr).
      now destruct (isHeader r).
    + destruct (TestItem.error test); [|destruct Hr].
      destruct Hr as [<-|[]]. reflexivity.
Qed.

Lemma no_header_without_hooks_witness :
  let store := networkOnly [mkSummary "n1" (Some "xhr") (Some 5)] in
  let test := {| TestItem.steps := [mkStep "s1" "get" (Some 10) 0 None None;
                                    mkStep "s2" "get" None 20 None None];
                 TestItem.title := "adds a todo";
                 TestItem.error := Some failure |} in
  forallb (fun r => negb (isHeader r)) (TestSteps store 0 0 test) = true.
Proof.
  intros store test. apply forallb_forall. intros r Hr.
  rewrite (no_header_without_hooks store 0 0 test); [reflexivity| |exact Hr].
  intros s [<-|[<-|[]]]; reflexivity.
Defined.

Lemma In_TestSection_navigation (currentTime : Z) (l : list CompositeTestEvent)
      (header : option string) (pending : bool) (url : option string) :
  In (NavigationRow pending url) (TestSection currentTime l header) ->
  exists n, In (Navigation n) l
            /\ pending = (currentTime <? NavigationEvent.time n)
            /\ url = CypressAnnotationMessage.url (NavigationEvent.event n).
Proof.
  unfold TestSection. destruct (List.length l =? 0)%nat; [intros []|].
  intros H. apply in_app_or in H. destruct H as [H|H].
  - destruct header as [h|]; [|destruct H].
    destruct (truthy (Some h)); [|destruct H]. destruct H as [H|[]]. discriminate.
  - apply mapiFrom_In in H. destruct H as (k & e & Hk & He).
    destruct e as [s|n|n]; simpl in He; try discriminate.
    injection He as -> ->. exists n. split; [|now split].
    now apply nth_error_In in Hk.
Qed.

Lemma In_mapiFrom_navigation (currentTime : Z) (l : list CompositeTestEvent)
      (i : nat) (n : NavigationEvent.t) :
  In (Navigation n) l ->
  In (renderEvent currentTime (Navigation n) 0) (mapiFrom (renderEvent currentTime) i l).
Proof.
  revert i. induction l as [|e l IH]; intros i; simpl; [tauto|].
  intros [->|H]; [now left|right; now apply IH].
Qed.

Lemma navigation_In_TestSection (currentTime : Z) (l : list CompositeTestEvent)
      (header : option string) (n : NavigationEvent.t) :
  In (Navigation n) l ->
  In (NavigationRow (currentTime <? NavigationEvent.time n)
                    (CypressAnnotationMessage.url (NavigationEvent.event n)))
     (TestSection currentTime l header).
Proof.
  intros Hn. unfold TestSection.
  destruct l as [|e l]; [destruct Hn|]. cbn [List.length Nat.eqb].
  apply in_or_app. right. now apply In_mapiFrom_navigation.
Qed.

(** X14. The navigation rows are the navigation events of the sections,
    each with its url, and a row is pending exactly when the time of its
    event is after the current time.  As navigation events are kept only
    inside the window, no navigation row is pending once the current time
    has reached the end of the window, and every navigation row is pending
    while the current time is before the first step. *)
Theorem navigation_rows_pending_within_window
        (store : Store) (testCaseStartTime currentTime : Z) (test : TestItem.t) :
  let out := useGetTestSections store testCaseStartTime (TestItem.steps test) in
  let rows := TestSteps store testCaseStartTime currentTime test in
  let tm := times (stepsByTime store testCaseStartTime (TestItem.steps test)) in
  (forall n, In (Navigation n) (contents out) ->
             In (NavigationRow (currentTime <? NavigationEvent.time n)
                               (CypressAnnotationMessage.url (NavigationEvent.event n)))
                rows)
  /\ (forall pending url,
         In (NavigationRow pending url) rows ->
         (exists n, In (Navigation n) (contents out)
                    /\ url = CypressAnnotationMessage.url (NavigationEvent.event n)
                    /\ (pending = true <-> currentTime < NavigationEvent.time n))
         /\ (Times.max tm <= currentTime -> pending = false)
         /\ (geNum currentTime (Times.min tm) = false -> pending = true)).
Proof.
  intros out rows tm. split.
  - intros n Hn. unfold rows, TestSteps. cbv zeta. fold out.
    unfold contents in Hn.
    apply in_app_or in Hn. destruct Hn as [Hn|Hn].
    { apply in_or_app. left. now apply navigation_In_TestSection. }
    apply in_app_or in Hn. destruct Hn as [Hn|Hn].
    { apply in_or_app. right. apply in_or_app. left.
      now apply navigation_In_TestSection. }
    apply in_or_app. right. apply in_or_app. right. apply in_or_app. left.
    now apply navigation_In_TestSection.
  - intros pending url Hin. unfold rows, TestSteps in Hin. cbv zeta in Hin.
    fold out in Hin.
    assert (Hn : exists n,
               In (Navigation n) (contents out)
               /\ pending = (currentTime <? NavigationEvent.time n)
               /\ url = CypressAnnotationMessage.url (NavigationEvent.event n)).
    { unfold contents.
      apply in_app_or in Hin. destruct Hin as [Hin|Hin].
      { apply In_TestSection_navigation in Hin. destruct Hin as (n & Hn & Hp).
        exists n. split; [apply in_or_app; now left|exact Hp]. }
      apply in_app_or in Hin. destruct Hin as [Hin|Hin].
      { apply In_TestSection_navigation in Hin. destruct Hin as (n & Hn & Hp).
        exists n. split; [apply in_or_app; right; apply in_or_app; now left|exact Hp]. }
      apply in_app_or in Hin. destruct Hin as [Hin|Hin].
      { apply In_TestSection_navigation in Hin. destruct Hin as (n & Hn & Hp).
        exists n. split; [apply in_or_app; right; apply in_or_app; now right|exact Hp]. }
      destruct (TestItem.error test); [destruct Hin as [Hin|[]]; discriminate|destruct Hin]. }
    destruct Hn as (n & Hn & -> & ->).
    split.
    { exists n. split; [exact Hn|]. split; [reflexivity|]. apply Z.ltb_lt. }
    apply In_sections_navigation in Hn. destruct Hn as [Hwin _]. fold tm in Hwin.
    unfold isDuringSteps in Hwin. apply andb_true_iff in Hwin.
    destruct Hwin as [Hmin Hmax]. apply Z.ltb_lt in Hmax. split.
    + intros Hle. apply Z.ltb_ge. lia.
    + intros Hbefore. apply Z.ltb_lt.
      destruct (Times.min tm) as [m|]; simpl in *; [|discriminate].
      apply Z.leb_le in Hmin. apply Z.leb_gt in Hbefore. lia.
Qed.

Lemma navigation_rows_pending_within_window_witness :
  let a := {| Annotation.message :=
                {| CypressAnnotationMessage.id := None;
                   CypressAnnotationMessage.url := Some "https://example.com/" |};
              Annotation.time := 5 |} in
  let store := {| navigationEvents := [a]; annotationsEnqueue := [];
                  annotationsEnd := []; annotationsStart := []; summaries := [] |} in
  let test := {| TestItem.steps := [mkStep "s1" "get" (Some 10) 0 None None];
                 TestItem.title := "visits the page"; TestItem.error := None |} in
  let n := {| NavigationEvent.time := 5; NavigationEvent.event := Annotation.message a |} in
  In (NavigationRow false (Some "https://example.com/")) (TestSteps store 0 5 test)
  /\ In (NavigationRow true (Some "https://example.com/")) (TestSteps store 0 4 test).
Proof.
  intros a store test n.
  assert (Hn : In (Navigation n)
                  (contents (useGetTestSections store 0 (TestItem.steps test)))).
  { vm_compute. right. now left. }
  split.
  - exact (proj1 (navigation_rows_pending_within_window store 0 5 test) n Hn).
  - exact (proj1 (navigation_rows_pending_within_window store 0 4 test) n Hn).
Defined.

(** * Inputs without influence *)

Lemma find_filter {A : Type} (f keep : A -> bool) (l : list A) :
  (forall x, f x = true -> keep x = true) -> find f (filter keep l) = find f l.
Proof.
  intros H. induction l as [|x l IH]; simpl; [reflexivity|].
  destruct (keep x) eqn:Hk; simpl.
  - destruct (f x); [reflexivity|exact IH].
  - destruct (f x) eqn:Hf; [|exact IH]. rewrite (H x Hf) in Hk. discriminate.
Qed.

Lemma findAnnotation_own (steps : list TestStep.t) (l : list Annotation.t) (s : TestStep.t) :
  In s steps ->
  findAnnotation (filter (aboutStep steps) l) (TestStep.id s) = findAnnotation l (TestStep.id s).
Proof.
  intros Hs. unfold findAnnotation. apply find_filter.
  intros a Ha. unfold aboutStep. apply existsb_exists. now exists s.
Qed.

(** X15. Start, end and enqueue annotations whose message id is the id of
    no step of the test are never used: without them the sections are the
    same. *)
Theorem annotations_of_other_steps_are_ignored
        (store : Store) (startTime : Z) (steps : list TestStep.t) :
  useGetTestSections (ownAnnotations store steps) startTime steps
  = useGetTestSections store startTime steps.
Proof.
  assert (Hs : stepsByTime (ownAnnotations store steps) startTime steps
               = stepsByTime store startTime steps).
  { apply mapiFrom_ext. intros s k Hs. unfold annotateStep, resolveStep. simpl.
    now rewrite !(findAnnotation_own steps _ s Hs). }
  unfold useGetTestSections, allEvents, retained. now rewrite Hs.
Qed.

Lemma filter_filter_implied {A : Type} (f keep : A -> bool) (l : list A) :
  (forall x, f x = true -> keep x = true) -> filter f (filter keep l) = filter f l.
Proof.
  intros H. induction l as [|x l IH]; simpl; [reflexivity|].
  destruct (keep x) eqn:Hk; simpl.
  - now rewrite IH.
  - destruct (f x) eqn:Hf; [|exact IH]. rewrite (H x Hf) in Hk. discriminate.
Qed.

(** X16. Summaries of requests whose cause is neither "xhr" nor "fetch",
    and summaries without end time, have no influence at all: without them
    the sections are the same. *)
Theorem other_requests_are_ignored
        (store : Store) (startTime : Z) (steps : list TestStep.t) :
  useGetTestSections (finishedRequests store) startTime steps
  = useGetTestSections store startTime steps.
Proof.
  unfold useGetTestSections, allEvents, retained, networkDataByTime. cbv zeta.
  change (stepsByTime (finishedRequests store) startTime steps)
    with (stepsByTime store startTime steps).
  change (summaries (finishedRequests store))
    with (filter finishedRequest (summaries store)).
  change (navigationEvents (finishedRequests store)) with (navigationEvents store).
  rewrite filter_filter_implied; [reflexivity|].
  intros n. unfold keepSummary, finishedRequest.
  destruct (isLit "xhr" (RequestSummary.cause n) || isLit "fetch" (RequestSummary.cause n));
    [|discriminate].
  now destruct (RequestSummary.end_ n).
Qed.

(** * Properties of [DeclarationValue] *)

Lemma jsString_eqb_eq (a b : jsString) : jsString_eqb a b = true <-> a = b.
Proof.
  revert b. induction a as [|x a IH]; intros [|y b]; simpl; split; intros H;
    try reflexivity; try discriminate.
  - apply andb_true_iff in H. destruct H as [Hx Ha].
    apply N.eqb_eq in Hx. apply IH in Ha. now subst.
  - injection H as -> ->. rewrite N.eqb_refl. simpl. now apply IH.
Qed.

Lemma oneLine_important : oneLine important = true.
Proof. reflexivity. Qed.

(** The split of a string that ends in "!important" is unique. *)
Lemma important_suffix_cons (c : N) (rest q : jsString) :
  c :: rest = q ++ important -> c :: rest <> important ->
  exists q', q = c :: q' /\ rest = q' ++ important.
Proof.
  intros Hq Hne. destruct q as [|c' q'].
  - simpl in Hq. now elim Hne.
  - simpl in Hq. injection Hq as <- ->. now exists q'.
Qed.

Lemma matchImportant_spec (rest prefix : jsString) :
  match matchImportant prefix rest with
  | Some (g1, Some g2) =>
      g2 = important
      /\ exists q, rest = q ++ important /\ oneLine q = true /\ g1 = prefix ++ q
  | Some (g1, None) =>
      g1 = prefix ++ rest /\ oneLine rest = true
      /\ forall q, rest <> q ++ important
  | None =>
      forall q, rest = q ++ important -> oneLine q = false
  end.
Proof.
  revert prefix. induction rest as [|c rest IH]; intros prefix.
  - simpl. rewrite app_nil_r. repeat split. intros q Hq.
    destruct q; discriminate.
  - cbn [matchImportant].
    destruct (jsString_eqb (c :: rest) important) eqn:E.
    + apply jsString_eqb_eq in E. split; [reflexivity|].
      exists []. rewrite app_nil_r. now split.
    + assert (Hne : c :: rest <> important).
      { intros H. apply jsString_eqb_eq in H. congruence. }
      destruct (isLineTerminator c) eqn:Hc.
      * intros q Hq. destruct (important_suffix_cons c rest q Hq Hne) as (q' & -> & _).
        simpl. now rewrite Hc.
      * specialize (IH (prefix ++ [c])).
        destruct (matchImportant (prefix ++ [c]) rest) as [[g1 [g2|]]|].
        -- destruct IH as (-> & q & -> & Hq & ->). split; [reflexivity|].
           exists (c :: q). simpl. rewrite Hc, Hq, <- app_assoc. now repeat split.
        -- destruct IH as (-> & Hone & Hno). rewrite <- app_assoc. simpl.
           rewrite Hc, Hone. repeat split.
           intros q Hq. destruct (important_suffix_cons c rest q Hq Hne) as (q' & _ & Hq').
           exact (Hno q' Hq').
        -- intros q Hq. destruct (important_suffix_cons c rest q Hq Hne) as (q' & -> & Hq').
           simpl. rewrite Hc. simpl. exact (IH q' Hq').
Qed.

(** X17. A string value is split exactly when it ends in "!important" and
    what precedes has no line terminator: it is then rendered as the text
    before, a space and "!important".  Every other string is rendered
    unchanged. *)
Theorem important_is_set_apart
        (parser : OutputParser) (props : DeclarationValueProps.t) (v : jsString) :
  match renderValue parser props (Plain v) with
  | Fragments l =>
      exists p, v = p ++ important /\ oneLine p = true
                /\ l = [p; units " "; important]
  | Text t =>
      t = v /\ forall p, v = p ++ important -> oneLine p = false
  | _ => False
  end.
Proof.
  unfold renderValue. pose proof (matchImportant_spec v []) as H.
  destruct (matchImportant [] v) as [[g1 [g2|]]|].
  - destruct H as (-> & q & -> & Hq & ->). simpl. now exists q.
  - destruct H as (_ & _ & Hno). split; [reflexivity|].
    intros p Hp. now elim (Hno p).
  - split; [reflexivity|exact H].
Qed.

Lemma important_is_set_apart_witness :
  let parser := {| COLOR := units "color"; FONT_FAMILY := units "font-family";
                   URI := units "url" |} in
  let props := {| DeclarationValueProps.colorSpanClassName := [];
                  DeclarationValueProps.colorSwatchClassName := [];
                  DeclarationValueProps.fontFamilySpanClassName := [] |} in
  renderValue parser props (Plain (units "blue !important"))
  = Fragments [units "blue "; units " "; units "!important"]
  /\ renderValue parser props (Plain (units "blue")) = Text (units "blue").
Proof.
  intros parser props. split.
  - pose proof (important_is_set_apart parser props (units "blue !important")) as H.
    destruct (renderValue parser props (Plain (units "blue !important"))) eqn:E;
      try discriminate E.
    destruct H as (p & Hv & _ & ->).
    apply (app_inv_tail important (units "blue ") p) in Hv. now subst p.
  - reflexivity.
Defined.

(** * Network rows *)

Lemma In_sections_network (store : Store) (startTime : Z) (steps : list TestStep.t)
      (n : NetworkEvent.t) :
  In (Network n) (contents (useGetTestSections store startTime steps)) ->
  In (NetworkEvent.event n) (summaries store)
  /\ keepSummary (times (stepsByTime store startTime steps)) (NetworkEvent.event n) = true
  /\ RequestSummary.end_ (NetworkEvent.event n) = Some (NetworkEvent.time n).
Proof.
  intros Hin. apply In_sections_retained in Hin. unfold retained in Hin.
  cbv zeta in Hin. apply in_app_or in Hin. destruct Hin as [Hin|Hin].
  - apply in_map_iff in Hin. destruct Hin as (n' & [= ->] & Hn).
    apply In_filterMap in Hn. destruct Hn as (r & Hr & Hto).
    apply filter_In in Hr. destruct Hr as [Hr Hkeep]. unfold toNetworkEvent in Hto.
    destruct (RequestSummary.end_ r) as [t|] eqn:Hend; [|discriminate].
    injection Hto as <-. simpl. now repeat split.
  - apply in_app_or in Hin. destruct Hin as [Hin|Hin];
      apply in_map_iff in Hin; destruct Hin as (? & [=] & _).
Qed.

Lemma In_TestSection_network (currentTime : Z) (l : list CompositeTestEvent)
      (header : option string) (key : string) (request : RequestSummary.t) :
  In (NetworkEventRow key request) (TestSection currentTime l header) ->
  key = RequestSummary.id request
  /\ exists n, In (Network n) l /\ NetworkEvent.event n = request.
Proof.
  unfold TestSection. destruct (List.length l =? 0)%nat; [intros []|].
  intros H. apply in_app_or in H. destruct H as [H|H].
  - destruct header as [h|]; [|destruct H].
    destruct (truthy (Some h)); [|destruct H]. destruct H as [H|[]]. discriminate.
  - apply mapiFrom_In in H. destruct H as (k & e & Hk & He).
    destruct e as [s|n|n]; simpl in He; try discriminate.
    injection He as -> ->. split; [reflexivity|]. exists n.
    split; [now apply nth_error_In in Hk|reflexivity].
Qed.

(** X18. Every network row [TestSteps] renders shows a summary of the
    store, keyed by its id, whose cause is "xhr" or "fetch" and whose end
    time is defined and in the window of the steps. *)
Theorem network_rows_are_requests_during_steps
        (store : Store) (testCaseStartTime currentTime : Z) (test : TestItem.t)
        (key : string) (request : RequestSummary.t) :
  In (NetworkEventRow key request) (TestSteps store testCaseStartTime currentTime test) ->
  let tm := times (stepsByTime store testCaseStartTime (TestItem.steps test)) in
  key = RequestSummary.id request
  /\ In request (summaries store)
  /\ (RequestSummary.cause request = Some "xhr"
      \/ RequestSummary.cause request = Some "fetch")
  /\ exists t, RequestSummary.end_ request = Some t /\ isDuringSteps tm t = true.
Proof.
  intros Hin tm. unfold TestSteps in Hin. cbv zeta in Hin.
  assert (Hn : key = RequestSummary.id request
               /\ exists n,
                   In (Network n)
                      (contents (useGetTestSections store testCaseStartTime
                                                    (TestItem.steps test)))
                   /\ NetworkEvent.event n = request).
  { unfold contents.
    apply in_app_or in Hin. destruct Hin as [Hin|Hin].
    { apply In_TestSection_network in Hin. destruct Hin as (Hk & n & Hn & He).
      split; [exact Hk|]. exists n. split; [apply in_or_app; now left|exact He]. }
    apply in_app_or in Hin. destruct Hin as [Hin|Hin].
    { apply In_TestSection_network in Hin. destruct Hin as (Hk & n & Hn & He).
      split; [exact Hk|]. exists n.
      split; [apply in_or_app; right; apply in_or_app; now left|exact He]. }
    apply in_app_or in Hin. destruct Hin as [Hin|Hin].
    { apply In_TestSection_network in Hin. destruct Hin as (Hk & n & Hn & He).
      split; [exact Hk|]. exists n.
      split; [apply in_or_app; right; apply in_or_app; now right|exact He]. }
    destruct (TestItem.error test); [destruct Hin as [Hin|[]]; discriminate|destruct Hin]. }
  destruct Hn as (Hk & n & Hn & <-). split; [exact Hk|].
  apply In_sections_network in Hn. destruct Hn as (Hs & Hkeep & Hend). fold tm in Hkeep.
  split; [exact Hs|]. unfold keepSummary in Hkeep. rewrite Hend in Hkeep.
  apply andb_true_iff in Hkeep. destruct Hkeep as [Hcause Hwin].
  apply orb_true_iff in Hcause. split.
  - destruct Hcause as [H|H]; apply isLit_true in H; tauto.
  - now exists (NetworkEvent.time n).
Qed.

Lemma network_rows_are_requests_during_steps_witness :
  let r := mkSummary "n1" (Some "xhr") (Some 5) in
  let store := networkOnly [r] in
  let test := {| TestItem.steps := [mkStep "s1" "get" (Some 10) 0 None None];
                 TestItem.title := "loads the list"; TestItem.error := None |} in
  In (NetworkEventRow "n1" r) (TestSteps store 0 0 test)
  /\ In r (summaries store).
Proof.
  intros r store test.
  assert (Hin : In (NetworkEventRow "n1" r) (TestSteps store 0 0 test)).
  { vm_compute. right. now left. }
  split; [exact Hin|].
  exact (proj1 (proj2 (network_rows_are_requests_during_steps store 0 0 test "n1" r Hin))).
Defined.
